(** * ts-function-tester: signature extractor and sandboxed execution engine

    A shallow embedding of [src/codeParser.ts] (class [CodeParser]), of the
    executor module (class [CodeExecutor]) and of their callers, followed by
    the properties of the specification stated and settled against that
    embedding.

    Conventions.
    - A JavaScript string is a sequence of UTF-16 code units.  It is kept
      as its UTF-8 text, a [string] of bytes; a surrogate without its
      partner is kept as the three bytes of its own code.  Searching,
      splitting and comparing are the same on both forms; lengths and
      positions are counted in code units ([length16], [substring_0]).
    - JavaScript numbers are IEEE-754 doubles: [float].
    - Everything that the code obtains from outside the repository (the
      TypeScript compiler, Node's [vm], [eval], [JSON], [Number], property
      reads and method calls on values made by evaluated code, ...) is a
      field of a host record; the code of the repository is written out over
      those fields.
    - A JavaScript computation ends normally, throws a value, or does not
      return: [Completion].  Code evaluated inside a [vm] context reads and
      writes the context bindings and the host objects reachable from them,
      so it is a state transformer over both: [M]. *)

From Stdlib Require Import String Ascii ZArith Lia Floats DecimalString SpecFloat FloatOps.
From stdpp Require Import base list strings gmap.

Open Scope string_scope.

(** ** JavaScript strings *)

Module JsString.

Definition byte (c : ascii) : N := N_of_ascii c.

(** The white space and line terminators of one byte: TAB, LF, VT, FF, CR
    and SPACE. *)
Definition is_ws (c : ascii) : bool :=
  let n := byte c in
  ((n =? 32) || ((9 <=? n) && (n <=? 13)))%N.

(** U+00A0, in two bytes. *)
Definition is_ws2 (a b : ascii) : bool :=
  ((byte a =? 194) && (byte b =? 160))%N.

(** U+1680, U+2000 to U+200A, U+2028, U+2029, U+202F, U+205F, U+3000 and
    U+FEFF, in three bytes. *)
Definition is_ws3 (a b c : ascii) : bool :=
  let x := byte a in
  let y := byte b in
  let z := byte c in
  (((x =? 225) && (y =? 154) && (z =? 128))
   || ((x =? 226) && (y =? 128)
       && (((128 <=? z) && (z <=? 138)) || (z =? 168) || (z =? 169) || (z =? 175)))
   || ((x =? 226) && (y =? 129) && (z =? 159))
   || ((x =? 227) && (y =? 128) && (z =? 128))
   || ((x =? 239) && (y =? 187) && (z =? 191)))%N.

(** The width in bytes of the white-space character that [s] starts with,
    0 when it starts with none: the white space of
    [String.prototype.trim] and of the class [\s]. *)
Definition ws_width (s : string) : nat :=
  match s with
  | String a r =>
      if is_ws a then 1
      else match r with
           | String b r' =>
               if is_ws2 a b then 2
               else match r' with
                    | String c _ => if is_ws3 a b c then 3 else 0
                    | EmptyString => 0
                    end
           | EmptyString => 0
           end
  | EmptyString => 0
  end.

(** The same, for a text given back to front. *)
Definition ws_width_end (r : string) : nat :=
  match r with
  | String c r1 =>
      if is_ws c then 1
      else match r1 with
           | String b r2 =>
               if is_ws2 b c then 2
               else match r2 with
                    | String a _ => if is_ws3 a b c then 3 else 0
                    | EmptyString => 0
                    end
           | EmptyString => 0
           end
  | EmptyString => 0
  end.

Fixpoint drop (n : nat) (s : string) : string :=
  match n, s with
  | O, _ => s
  | S n', String _ s' => drop n' s'
  | S _, EmptyString => EmptyString
  end.

Fixpoint reverse_onto (s acc : string) : string :=
  match s with
  | EmptyString => acc
  | String c s' => reverse_onto s' (String c acc)
  end.

Definition reverse (s : string) : string := reverse_onto s EmptyString.

(** Drop white-space characters from the front, as long as there are any;
    [width] says how wide the first one is. *)
Fixpoint drop_while (width : string -> nat) (fuel : nat) (s : string) : string :=
  match fuel with
  | O => s
  | S fuel' =>
      match width s with
      | O => s
      | w => drop_while width fuel' (drop w s)
      end
  end.

Definition trimStart (s : string) : string :=
  drop_while ws_width (String.length s) s.

Definition trimEnd (s : string) : string :=
  reverse (drop_while ws_width_end (String.length s) (reverse s)).

Definition trim (s : string) : string := trimEnd (trimStart s).

Definition startsWith (s prefix : string) : bool := String.prefix prefix s.

Definition endsWith (s suffix : string) : bool :=
  let n := String.length s in
  let m := String.length suffix in
  (m <=? n)%nat && String.eqb (substring (n - m) m s) suffix.

Fixpoint includes (s needle : string) : bool :=
  String.prefix needle s ||
  match s with
  | EmptyString => false
  | String _ s' => includes s' needle
  end.

(** [s.slice(1, -1)], for a text that starts and ends with a character of
    one byte, as the texts tested with [quoted] do. *)
Definition slice_1_m1 (s : string) : string :=
  substring 1 (String.length s - 2) s.

(** *** Lengths and prefixes in UTF-16 code units *)

(** What a byte adds to the length: a continuation byte nothing, the first
    byte of a four-byte sequence two units (a surrogate pair), any other
    byte one. *)
Definition units_of (c : ascii) : nat :=
  let n := byte c in
  if ((128 <=? n) && (n <? 192))%N then 0
  else if (240 <=? n)%N then 2
  else 1.

(** [s.length] *)
Fixpoint length16 (s : string) : nat :=
  match s with
  | EmptyString => 0
  | String c s' => units_of c + length16 s'
  end.

(** The first half of the surrogate pair of the four-byte sequence
    [b0 b1 b2 ...], as the three bytes of its own code. *)
Definition high_surrogate (b0 : ascii) (rest : string) : string :=
  let b n := byte (match drop n rest with
                   | String c _ => c
                   | EmptyString => Ascii.zero
                   end) in
  let code := ((byte b0 mod 8) * 262144 + (b 0%nat mod 64) * 4096
               + (b 1%nat mod 64) * 64 + (b 2%nat mod 64))%N in
  let high := (55296 + ((code - 65536) / 1024) mod 1024)%N in
  String (ascii_of_N 237)
    (String (ascii_of_N (128 + (high / 64) mod 64))
       (String (ascii_of_N (128 + high mod 64)) EmptyString)).

(** [s.substring(0, n)]: the first [n] code units.  A cut in the middle of
    a surrogate pair keeps its first half. *)
Fixpoint substring_0 (n : nat) (s : string) : string :=
  match s with
  | EmptyString => EmptyString
  | String c s' =>
      match units_of c with
      | 0 => String c (substring_0 n s')
      | 1 => match n with
             | O => EmptyString
             | S n' => String c (substring_0 n' s')
             end
      | _ => match n with
             | O => EmptyString
             | 1 => high_surrogate c s'
             | S (S n') => String c (substring_0 n' s')
             end
      end
  end.

(** [s.split(c)] for a one-character separator. *)
Fixpoint split (sep : ascii) (s : string) : list string :=
  match s with
  | EmptyString => [EmptyString]
  | String c s' =>
      if Ascii.eqb c sep then EmptyString :: split sep s'
      else match split sep s' with
           | p :: ps => String c p :: ps
           | [] => [String c EmptyString]
           end
  end.

(** [pieces.join(c)] *)
Fixpoint join (sep : ascii) (pieces : list string) : string :=
  match pieces with
  | [] => EmptyString
  | [p] => p
  | p :: ps => p +:+ String sep (join sep ps)
  end.

Definition lower (c : ascii) : ascii :=
  let n := byte c in
  if ((65 <=? n) && (n <=? 90))%N then ascii_of_N (n + 32) else c.

Fixpoint toLowerCase (s : string) : string :=
  match s with
  | EmptyString => EmptyString
  | String c s' => String (lower c) (toLowerCase s')
  end.

Definition isEmpty (s : string) : bool :=
  match s with EmptyString => true | _ => false end.

(** *** Pieces of regular expressions *)

(** [\s*] after a matched prefix: drop the longest prefix of white space. *)
Definition skip_ws (s : string) : string := trimStart s.

(** [s*] after a matched prefix: drop the longest prefix of letters s. *)
Fixpoint skip_s (s : string) : string :=
  match s with
  | String c s' => if Ascii.eqb c "s" then skip_s s' else s
  | EmptyString => EmptyString
  end.

Fixpoint all_s (s : string) : bool :=
  match s with
  | String c s' => Ascii.eqb c "s" && all_s s'
  | EmptyString => true
  end.

(** The dot of a regular expression without flags: one code unit that is
    not a line terminator (LF, CR, U+2028, U+2029).  [Some rest] when [s]
    starts with one. *)
Definition any_char (s : string) : option string :=
  match s with
  | String c r =>
      let n := byte c in
      if (n <? 128)%N then
        if ((n =? 10) || (n =? 13))%N then None else Some r
      else if ((192 <=? n) && (n <? 224))%N then Some (drop 1 r)
      else if ((224 <=? n) && (n <? 240))%N then
        match r with
        | String b (String d r') =>
            if ((n =? 226) && (byte b =? 128)
                && ((byte d =? 168) || (byte d =? 169)))%N
            then None else Some r'
        | _ => Some EmptyString
        end
      else None
  | EmptyString => None
  end.

(** [strip_prefix p s = Some r] when [s = p ++ r]. *)
Fixpoint strip_prefix (p s : string) : option string :=
  match p, s with
  | EmptyString, _ => Some s
  | String a p', String b s' =>
      if Ascii.eqb a b then strip_prefix p' s' else None
  | String _ _, EmptyString => None
  end.

(** Longest prefix of characters different from [stop], and the rest. *)
Fixpoint span_not (stop : ascii) (s : string) : string * string :=
  match s with
  | EmptyString => (EmptyString, EmptyString)
  | String c s' =>
      if Ascii.eqb c stop then (EmptyString, s)
      else let '(a, b) := span_not stop s' in (String c a, b)
  end.

Definition drop_optional (c : ascii) (s : string) : string :=
  match s with
  | String d s' => if Ascii.eqb c d then s' else s
  | EmptyString => s
  end.

End JsString.

(** ** JavaScript values and completions *)

Inductive Completion (E A : Type) : Type :=
| Normal (a : A)
| Throw (e : E)
| Hang.
Arguments Normal {E A} a.
Arguments Throw {E A} e.
Arguments Hang {E A}.

#[local] Set Warnings "-register-all".

Inductive Value : Type :=
| VUndefined
| VNull
| VBool (b : bool)
| VNum (n : float)
| VStr (s : string)
| VArr (items : list Value)                       (* Array.isArray *)
| VObject (props : list (string * Value))         (* plain object *)
| VFunc (source : string) (closure : nat)         (* typeof = 'function'; [source] is the text it was created from *)
| VError (name message stack : string)            (* instanceof Error *)
| VDate (time : float)
| VPromise (settled : Completion Value Value).     (* thenable, with its eventual settlement *)

Definition Result : Type -> Type := Completion Value.

Definition typeof_function (v : Value) : bool :=
  match v with VFunc _ _ => true | _ => false end.

Definition typeof_object (v : Value) : bool :=
  match v with
  | VNull | VArr _ | VObject _ | VError _ _ _ | VDate _ | VPromise _ => true
  | _ => false
  end.

Definition Array_isArray (v : Value) : bool :=
  match v with VArr _ => true | _ => false end.

Definition isNaN (n : float) : bool := PrimFloat.is_nan n.

(** ToBoolean *)
Definition truthy (v : Value) : bool :=
  match v with
  | VUndefined | VNull => false
  | VBool b => b
  | VNum n => negb (isNaN n || PrimFloat.eqb n 0%float)
  | VStr s => negb (JsString.isEmpty s)
  | _ => true
  end.

Fixpoint lookup_prop (k : string) (props : list (string * Value)) : Value :=
  match props with
  | [] => VUndefined
  | (k', v) :: rest => if String.eqb k k' then v else lookup_prop k rest
  end.

Definition TypeError (message : string) : Value := VError "TypeError" message "".

(** [await v]: a thenable is replaced by its settlement, anything else is
    returned as it is. *)
Definition await (v : Value) : Result Value :=
  match v with
  | VPromise settled => settled
  | _ => Normal v
  end.

(** ** Computations over a state *)

Definition M (S A : Type) : Type := S -> Result A * S.

Definition ret {S A} (a : A) : M S A := fun s => (Normal a, s).

Definition bind {S A B} (m : M S A) (k : A -> M S B) : M S B :=
  fun s =>
    match m s with
    | (Normal a, s') => k a s'
    | (Throw e, s') => (Throw e, s')
    | (Hang, s') => (Hang, s')
    end.

Definition lift {S A} (c : Result A) : M S A := fun s => (c, s).

(** [try { m } catch (e) { handler e }] *)
Definition try_catch {S A} (m : M S A) (handler : Value -> M S A) : M S A :=
  fun s =>
    match m s with
    | (Throw e, s') => handler e s'
    | r => r
    end.

(** The same for computations without state. *)

Definition rbind {A B} (c : Result A) (k : A -> Result B) : Result B :=
  match c with
  | Normal a => k a
  | Throw e => Throw e
  | Hang => Hang
  end.

Definition rcatch {A} (c : Result A) (handler : Value -> Result A) : Result A :=
  match c with
  | Throw e => handler e
  | r => r
  end.

Notation "'let!' x := c1 'in' c2" := (rbind c1 (fun x => c2))
  (at level 10, x name, c1 at level 100, c2 at level 200,
   format "'[v' 'let!'  x  :=  c1  'in' '/' c2 ']'").

Notation "'do' x <- c1 ; c2" := (bind c1 (fun x => c2))
  (at level 10, x name, c1 at level 100, c2 at level 200,
   format "'[v' 'do'  x  <-  c1 ; '/' c2 ']'").
Notation "'run' c1 ; c2" := (bind c1 (fun _ => c2))
  (at level 10, c1 at level 100, c2 at level 200,
   format "'[v' 'run'  c1 ; '/' c2 ']'").

(** [xs.map(f)] with an effectful callback: left to right. *)
Fixpoint mapM {S A B} (f : A -> M S B) (xs : list A) : M S (list B) :=
  match xs with
  | [] => ret []
  | x :: xs' => do y <- f x; do ys <- mapM f xs'; ret (y :: ys)
  end.

(** [xs.map((x, index) => f)] with an effectful callback. *)
Fixpoint mapMi_from {T A B} (f : nat -> A -> M T B) (index : nat) (xs : list A)
  : M T (list B) :=
  match xs with
  | [] => ret []
  | x :: xs' => do y <- f index x; do ys <- mapMi_from f (S index) xs'; ret (y :: ys)
  end.

Definition mapMi {T A B} (f : nat -> A -> M T B) (xs : list A) : M T (list B) :=
  mapMi_from f 0 xs.

(** ** The signature extractor: [CodeParser] *)

Module CodeParser.

(** *** Result records ([ParameterInfo], [FunctionInfo]) *)

Record ParameterInfo := {
  param_name : string;
  param_type : string;
  param_optional : bool
}.

Record FunctionInfo := {
  name : string;
  parameters : list ParameterInfo;
  returnType : string;
  startLine : nat;
  endLine : nat;
  fullText : string;
  isAsync : bool;
  isClass : option bool;        (* isClass?: boolean *)
  className : option string     (* className?: string *)
}.

(** *** The syntax tree, as the extractor reads it

    A node of the TypeScript tree is kept as the data that the extractor
    reads from the node itself, together with the list of children that
    [ts.forEachChild] enumerates, in document order.  Texts are what
    [getText(sourceFile)] returns, lines what
    [getLineAndCharacterOfPosition] returns (0-based). *)

Inductive Modifier := AsyncKeyword | OtherModifier.

Record ParameterDeclaration := {
  pd_name : string;             (* param.name.getText(sourceFile) *)
  pd_type : option string;      (* param.type, its text *)
  pd_questionToken : bool       (* param.questionToken !== undefined *)
}.

Record Signature := {
  sig_parameters : list ParameterDeclaration;
  sig_type : option string;     (* node.type, its text *)
  sig_modifiers : list Modifier (* node.modifiers, empty when absent *)
}.

Record Range := {
  start_line : nat;             (* line of node.getStart() *)
  end_line : nat;               (* line of node.getEnd() *)
  text : string                 (* node.getText(sourceFile) *)
}.

Inductive Initializer :=
| ArrowFunction (s : Signature)
| FunctionExpression (s : Signature)
| OtherExpression.

Record VariableDeclaration := {
  vd_name : string;
  vd_range : Range;
  vd_initializer : option Initializer
}.

Inductive ClassElement :=
| Constructor (params : list ParameterDeclaration)
| MethodDeclaration (method_name : string) (s : Signature) (r : Range)
| OtherElement.

Inductive NodeData :=
| FunctionDeclaration (fname : option string) (s : Signature) (r : Range)
| VariableStatement (declarations : list VariableDeclaration)
| ClassDeclaration (cname : option string) (r : Range) (members : list ClassElement)
| OtherNode.

Inductive Node := mkNode (data : NodeData) (children : list Node).

(** [ts.createSourceFile] is error tolerant: it returns a tree for any
    text and records the syntax errors it met in [parseDiagnostics]. *)
Record SourceFile := {
  root : Node;
  parseDiagnostics : list string
}.

(** *** Extraction of one descriptor *)

Definition or_any (t : option string) : string :=
  match t with Some s => s | None => "any" end.

Definition parameterInfo (p : ParameterDeclaration) : ParameterInfo :=
  {| param_name := pd_name p;
     param_type := or_any (pd_type p);
     param_optional := pd_questionToken p |}.

Definition extractParameters (s : Signature) : list ParameterInfo :=
  map parameterInfo (sig_parameters s).

Definition extractReturnType (s : Signature) : string := or_any (sig_type s).

Definition is_async_modifier (m : Modifier) : bool :=
  match m with AsyncKeyword => true | OtherModifier => false end.

(** [node.modifiers?.some(m => m.kind === ts.SyntaxKind.AsyncKeyword) || false] *)
Definition has_async (s : Signature) : bool :=
  existsb is_async_modifier (sig_modifiers s).

(** [node.name?.getText(sourceFile) || 'anonymous'] *)
Definition name_or_anonymous (fname : option string) : string :=
  match fname with
  | Some t => if JsString.isEmpty t then "anonymous" else t
  | None => "anonymous"
  end.

Definition extractFunctionInfo (fname : option string) (s : Signature) (r : Range)
  : FunctionInfo :=
  {| name := name_or_anonymous fname;
     parameters := extractParameters s;
     returnType := extractReturnType s;
     startLine := start_line r + 1;
     endLine := end_line r + 1;
     fullText := text r;
     isAsync := has_async s;
     isClass := None;
     className := None |}.

Definition extractFunctionFromVariable (d : VariableDeclaration) : option FunctionInfo :=
  match vd_initializer d with
  | Some (ArrowFunction s) | Some (FunctionExpression s) =>
      Some {| name := vd_name d;
              parameters := extractParameters s;
              returnType := extractReturnType s;
              startLine := start_line (vd_range d) + 1;
              endLine := end_line (vd_range d) + 1;
              fullText := text (vd_range d);
              isAsync := has_async s;
              isClass := None;
              className := None |}
  | _ => None
  end.

Definition extractFunctionBody (functionInfo : FunctionInfo) : string :=
  fullText functionInfo.

(** [node.members.find(m => ts.isConstructorDeclaration(m))] *)
Fixpoint find_constructor (members : list ClassElement)
  : option (list ParameterDeclaration) :=
  match members with
  | [] => None
  | Constructor ps :: _ => Some ps
  | _ :: rest => find_constructor rest
  end.

Definition extractClassInfo (members : list ClassElement) (cls : string) (r : Range)
  : option FunctionInfo :=
  let parameters :=
    match find_constructor members with
    | Some ps => map parameterInfo ps
    | None => []
    end in
  Some {| name := cls;
          parameters := parameters;
          returnType := cls;
          startLine := start_line r + 1;
          endLine := end_line r + 1;
          fullText := text r;
          isAsync := false;
          isClass := Some true;
          className := None |}.

Definition extractMethodInfo (method_name : string) (s : Signature) (r : Range)
    (cls : string) : option FunctionInfo :=
  Some {| name := cls +:+ "." +:+ method_name;
          parameters := map parameterInfo (sig_parameters s);
          returnType := or_any (sig_type s);
          startLine := start_line r + 1;
          endLine := end_line r + 1;
          fullText := text r;
          isAsync := has_async s;
          isClass := None;
          className := Some cls |}.

(** *** The traversal

    [functions] is the array that [visit] pushes to; it is threaded through
    the traversal. *)

Definition push_opt (functions : list FunctionInfo) (f : option FunctionInfo)
  : list FunctionInfo :=
  match f with
  | Some info => functions ++ [info]
  | None => functions
  end.

(** The callback of [node.declarationList.declarations.forEach]. *)
Definition visit_declaration (functions : list FunctionInfo) (d : VariableDeclaration)
  : list FunctionInfo :=
  match vd_initializer d with
  | Some (ArrowFunction _) | Some (FunctionExpression _) =>
      push_opt functions (extractFunctionFromVariable d)
  | _ => functions
  end.

(** The callback of [node.members.forEach]. *)
Definition visit_member (cls : string) (functions : list FunctionInfo) (m : ClassElement)
  : list FunctionInfo :=
  match m with
  | MethodDeclaration mname s r => push_opt functions (extractMethodInfo mname s r cls)
  | _ => functions
  end.

(** The [if / else if / else if] of [visit], before it descends. *)
Definition visit_node (data : NodeData) (functions : list FunctionInfo)
  : list FunctionInfo :=
  match data with
  | FunctionDeclaration (Some n) s r =>
      functions ++ [extractFunctionInfo (Some n) s r]
  | VariableStatement declarations =>
      foldl visit_declaration functions declarations
  | ClassDeclaration (Some cls) r members =>
      foldl (visit_member cls) (push_opt functions (extractClassInfo members cls r)) members
  | _ => functions
  end.

Fixpoint visit (node : Node) (functions : list FunctionInfo) : list FunctionInfo :=
  match node with
  | mkNode data children =>
      (fix forEachChild (cs : list Node) (acc : list FunctionInfo) :=
         match cs with
         | [] => acc
         | c :: cs' => forEachChild cs' (visit c acc)
         end) children (visit_node data functions)
  end.

Definition forEachChild_visit (cs : list Node) (acc : list FunctionInfo)
  : list FunctionInfo :=
  foldl (fun a c => visit c a) acc cs.

Section ParseFunctions.

(** [ts.createSourceFile(fileName, sourceCode, ts.ScriptTarget.Latest, true)] *)
Variable ts_createSourceFile : string -> string -> Result SourceFile.

Definition parseFunctions (sourceCode : string) (fileName : string)
  : Result (list FunctionInfo) :=
  match ts_createSourceFile fileName sourceCode with
  | Normal sourceFile => Normal (visit (root sourceFile) [])
  | Throw e => Throw e
  | Hang => Hang
  end.

End ParseFunctions.

End CodeParser.

(** ** The execution engine: [CodeExecutor]

    Modelling notes.  Inside the invocation snippet the globals [console],
    [Number], [isNaN] and [JSON] are bindings of the context, and the
    argument texts that the snippet evaluates can rebind them: in the
    argument callback, and for [console.log] everywhere in the snippet,
    they are operations of the host on the context.  In the follow-up step
    and in the choice of the call shape, [Number], [isNaN], [JSON.parse]
    and [Array.isArray] are taken as the standard ones, and so are the
    string and array methods everywhere.  The names that [executeFunction]
    adds to the sandbox ([_argsData], [_testArgsStr], [_functionName],
    [_transpileTS]) are not rebound by the evaluated source.  A call is
    followed from its start to its end: [await] is the settlement of the
    awaited value, and nothing else runs in between. *)

Module CodeExecutor.

Import JsString.

Record ExecutionResult := {
  success : bool;
  result : option Value;
  error : option Value;          (* error.message || String(error) *)
  executionTime : option Z
}.

(** One element of [argsWithTypes]. *)
Record ArgWithType := { arg_value : string; arg_type : string }.

(** *** The sandbox object *)

Inductive SandboxEntry :=
| HostObject (global : string)   (* the extension host's own object of that name, by reference *)
| ConsoleProxy                   (* the object literal forwarding log/error/warn/info *)
| Constant (v : Value).

(** [createSandbox()]: a new object on every call, whose properties refer
    to the same host objects every time. *)
Definition createSandbox : gmap string SandboxEntry :=
  list_to_map
    [ ("console", ConsoleProxy);
      ("setTimeout", HostObject "setTimeout");
      ("setInterval", HostObject "setInterval");
      ("clearTimeout", HostObject "clearTimeout");
      ("clearInterval", HostObject "clearInterval");
      ("Promise", HostObject "Promise");
      ("Array", HostObject "Array");
      ("Object", HostObject "Object");
      ("String", HostObject "String");
      ("Number", HostObject "Number");
      ("Boolean", HostObject "Boolean");
      ("Date", HostObject "Date");
      ("Math", HostObject "Math");
      ("JSON", HostObject "JSON");
      ("RegExp", HostObject "RegExp");
      ("Set", HostObject "Set");
      ("Map", HostObject "Map");
      ("WeakMap", HostObject "WeakMap");
      ("WeakSet", HostObject "WeakSet");
      ("Symbol", HostObject "Symbol");
      ("Error", HostObject "Error");
      ("TypeError", HostObject "TypeError");
      ("RangeError", HostObject "RangeError");
      ("SyntaxError", HostObject "SyntaxError");
      ("ReferenceError", HostObject "ReferenceError");
      ("parseInt", HostObject "parseInt");
      ("parseFloat", HostObject "parseFloat");
      ("isNaN", HostObject "isNaN");
      ("isFinite", HostObject "isFinite");
      ("encodeURI", HostObject "encodeURI");
      ("decodeURI", HostObject "decodeURI");
      ("encodeURIComponent", HostObject "encodeURIComponent");
      ("decodeURIComponent", HostObject "decodeURIComponent");
      ("undefined", Constant VUndefined);
      ("null", Constant VNull);
      ("NaN", Constant (VNum nan));
      ("Infinity", Constant (VNum infinity)) ].

(** The sandbox after [executeFunction] has added its own entries.
    [_transpileTS] is the closure defined below. *)
Record Sandbox := {
  globals : gmap string SandboxEntry;
  _argsData : list string;
  _testArgsStr : string;
  _functionName : string
}.

(** The regular expressions that [parseArgumentValue] searches with. *)
Inductive RegExp :=
| re_tempArray          (* /_tempArray = ([^;]+);/ *)
| re_var_tempFunc       (* /var _tempFunc = ([^;]+);/ *)
| re_const_tempFunc     (* /const _tempFunc = ([^;]+);/ *)
| re_tempFunc_line      (* /_tempFunc = ([^\n;]+)/ *)
| re_arrow.             (* a parenthesised parameter list, [=>], and the rest of the line *)

(** *** What the engine takes from outside the repository *)

Record Host := {
  (** a [vm] context: the global bindings of one evaluation context *)
  Ctx : Type;
  (** the objects of the extension host's realm that contexts reach
      through sandbox entries ([Math], [JSON], [Array], ...) *)
  Heap : Type;
  (** [ts.transpileModule(code, ...).outputText] *)
  ts_transpileModule : string -> Result string;
  (** [new vm.Script(jsCode)]: throws a SyntaxError on text that is not a script *)
  vm_Script : string -> Result unit;
  (** [new vm.Script(`...`)] for the invocation snippet, in which
      [functionName] and [isAsync] are spliced as program text *)
  vm_Script_invocation : string -> bool -> Result unit;
  (** [vm.createContext(sandbox)] *)
  vm_createContext : Sandbox -> Ctx;
  (** [script.runInContext(context)] for the definition script *)
  vm_runInContext : string -> M (Ctx * Heap) unit;
  (** [console.log(...)] inside the invocation snippet: whatever the
      context binds to [console] at that moment *)
  console_log : list Value -> M (Ctx * Heap) unit;
  (** direct [eval(text)] inside the invocation snippet *)
  sandbox_eval : string -> M (Ctx * Heap) Value;
  (** [JSON.parse(text)], [Number(text)] and [isNaN(v)] inside the argument
      callback of the snippet: whatever the context binds to those names *)
  sandbox_JSON_parse : string -> M (Ctx * Heap) Value;
  sandbox_Number : string -> M (Ctx * Heap) Value;
  sandbox_isNaN : Value -> M (Ctx * Heap) Value;
  (** the spliced expression [functionName] *)
  target_value : string -> M (Ctx * Heap) Value;
  (** the spliced expression [functionName.toString()] *)
  target_toString : string -> M (Ctx * Heap) string;
  (** the spliced call [functionName(...args)] *)
  call_target : string -> list Value -> M (Ctx * Heap) Value;
  (** [result(...args)] on a value that is a function *)
  call_value : Value -> list Value -> M (Ctx * Heap) Value;
  (** the standard [JSON.parse(text)] *)
  JSON_parse : string -> Result Value;
  (** the standard [Number(text)] *)
  Number_ : string -> float;
  (** [JSON.parse(JSON.stringify(v))] *)
  JSON_roundtrip : Value -> Result Value;
  (** [String(v)] *)
  String_ : Value -> Result string;
  (** [v.toString()] on a function [v]: the method may be the function's own *)
  Function_toString : Value -> Result Value;
  (** [funcStr.length > 150 ? funcStr.substring(0, 150) + '...' : funcStr]
      when [funcStr] is not a string *)
  preview_of_other : Value -> Result Value;
  (** [v.key] on a value other than [null] and [undefined]: the property
      may be an accessor *)
  object_get : Value -> string -> Result Value;
  (** [eval(text)] in the extension host itself ([parseArgumentValue]) *)
  host_eval : string -> Result Value;
  (** [new Date(text).getTime()] *)
  Date_getTime : string -> float;
  (** [new Function(params, body)] *)
  new_Function : string -> string -> Result Value;
  (** [text.match(re)]: the first two capture groups of the first match *)
  String_match : RegExp -> string -> option (string * string)
}.

Definition dquote : ascii := ascii_of_nat 34.
Definition squote : ascii := ascii_of_nat 39.
Definition char (c : ascii) : string := String c EmptyString.

(** ["..."] or ['...']: the test of the quoted-text heuristic. *)
Definition quoted (s : string) : bool :=
  (startsWith s (char dquote) && endsWith s (char dquote)) ||
  (startsWith s (char squote) && endsWith s (char squote)).

(** *** Cleaning the compiler output: the [replace] chain and [trim]

    The snippet is the text of a template literal, and a template literal
    drops the backslash in front of [s], of a dot and of a parenthesis.
    The regular expressions that run are therefore the ones quoted below:
    the letter s where the source file has the class of white space, a dot
    that stands for any character, and a group where the source file has
    two literal parentheses. *)

Definition use_strict : string := String dquote ("use strict" +:+ char dquote).

(** [.replace(/^"use strict";?s*/g, '')] *)
Definition replace_use_strict (s : string) : string :=
  match strip_prefix use_strict s with
  | Some r => skip_s (drop_optional ";" r)
  | None => s
  end.

(** [.replace(/^Object.defineProperty([^)]+);?s*/g, '')]: the group takes
    everything up to the first closing parenthesis, which is left in
    place, so that nothing remains for the semicolon. *)
Definition replace_defineProperty (s : string) : string :=
  match strip_prefix "Object" s with
  | Some r0 =>
      match any_char r0 with
      | Some r1 =>
          match strip_prefix "defineProperty" r1 with
          | Some r2 =>
              let '(inside, rest) := span_not ")" r2 in
              if isEmpty inside then s else rest
          | None => s
          end
      | None => s
      end
  | None => s
  end.

(** [.replace(/^exports.__esModule[^;]+;?s*/g, '')] *)
Definition replace_esModule (s : string) : string :=
  match strip_prefix "exports" s with
  | Some r0 =>
      match any_char r0 with
      | Some r1 =>
          match strip_prefix "__esModule" r1 with
          | Some r2 =>
              let '(inside, rest) := span_not ";" r2 in
              if isEmpty inside then s else skip_s (drop_optional ";" rest)
          | None => s
          end
      | None => s
      end
  | None => s
  end.

(** [.replace(/;s*$/g, '')]: a semicolon is removed when only letters s
    stand between it and the end of the text. *)
Fixpoint replace_trailing_semicolon (s : string) : string :=
  match s with
  | EmptyString => EmptyString
  | String c s' =>
      if Ascii.eqb c ";" && all_s s' then EmptyString
      else String c (replace_trailing_semicolon s')
  end.

Definition clean (transpiled : string) : string :=
  trim (replace_trailing_semicolon
          (replace_esModule (replace_defineProperty (replace_use_strict transpiled)))).

(** [trimmed.includes(':') || trimmed.includes('item is')] *)
Definition has_annotation (trimmed : string) : bool :=
  includes trimmed ":" || includes trimmed "item is".

(** [funcStr.length > 150 ? funcStr.substring(0, 150) + '...' : funcStr] *)
Definition source_preview (funcStr : string) : string :=
  if (150 <? length16 funcStr)%nat
  then substring_0 150 funcStr +:+ "..."
  else funcStr.

Definition function_summary (_source : Value) : Value :=
  VObject
    [ ("_type", VStr "function");
      ("_hint", VStr "返回了一个函数（高阶函数）");
      ("_source", _source);
      ("_suggestion",
        VStr "提示：这是一个高阶函数，返回了另一个函数。如需测试返回的函数，请创建一个包装函数。") ].

(** [typeof v] *)
Definition typeof_ (v : Value) : string :=
  match v with
  | VUndefined => "undefined"
  | VBool _ => "boolean"
  | VNum _ => "number"
  | VStr _ => "string"
  | VFunc _ _ => "function"
  | _ => "object"
  end.

(** The decimal text of an array index. *)
Definition index_text (index : nat) : string :=
  NilZero.string_of_uint (Nat.to_uint index).

Section Engine.

Variable H : Host.

Definition St : Type := Ctx H * Heap H.

(** [v.message]: reading a property of [null] or [undefined] throws; on
    any other value the read is the host's. *)
Definition get_message (v : Value) : Result Value :=
  match v with
  | VUndefined =>
      Throw (TypeError "Cannot read properties of undefined (reading 'message')")
  | VNull =>
      Throw (TypeError "Cannot read properties of null (reading 'message')")
  | _ => object_get H v "message"
  end.

(** [transpileTypeScript(code)] *)
Definition transpileTypeScript (code : string) : Result string :=
  ts_transpileModule H code.

(** [sandbox._transpileTS]: the original text when the compiler throws. *)
Definition _transpileTS (code : string) : Result string :=
  match transpileTypeScript code with
  | Throw _ => Normal code
  | r => r
  end.

(** **** Materialization of one argument (the callback of [_argsData.map]) *)

(** ['[沙箱调试] 参数' + index + what] *)
Definition debug_label (index : nat) (what : string) : Value :=
  VStr ("[沙箱调试] 参数" +:+ index_text index +:+ what).

(** The tail of the callback, after [eval] and [JSON.parse] gave nothing,
    with the standard [Number] and [isNaN]: literal keywords, number,
    quoted text, text. *)
Definition parse_plain (trimmed : string) : Value :=
  if String.eqb trimmed "true" then VBool true
  else if String.eqb trimmed "false" then VBool false
  else if String.eqb trimmed "null" then VNull
  else if String.eqb trimmed "undefined" then VUndefined
  else if String.eqb trimmed "NaN" then VNum nan
  else if String.eqb trimmed "Infinity" then VNum infinity
  else
    let num := Number_ H trimmed in
    if negb (isNaN num) then VNum num
    else if quoted trimmed then VStr (slice_1_m1 trimmed)
    else VStr trimmed.

(** The tail of the callback as the snippet runs it: the literal keywords,
    then [Number] and [isNaN] as the context binds them, then quoted text,
    then the text, with its log line. *)
Definition parse_tail (index : nat) (trimmed : string) : M St Value :=
  if String.eqb trimmed "true" then ret (VBool true)
  else if String.eqb trimmed "false" then ret (VBool false)
  else if String.eqb trimmed "null" then ret VNull
  else if String.eqb trimmed "undefined" then ret VUndefined
  else if String.eqb trimmed "NaN" then ret (VNum nan)
  else if String.eqb trimmed "Infinity" then ret (VNum infinity)
  else
    do num <- sandbox_Number H trimmed;
    do nan <- sandbox_isNaN H num;
    if negb (truthy nan) then ret num
    else if quoted trimmed then ret (VStr (slice_1_m1 trimmed))
    else
      run console_log H [debug_label index " -> 默认返回字符串"];
      ret (VStr trimmed).

(** [try { return eval('(' + codeToEval + ')') } catch (evalError) { }] *)
Definition try_eval (codeToEval : string) : M St (option Value) :=
  try_catch
    (do r <- sandbox_eval H ("(" +:+ codeToEval +:+ ")"); ret (Some r))
    (fun _ => ret None).

(** [try { return JSON.parse(trimmed) } catch (jsonError) { }], with the
    [JSON] of the context and with the standard one. *)
Definition try_sandbox_JSON_parse (trimmed : string) : M St (option Value) :=
  try_catch
    (do r <- sandbox_JSON_parse H trimmed; ret (Some r))
    (fun _ => ret None).

Definition try_JSON_parse (trimmed : string) : M St (option Value) :=
  try_catch
    (do r <- lift (JSON_parse H trimmed); ret (Some r))
    (fun _ => ret None).

Definition parseArg (index : nat) (value : string) : M St Value :=
  let trimmed := trim value in
  run console_log H [debug_label index " 原始值:"; VStr trimmed];
  if isEmpty trimmed then ret VUndefined
  else
    do codeToEval <-
      (if has_annotation trimmed
       then
         do transpiled <- lift (_transpileTS trimmed);
         run console_log H [debug_label index " 转译后:"; VStr transpiled];
         let codeToEval := clean transpiled in
         run console_log H [debug_label index " 清理后:"; VStr codeToEval];
         ret codeToEval
       else ret trimmed);
    do evaluated <- try_eval codeToEval;
    match evaluated with
    | Some r => ret r
    | None =>
        do parsed <-
          (if startsWith trimmed "{" || startsWith trimmed "["
           then try_sandbox_JSON_parse trimmed
           else ret None);
        match parsed with
        | Some r => ret r
        | None => parse_tail index trimmed
        end
    end.

(** **** Materialization of one follow-up argument
    (the callback of [_testArgsStr.split(',').map]) *)

Definition parseTestArg (arg : string) : M St Value :=
  let trimmed := trim arg in
  let num := Number_ H trimmed in
  if negb (isNaN num) then ret (VNum num)
  else
    do parsed <- try_JSON_parse trimmed;
    match parsed with
    | Some r => ret r
    | None => ret (VStr trimmed)
    end.

(** **** The invocation snippet *)

Definition spread (v : Value) : list Value :=
  match v with VArr items => items | _ => [] end.

(** [isAsync ? await f(...args) : f(...args)] *)
Definition maybe_await (isAsync : bool) (call : M St Value) : M St Value :=
  do r <- call;
  if isAsync then lift (await r) else ret r.

(** Step 2 of the snippet. *)
Definition invokeTarget (functionName : string) (isAsync : bool)
    (funcStr : string) (parsedArgs : list Value) : M St Value :=
  let hasRestParams := includes funcStr "..." in
  if hasRestParams && (length parsedArgs =? 1)%nat
     && Array_isArray (nth 0 parsedArgs VUndefined)
  then
    run console_log H [VStr "[沙箱执行] 检测到剩余参数，展开数组传递"];
    maybe_await isAsync (call_target H functionName (spread (nth 0 parsedArgs VUndefined)))
  else maybe_await isAsync (call_target H functionName parsedArgs).

(** Step 3 of the snippet. *)
Definition followUp (isAsync : bool) (testArgsStr : string) (result : Value)
  : M St Value :=
  if typeof_function result && negb (isEmpty testArgsStr)
     && negb (isEmpty (trim testArgsStr))
  then
    run console_log H [VStr "[沙箱执行] 检测到返回函数，测试参数:"; VStr testArgsStr];
    do testArgs <- mapM parseTestArg (split "," testArgsStr);
    run console_log H [VStr "[沙箱执行] 测试参数解析:"; VArr testArgs];
    maybe_await isAsync (call_value H result testArgs)
  else ret result.

(** Steps 1 and 2 of the body of the [async function] of the snippet, with
    the three log lines between them; the last two evaluate the spliced
    name and its [toString()]. *)
Definition primaryInvocation (sandbox : Sandbox) (isAsync : bool) : M St Value :=
  do parsedArgs <- mapMi parseArg (_argsData sandbox);
  run console_log H [VStr "[沙箱执行] 解析后的参数:"; VArr parsedArgs];
  do target <- target_value H (_functionName sandbox);
  run console_log H [VStr "[沙箱执行] 目标函数:"; target];
  do shown <- target_toString H (_functionName sandbox);
  run console_log H [VStr "[沙箱执行] 函数源码:"; VStr shown];
  do funcStr <- target_toString H (_functionName sandbox);
  invokeTarget (_functionName sandbox) isAsync funcStr parsedArgs.

(** The whole body. *)
Definition invocationSnippet (sandbox : Sandbox) (isAsync : bool) : M St Value :=
  do result <- primaryInvocation sandbox isAsync;
  run console_log H [VStr "[沙箱执行] 函数返回结果类型:"; VStr (typeof_ result)];
  followUp isAsync (_testArgsStr sandbox) result.

(** **** [serializeResult] *)

(** The [_source] field, from what [toString()] returned. *)
Definition source_of (funcStr : Value) : Result Value :=
  match funcStr with
  | VStr text => Normal (VStr (source_preview text))
  | _ => preview_of_other H funcStr
  end.

Definition serializeResult (result : Value) : Result Value :=
  match result with
  | VUndefined => Normal (VStr "undefined")
  | VNull => Normal (VStr "null")
  | VFunc _ _ =>
      let! funcStr := Function_toString H result in
      let! _source := source_of funcStr in
      Normal (function_summary _source)
  | VError _ _ _ =>
      let! message := object_get H result "message" in
      let! stack := object_get H result "stack" in
      Normal (VObject [("type", VStr "Error"); ("message", message);
                       ("stack", stack)])
  | _ =>
      if typeof_object result then
        match JSON_roundtrip H result with
        | Throw _ =>
            match String_ H result with
            | Normal s => Normal (VStr s)
            | Throw e => Throw e
            | Hang => Hang
            end
        | r => r
        end
      else Normal result
  end.

(** **** [executeFunction] *)

(** Run a computation of one context and drop the context. *)
Definition in_context {A} (context : Ctx H) (m : M St A) : M (Heap H) A :=
  fun heap => let '(r, (_, heap')) := m (context, heap) in (r, heap').

(** [error.message || String(error)] *)
Definition error_text (error : Value) : Result Value :=
  match get_message error with
  | Normal message =>
      if truthy message then Normal message
      else match String_ H error with
           | Normal s => Normal (VStr s)
           | Throw e => Throw e
           | Hang => Hang
           end
  | r => r
  end.

(** [startTime] and [endTime] are the two readings of [Date.now()]: on
    entry, and when the outcome record is built. *)
Definition executeFunction (functionCode functionName : string)
    (argsWithTypes : list ArgWithType) (isAsync : bool)
    (testArgs : option string) (startTime endTime : Z)
  : M (Heap H) ExecutionResult :=
  try_catch
    (do jsCode <- lift (transpileTypeScript functionCode);
     let sandbox :=
       {| globals := createSandbox;
          _argsData := map arg_value argsWithTypes;
          _testArgsStr := default "" testArgs;
          _functionName := functionName |} in
     run lift (vm_Script H jsCode);
     let context := vm_createContext H sandbox in
     do result <-
       in_context context
         (run vm_runInContext H jsCode;
          run lift (vm_Script_invocation H functionName isAsync);
          do promised <- invocationSnippet sandbox isAsync;
          lift (await promised));
     do serialized <- lift (serializeResult result);
     ret {| success := true;
            result := Some serialized;
            error := None;
            executionTime := Some (endTime - startTime)%Z |})
    (fun error =>
       do text <- lift (error_text error);
       ret {| success := false;
              result := None;
              error := Some text;
              executionTime := Some (endTime - startTime)%Z |}).

(** **** [parseArgumentValue]: the coercion used outside the sandbox *)

(** Step 1: an array literal that contains functions.  [Some r] is
    [return r]; [None] is falling out of the [if]. *)
Definition parseFunctionArray (trimmedValue : string) : Result (option Value) :=
  if startsWith trimmedValue "["
     && (includes trimmedValue "=>" || includes trimmedValue "function")
  then
    rcatch
      (let! jsCode :=
         (if has_annotation trimmedValue
          then
            let wrappedCode := "const _tempArray = " +:+ trimmedValue +:+ ";" in
            let! transpiled := transpileTypeScript wrappedCode in
            match String_match H re_tempArray transpiled with
            | Some (group1, _) => Normal group1
            | None => Normal trimmedValue
            end
          else Normal trimmedValue) in
       let! r := host_eval H jsCode in
       Normal (Some r))
      (fun _ => Normal None)
  else Normal None.

(** The text handed to [eval] in step 7. *)
Definition functionCodeOf (trimmedValue : string) : Result string :=
  if has_annotation trimmedValue
  then
    rcatch
      (let wrappedCode := "const _tempFunc = " +:+ trimmedValue +:+ ";" in
       let! transpiled := transpileTypeScript wrappedCode in
       match String_match H re_var_tempFunc transpiled with
       | Some (group1, _) => Normal group1
       | None =>
           match String_match H re_const_tempFunc transpiled with
           | Some (group1, _) => Normal group1
           | None =>
               match String_match H re_tempFunc_line transpiled with
               | Some (group1, _) => Normal group1
               | None => Normal trimmedValue
               end
           end
       end)
      (fun _ => Normal trimmedValue)
  else Normal trimmedValue.

(** The three attempts of step 7; [VUndefined] is [func] left unassigned.
    Each handler reads [.message] of what it caught, for its log line. *)
Definition evalFunction (jsCode : string) : Result Value :=
  rcatch (host_eval H ("(" +:+ jsCode +:+ ")"))
    (fun e1 =>
       let! _m1 := get_message e1 in
       rcatch (host_eval H jsCode)
         (fun e2 =>
            let! _m2 := get_message e2 in
            match String_match H re_arrow jsCode with
            | Some (params, body) => new_Function H params ("return " +:+ body)
            | None => Normal VUndefined
            end)).

(** Step 7, entered when the declared type is a function type. *)
Definition parseFunctionValue (trimmedValue : string) : Result Value :=
  if includes trimmedValue "=>" || startsWith trimmedValue "function"
  then
    rcatch
      (let! jsCode := functionCodeOf trimmedValue in
       let! func := evalFunction jsCode in
       if truthy func && typeof_function func then Normal func
       else Normal VNull)
      (fun _ => Normal VNull)
  else Normal VNull.

Definition is_function_type (type : string) : bool :=
  includes type "=>" || startsWith type "(" || includes type "item is".

Definition is_date_type (type : string) : bool :=
  String.eqb type "Date" || includes type "Date".

Definition parseArgumentValue (value type : string) : Result Value :=
  if isEmpty value || isEmpty (trim value) then Normal VUndefined
  else
    let trimmedValue := trim value in
    rcatch
      (let! functions := parseFunctionArray trimmedValue in
       match functions with
       | Some r => Normal r
       | None =>
           if startsWith trimmedValue "{" || startsWith trimmedValue "["
           then JSON_parse H trimmedValue
           else if String.eqb trimmedValue "true" then Normal (VBool true)
           else if String.eqb trimmedValue "false" then Normal (VBool false)
           else if String.eqb trimmedValue "null" then Normal VNull
           else if String.eqb trimmedValue "undefined" then Normal VUndefined
           else if String.eqb trimmedValue "NaN" then Normal (VNum nan)
           else if String.eqb trimmedValue "Infinity" then Normal (VNum infinity)
           else if String.eqb trimmedValue "-Infinity" then Normal (VNum neg_infinity)
           else if is_date_type type
                   && negb (isNaN (Date_getTime H trimmedValue))
           then Normal (VDate (Date_getTime H trimmedValue))
           else if startsWith trimmedValue "new "
           then rcatch (host_eval H trimmedValue) (fun _ => Normal VNull)
           else if is_function_type type
           then parseFunctionValue trimmedValue
           else if (String.eqb (toLowerCase type) "number"
                    || negb (isNaN (Number_ H trimmedValue)))
                   && negb (isNaN (Number_ H trimmedValue))
           then Normal (VNum (Number_ H trimmedValue))
           else if quoted trimmedValue then Normal (VStr (slice_1_m1 trimmedValue))
           else Normal (VStr trimmedValue)
       end)
      (fun _ => Normal (VStr trimmedValue)).

End Engine.

End CodeExecutor.

(** * Reference definitions

    The statements below compare the embedding with definitions written
    after the wording of the specification, and evaluate it on concrete
    programs.  Both kinds of definitions are collected here. *)

(** ** Descriptors in the order of the traversal *)

Module ExtractorSpec.

Import CodeParser.

Definition is_function_binding (d : VariableDeclaration) : bool :=
  match vd_initializer d with
  | Some (ArrowFunction _) | Some (FunctionExpression _) => true
  | _ => false
  end.

Definition method_name_of (m : ClassElement) : option string :=
  match m with
  | MethodDeclaration n _ _ => Some n
  | _ => None
  end.

(** The names of the methods of a class, in the order of its members. *)
Definition method_names (members : list ClassElement) : list string :=
  omap method_name_of members.

Definition method_descriptor (cls : string) (m : ClassElement) : option FunctionInfo :=
  match m with
  | MethodDeclaration n s r => extractMethodInfo n s r cls
  | _ => None
  end.

(** What a class contributes: its constructor descriptor, then one
    descriptor per method. *)
Definition constructor_descriptor (cls : string) (r : Range)
    (members : list ClassElement) : FunctionInfo :=
  {| name := cls;
     parameters := match find_constructor members with
                   | Some ps => map parameterInfo ps
                   | None => []
                   end;
     returnType := cls;
     startLine := start_line r + 1;
     endLine := end_line r + 1;
     fullText := text r;
     isAsync := false;
     isClass := Some true;
     className := None |}.

Definition method_descriptors (cls : string) (members : list ClassElement)
  : list FunctionInfo :=
  omap (method_descriptor cls) members.

(** The descriptors of the declarations carried by one node. *)
Definition declared_here (data : NodeData) : list FunctionInfo :=
  match data with
  | FunctionDeclaration (Some n) s r => [extractFunctionInfo (Some n) s r]
  | VariableStatement declarations => omap extractFunctionFromVariable declarations
  | ClassDeclaration (Some cls) r members =>
      constructor_descriptor cls r members :: method_descriptors cls members
  | _ => []
  end.

(** The order of the traversal: the descriptors of a node -- all the
    function-valued bindings of one statement, or a class and all its
    methods -- come before those of the declarations nested inside it, and
    these before the descriptors of the nodes that follow it.  It is the
    order of the source text except where a declaration is nested inside a
    binding or a method that is followed by another one. *)
Fixpoint traversal_order (node : Node) : list FunctionInfo :=
  match node with
  | mkNode data children => declared_here data ++ flat_map traversal_order children
  end.

(** The number of recognised declarations of a tree without classes: named
    function declarations and function-valued variable bindings, at any
    depth. *)
Definition count_here (data : NodeData) : nat :=
  match data with
  | FunctionDeclaration (Some _) _ _ => 1
  | VariableStatement declarations => length (filter is_function_binding declarations)
  | _ => 0
  end.

Fixpoint count_declarations (node : Node) : nat :=
  match node with
  | mkNode data children =>
      count_here data + list_sum (map count_declarations children)
  end.

Definition is_class (data : NodeData) : bool :=
  match data with ClassDeclaration _ _ _ => true | _ => false end.

Fixpoint no_class (node : Node) : bool :=
  match node with
  | mkNode data children => negb (is_class data) && forallb no_class children
  end.

(** The number of class declarations with a name, at any depth. *)
Definition class_here (data : NodeData) : nat :=
  match data with
  | ClassDeclaration (Some _) _ _ => 1
  | _ => 0
  end.

Fixpoint count_classes (node : Node) : nat :=
  match node with
  | mkNode data children => class_here data + list_sum (map count_classes children)
  end.

(** A constructor-kind descriptor, and a method-kind one. *)
Definition constructor_kind (f : FunctionInfo) : bool :=
  match isClass f with Some true => true | _ => false end.

Definition method_kind (f : FunctionInfo) : bool :=
  match className f with Some _ => true | None => false end.

Definition is_constructor (m : ClassElement) : bool :=
  match m with Constructor _ => true | _ => false end.

(** What the specification says of one parameter: its name, its declared
    type or [any], and whether it is optional. *)
Definition describes (p : ParameterDeclaration) (info : ParameterInfo) : Prop :=
  param_name info = pd_name p
  /\ param_type info = default "any" (pd_type p)
  /\ param_optional info = pd_questionToken p.

(** A list of descriptors that does not start with a method. *)
Definition starts_plain (l : list FunctionInfo) : Prop :=
  match l with
  | [] => True
  | f :: _ => method_kind f = false
  end.

(** A top-level function declaration: a named function declaration among
    the children of the root. *)
Definition is_named_function (node : Node) : bool :=
  match node with
  | mkNode (FunctionDeclaration (Some _) _ _) _ => true
  | _ => false
  end.

Definition top_level_functions (root : Node) : list Node :=
  match root with
  | mkNode _ children => filter (fun n => is_named_function n = true) children
  end.

Definition descriptor_of_function (node : Node) : option FunctionInfo :=
  match node with
  | mkNode (FunctionDeclaration (Some n) s r) _ => Some (extractFunctionInfo (Some n) s r)
  | _ => None
  end.

(** [occurs n t]: the node [n] is [t] or lies below it. *)
Inductive occurs (n : Node) : Node -> Prop :=
| occurs_here : occurs n n
| occurs_below data children c :
    In c children -> occurs n c -> occurs n (mkNode data children).

Definition has_syntax_errors (sf : SourceFile) : Prop :=
  parseDiagnostics sf <> [].

(** *** Concrete trees *)

Definition no_signature : Signature :=
  {| sig_parameters := []; sig_type := None; sig_modifiers := [] |}.

Definition leaf : Node := mkNode OtherNode [].

(** The tree of
<<
function outer() {
function inner() {}
}
>>
    a source file with one statement; each function declaration has its
    name and its body block as children. *)
Definition nested_source : string :=
  "function outer() {" +:+ String (ascii_of_nat 10)
    ("  function inner() {}" +:+ String (ascii_of_nat 10) "}").

Definition inner_declaration : Node :=
  mkNode (FunctionDeclaration (Some "inner") no_signature
            {| start_line := 1; end_line := 1; text := "function inner() {}" |})
         [leaf; mkNode OtherNode []].

Definition outer_declaration : Node :=
  mkNode (FunctionDeclaration (Some "outer") no_signature
            {| start_line := 0; end_line := 2; text := nested_source |})
         [leaf; mkNode OtherNode [inner_declaration]].

Definition nested_tree : SourceFile :=
  {| root := mkNode OtherNode [outer_declaration; leaf];
     parseDiagnostics := [] |}.

(** The tree of
<<
const a = function() {
function inner() {}
}, b = () => 1
>>
    one statement with two function-valued bindings, the first of which
    holds a function declaration. *)
Definition bindings_source : string :=
  let nl := String (ascii_of_nat 10) EmptyString in
  "const a = function() {" +:+ nl +:+ "  function inner() {}" +:+ nl +:+ "}, b = () => 1".

Definition binding_a : VariableDeclaration :=
  {| vd_name := "a";
     vd_range := {| start_line := 0; end_line := 2;
                    text := "a = function() {" +:+ String (ascii_of_nat 10)
                              ("  function inner() {}" +:+ String (ascii_of_nat 10) "}") |};
     vd_initializer := Some (FunctionExpression no_signature) |}.

Definition binding_b : VariableDeclaration :=
  {| vd_name := "b";
     vd_range := {| start_line := 2; end_line := 2; text := "b = () => 1" |};
     vd_initializer := Some (ArrowFunction no_signature) |}.

Definition bindings_statement : Node :=
  mkNode (VariableStatement [binding_a; binding_b])
         [mkNode OtherNode
            [mkNode OtherNode [leaf; mkNode OtherNode [mkNode OtherNode [inner_declaration]]];
             mkNode OtherNode [leaf; mkNode OtherNode [leaf]]]].

Definition bindings_tree : SourceFile :=
  {| root := mkNode OtherNode [bindings_statement; leaf]; parseDiagnostics := [] |}.

(** The tree of the one-character text [")"]: the parser skips the token,
    reports it, and returns a source file without statements. *)
Definition stray_paren_tree : SourceFile :=
  {| root := mkNode OtherNode [leaf];
     parseDiagnostics := ["Declaration or statement expected."] |}.

(** The tree of
<<
class Calc {
constructor(base: number) {}
add(x: number): number { return x }
async load() {}
}
>>
*)
Definition calc_source : string :=
  let nl := String (ascii_of_nat 10) EmptyString in
  "class Calc {" +:+ nl +:+
  "  constructor(base: number) {}" +:+ nl +:+
  "  add(x: number): number { return x }" +:+ nl +:+
  "  async load() {}" +:+ nl +:+
  "}".

Definition calc_members : list ClassElement :=
  [ Constructor [ {| pd_name := "base"; pd_type := Some "number"; pd_questionToken := false |} ];
    MethodDeclaration "add"
      {| sig_parameters := [ {| pd_name := "x"; pd_type := Some "number"; pd_questionToken := false |} ];
         sig_type := Some "number"; sig_modifiers := [] |}
      {| start_line := 2; end_line := 2; text := "add(x: number): number { return x }" |};
    MethodDeclaration "load"
      {| sig_parameters := []; sig_type := None; sig_modifiers := [AsyncKeyword] |}
      {| start_line := 3; end_line := 3; text := "async load() {}" |} ].

Definition calc_class : Node :=
  mkNode (ClassDeclaration (Some "Calc")
            {| start_line := 0; end_line := 4; text := calc_source |}
            calc_members)
         [leaf; mkNode OtherNode [leaf; leaf]; mkNode OtherNode [leaf; leaf; leaf];
          mkNode OtherNode [leaf; leaf]].

Definition calc_tree : SourceFile :=
  {| root := mkNode OtherNode [calc_class; leaf]; parseDiagnostics := [] |}.

(** A parser that knows the texts above. *)
Definition sample_parser (fileName sourceCode : string) : Result SourceFile :=
  if String.eqb sourceCode nested_source then Normal nested_tree
  else if String.eqb sourceCode bindings_source then Normal bindings_tree
  else if String.eqb sourceCode ")" then Normal stray_paren_tree
  else if String.eqb sourceCode calc_source then Normal calc_tree
  else Throw (VError "Error" "Debug Failure." "").

End ExtractorSpec.

(** ** Materialization as a first-match chain *)

Module EngineSpec.

Import JsString CodeExecutor.

(** The sandbox that [executeFunction] builds. *)
Definition sandbox_of (functionName : string) (args : list ArgWithType)
    (testArgs : option string) : Sandbox :=
  {| globals := createSandbox;
     _argsData := map arg_value args;
     _testArgsStr := default "" testArgs;
     _functionName := functionName |}.

(** *** The cleaning step as the specification describes it

    The annotation is stripped by the compiler, and the compiled text is
    cleaned of what the compiler adds: the strict-mode prologue, the
    lines that mark the module, and the final semicolon with the white
    space around it.  These are the regular expressions as the source file
    writes them, with the class of white space and the literal dot and
    parentheses. *)

Definition strip_use_strict (s : string) : string :=
  match strip_prefix use_strict s with
  | Some r => skip_ws (drop_optional ";" r)
  | None => s
  end.

Definition strip_defineProperty (s : string) : string :=
  match strip_prefix "Object.defineProperty(" s with
  | Some r =>
      let '(inside, rest) := span_not ")" r in
      if isEmpty inside then s
      else match rest with
           | String _ rest' => skip_ws (drop_optional ";" rest')
           | EmptyString => s
           end
  | None => s
  end.

Definition strip_esModule (s : string) : string :=
  match strip_prefix "exports.__esModule" s with
  | Some r =>
      let '(inside, rest) := span_not ";" r in
      if isEmpty inside then s else skip_ws (drop_optional ";" rest)
  | None => s
  end.

Definition strip_trailing_semicolon (s : string) : string :=
  let t := trimEnd s in
  if endsWith t ";" then substring 0 (String.length t - 1) t else s.

Definition strip_compiler_output (transpiled : string) : string :=
  trim (strip_trailing_semicolon
          (strip_esModule (strip_defineProperty (strip_use_strict transpiled)))).

Section Chain.

Variable H : Host.

(** One heuristic: [Some v] when it applies to the trimmed text. *)
Definition Heuristic : Type := string -> M (St H) (option Value).

Fixpoint first_match (heuristics : list Heuristic) (trimmed : string)
  : M (St H) Value :=
  match heuristics with
  | [] => ret (VStr trimmed)
  | h :: rest =>
      do r <- h trimmed;
      match r with
      | Some v => ret v
      | None => first_match rest trimmed
      end
  end.

(** (b), (c): evaluate the text as an expression; when [annotated], what
    [cleaner] makes of the compiled text. *)
Definition h_expression (annotated : bool) (cleaner : string -> string)
  : Heuristic := fun trimmed =>
  do code <-
    (if annotated
     then do transpiled <- lift (_transpileTS H trimmed); ret (cleaner transpiled)
     else ret trimmed);
  try_eval H code.

(** (d): strict JSON for text opening with a brace or bracket. *)
Definition h_structured : Heuristic := fun trimmed =>
  if startsWith trimmed "{" || startsWith trimmed "["
  then try_JSON_parse H trimmed
  else ret None.

Definition keyword_value (text : string) : option Value :=
  if String.eqb text "true" then Some (VBool true)
  else if String.eqb text "false" then Some (VBool false)
  else if String.eqb text "null" then Some VNull
  else if String.eqb text "undefined" then Some VUndefined
  else if String.eqb text "NaN" then Some (VNum nan)
  else if String.eqb text "Infinity" then Some (VNum infinity)
  else None.

(** (e): the literal keywords. *)
Definition h_keyword : Heuristic := fun trimmed => ret (keyword_value trimmed).

(** (f): numeric coercion of the full text. *)
Definition h_number : Heuristic := fun trimmed =>
  let num := Number_ H trimmed in
  ret (if isNaN num then None else Some (VNum num)).

(** (g): text fully wrapped in matching quotes. *)
Definition h_quoted : Heuristic := fun trimmed =>
  ret (if quoted trimmed then Some (VStr (slice_1_m1 trimmed)) else None).

(** (a) to (h), with the test for an annotation and the cleaning of the
    compiled text left open. *)
Definition materialize_chain (annotated : string -> string -> bool)
    (cleaner : string -> string) (arg : ArgWithType) : M (St H) Value :=
  let trimmed := trim (arg_value arg) in
  if isEmpty trimmed then ret VUndefined
  else
    first_match
      [ h_expression (annotated trimmed (arg_type arg)) cleaner;
        h_structured; h_keyword; h_number; h_quoted ]
      trimmed.

(** The wording of the specification: the raw text or its declared type
    carries an annotation, and the compiled text is cleaned as described
    above. *)
Definition materialize_as_specified : ArgWithType -> M (St H) Value :=
  materialize_chain
    (fun trimmed type => has_annotation trimmed || has_annotation type)
    strip_compiler_output.

(** The test on the raw text alone. *)
Definition materialize_raw_only (cleaner : string -> string)
  : ArgWithType -> M (St H) Value :=
  materialize_chain (fun trimmed _ => has_annotation trimmed) cleaner.

(** The evaluated texts leave [console], [Number], [isNaN] and [JSON] as
    the sandbox provides them: logging returns and changes nothing, and
    the three functions are the standard ones. *)
Definition quiet_console : Prop :=
  forall args st, console_log H args st = (Normal tt, st).

Definition standard_numbers : Prop :=
  forall text st,
    sandbox_Number H text st = (Normal (VNum (Number_ H text)), st)
    /\ sandbox_isNaN H (VNum (Number_ H text)) st
       = (Normal (VBool (isNaN (Number_ H text))), st).

Definition standard_JSON : Prop :=
  forall text st, sandbox_JSON_parse H text st = (JSON_parse H text, st).

Definition standard_frame : Prop :=
  quiet_console /\ standard_numbers /\ standard_JSON.

(** The materialization of one follow-up piece: numeric coercion of the
    trimmed piece, else what [JSON.parse] makes of it, else the trimmed
    piece as text. *)
Definition materialize_piece (piece : string) : Result Value :=
  let trimmed := trim piece in
  if isNaN (Number_ H trimmed)
  then match JSON_parse H trimmed with
       | Normal v => Normal v
       | Throw _ => Normal (VStr trimmed)
       | Hang => Hang
       end
  else Normal (VNum (Number_ H trimmed)).

(** [eval] of a parenthesised literal keyword gives that literal, when it
    gives anything. *)
Definition eval_respects_literals : Prop :=
  forall text v st,
    keyword_value text = Some v ->
    match fst (sandbox_eval H ("(" +:+ text +:+ ")") st) with
    | Normal r => r = v
    | Throw _ => True
    | Hang => False
    end.

(** One request to the engine, with its two clock readings. *)
Record Request := {
  sourceText : string;
  entryName : string;
  arguments : list ArgWithType;
  req_isAsync : bool;
  followUpArguments : option string;
  startTime : Z;
  endTime : Z
}.

Definition execute (r : Request) : M (Heap H) ExecutionResult :=
  executeFunction H (sourceText r) (entryName r) (arguments r) (req_isAsync r)
    (followUpArguments r) (startTime r) (endTime r).

(** Calls made one after the other, each starting where the previous one
    left the host objects. *)
Fixpoint execute_all (requests : list Request) (heap : Heap H)
  : list (Result ExecutionResult) * Heap H :=
  match requests with
  | [] => ([], heap)
  | r :: rest =>
      let '(outcome, heap') := execute r heap in
      let '(outcomes, heap'') := execute_all rest heap' in
      (outcome :: outcomes, heap'')
  end.

End Chain.

(** The splitter that the specification describes: commas at bracket
    depth 0 only. *)
Definition opens (c : ascii) : bool :=
  Ascii.eqb c "(" || Ascii.eqb c "[" || Ascii.eqb c "{".
Definition closes (c : ascii) : bool :=
  Ascii.eqb c ")" || Ascii.eqb c "]" || Ascii.eqb c "}".

Fixpoint split_top_level (depth : nat) (s : string) : list string :=
  match s with
  | EmptyString => [EmptyString]
  | String c s' =>
      if Ascii.eqb c "," && (depth =? 0)%nat
      then EmptyString :: split_top_level depth s'
      else
        let depth' :=
          if opens c then S depth else if closes c then pred depth else depth in
        match split_top_level depth' s' with
        | p :: ps => String c p :: ps
        | [] => [String c EmptyString]
        end
  end.

Definition is_Some_value (o : option Value) : bool :=
  match o with Some _ => true | None => false end.

(** The coercion utility.  Text in brackets goes to step 1 and to the JSON
    parse; a keyword is answered with its value; text that a date type
    reads as a date is answered with the date.  Text that is none of these
    is [undecided]: it reaches the test for a constructor call. *)
Definition bracketed (t : string) : bool :=
  startsWith t "{" || startsWith t "[".

Definition function_array (t : string) : bool :=
  startsWith t "[" && (includes t "=>" || includes t "function").

Definition coerce_keyword (t : string) : option Value :=
  if String.eqb t "true" then Some (VBool true)
  else if String.eqb t "false" then Some (VBool false)
  else if String.eqb t "null" then Some VNull
  else if String.eqb t "undefined" then Some VUndefined
  else if String.eqb t "NaN" then Some (VNum nan)
  else if String.eqb t "Infinity" then Some (VNum infinity)
  else if String.eqb t "-Infinity" then Some (VNum neg_infinity)
  else None.

Definition dated (H : Host) (t type : string) : bool :=
  (String.eqb type "Date" || includes type "Date")
  && negb (isNaN (Date_getTime H t)).

Definition undecided (H : Host) (t type : string) : bool :=
  negb (isEmpty t) && negb (bracketed t)
  && negb (is_Some_value (coerce_keyword t)) && negb (dated H t type).

(** The text that step 1 hands to [eval], given the compiler's output for
    the wrapped text. *)
Definition array_code (H : Host) (t transpiled : string) : string :=
  match String_match H re_tempArray transpiled with
  | Some (group1, _) => group1
  | None => t
  end.

End EngineSpec.

(** ** A host for sample programs

    A host that knows a handful of programs, with the behaviour Node.js and
    the TypeScript compiler have on them.  It is used to evaluate the engine
    on concrete requests.  None of the sample programs rebinds a global of
    its context. *)

Module Sample.

Import JsString CodeExecutor EngineSpec.

Definition newline : string := String (ascii_of_nat 10) EmptyString.

(** *** The programs *)

Definition count_source : string :=
  "function count(list) { const c = [...list]; return c.length; }".
Definition fail_source : string := "function fail() { throw null; }".
Definition createMultiplier_source : string :=
  "function createMultiplier(factor){return x=>x*factor}".
Definition createMultiplier_js : string :=
  "function createMultiplier(factor) { return x => x * factor; }".
Definition multiplier_js : string := "x => x * factor".
Definition mark_source : string := "function mark() { Math.flag = 1; return 0; }".
Definition peek_source : string := "function peek() { return Math.flag; }".
Definition generic_identity : string := "<T>(x) => x".
Definition identity_js : string := "(x) => x".
Definition typed_double : string := "(x: number) => x * 2".
Definition double_js : string := "(x) => x * 2".
Definition twice_source : string := "let f = 1; let f = 2;".
Definition twice_js : string :=
  "let f = 1;" +:+ newline +:+ "let f = 2;" +:+ newline.

(** *** Numbers *)

(** The double nearest to [m * 2^e], ties to even. *)
Definition nearest (m e : Z) : float :=
  SF2Prim (binary_normalize prec emax m e false).

Definition digit_of (c : ascii) : option Z :=
  let n := Z.of_N (byte c) in
  if ((48 <=? n) && (n <=? 57))%Z then Some (n - 48)%Z
  else if ((97 <=? n) && (n <=? 102))%Z then Some (n - 87)%Z
  else if ((65 <=? n) && (n <=? 70))%Z then Some (n - 55)%Z
  else None.

Fixpoint digits_from (base acc : Z) (s : string) : option Z :=
  match s with
  | EmptyString => Some acc
  | String c s' =>
      match digit_of c with
      | Some d => if (d <? base)%Z then digits_from base (acc * base + d)%Z s' else None
      | None => None
      end
  end.

(** The value of a text of one or more digits. *)
Definition digits (base : Z) (s : string) : option Z :=
  if isEmpty s then None else digits_from base 0 s.

Definition is_digit (c : ascii) : bool :=
  let n := byte c in ((48 <=? n) && (n <=? 57))%N.

Fixpoint span_digits (s : string) : string * string :=
  match s with
  | EmptyString => (EmptyString, EmptyString)
  | String c s' =>
      if is_digit c then let '(a, b) := span_digits s' in (String c a, b)
      else (EmptyString, s)
  end.

(** [m * 10^E] for [0 <= m], rounded once.  A quotient is taken with 1200
    binary places and one more bit that says whether anything was left. *)
Definition decimal (m E : Z) : float :=
  if (m =? 0)%Z then 0%float
  else if (0 <=? E)%Z then
    if (400 <? E)%Z then infinity else nearest (m * 10 ^ E) 0
  else if (Z.log2 m + 1 + 3 * E <? -1100)%Z then 0%float
  else
    let d := (10 ^ (- E))%Z in
    let q := (m * 2 ^ 1200 / d)%Z in
    let left := if (m * 2 ^ 1200 mod d =? 0)%Z then 0%Z else 1%Z in
    nearest (2 * q + left) (-1201).

(** The parts of a decimal literal: the digits before the dot, the digits
    after it when there is a dot, and the exponent. *)
Definition exponent_part (s : string) : option Z :=
  match s with
  | EmptyString => Some 0%Z
  | String c r =>
      if Ascii.eqb c "e" || Ascii.eqb c "E" then
        match r with
        | String sign r' =>
            if Ascii.eqb sign "-" then option_map Z.opp (digits 10 r')
            else if Ascii.eqb sign "+" then digits 10 r'
            else digits 10 r
        | EmptyString => None
        end
      else None
  end.

Definition decimal_parts (s : string) : option (string * option string * Z) :=
  let '(int, rest) := span_digits s in
  let '(frac, rest') :=
    match rest with
    | String c r =>
        if Ascii.eqb c "." then let '(f, r') := span_digits r in (Some f, r')
        else (None, rest)
    | EmptyString => (None, rest)
    end in
  if isEmpty int && isEmpty (default EmptyString frac) then None
  else match exponent_part rest' with
       | Some e => Some (int, frac, e)
       | None => None
       end.

Definition decimal_of (int : string) (frac : option string) (e : Z) : float :=
  let f := default EmptyString frac in
  match digits_from 10 0 (int +:+ f) with
  | Some m => decimal m (e - Z.of_nat (String.length f))
  | None => nan
  end.

(** Binary, octal and hexadecimal integers. *)
Definition non_decimal (s : string) : option float :=
  match s with
  | String z (String x r) =>
      if Ascii.eqb z "0" then
        let base :=
          if Ascii.eqb x "x" || Ascii.eqb x "X" then Some 16%Z
          else if Ascii.eqb x "o" || Ascii.eqb x "O" then Some 8%Z
          else if Ascii.eqb x "b" || Ascii.eqb x "B" then Some 2%Z
          else None in
        match base with
        | Some b => option_map (fun m => nearest m 0) (digits b r)
        | None => None
        end
      else None
  | _ => None
  end.

Definition unsigned_decimal (s : string) : float :=
  if String.eqb s "Infinity" then infinity
  else match decimal_parts s with
       | Some (int, frac, e) => decimal_of int frac e
       | None => nan
       end.

(** [Number(text)]: white space around the text is dropped, the empty
    text is 0, and a text that is not a numeric literal is NaN. *)
Definition sample_Number (text : string) : float :=
  let t := trim text in
  if isEmpty t then 0%float
  else match non_decimal t with
       | Some n => n
       | None =>
           match t with
           | String c r =>
               if Ascii.eqb c "-" then (- unsigned_decimal r)%float
               else if Ascii.eqb c "+" then unsigned_decimal r
               else unsigned_decimal t
           | EmptyString => 0%float
           end
       end.

(** A number as [JSON.parse] reads it: an optional minus, digits without
    a leading zero, a fraction with digits, an exponent. *)
Definition json_number (text : string) : option float :=
  let '(negative, t) :=
    match text with
    | String c r => if Ascii.eqb c "-" then (true, r) else (false, text)
    | EmptyString => (false, text)
    end in
  match decimal_parts t with
  | Some (int, frac, e) =>
      if isEmpty int
         || (startsWith int "0" && negb (String.eqb int "0"))
         || match frac with Some f => isEmpty f | None => false end
      then None
      else let v := decimal_of int frac e in
           Some (if negative then (- v)%float else v)
  | None => None
  end.

(** A numeric literal as [eval] reads it, without a sign: a text that
    starts with a zero and goes on with digits is octal when all its
    digits are, and decimal otherwise. *)
Definition numeric_literal (text : string) : option float :=
  match non_decimal text with
  | Some n => Some n
  | None =>
      match decimal_parts text with
      | Some (int, frac, e) =>
          if startsWith int "0" && negb (String.eqb int "0") then
            match digits 8 int with
            | Some m =>
                match frac with
                | None => if String.eqb int text then Some (nearest m 0) else None
                | Some _ => None
                end
            | None => Some (decimal_of int frac e)
            end
          else Some (decimal_of int frac e)
      | None => None
      end
  end.

Fixpoint float_of_nat (n : nat) : float :=
  match n with
  | O => 0%float
  | S n' => (float_of_nat n' + 1)%float
  end.

Definition SyntaxError (message : string) : Value := VError "SyntaxError" message "".
Definition ReferenceError (message : string) : Value :=
  VError "ReferenceError" message "".

(** *** Contexts and host objects *)

Inductive Binding :=
| FromSandbox (e : SandboxEntry)   (* a property of the sandbox object *)
| Declared (v : Value).            (* a global declared by an evaluated script *)

(** A context: its global bindings, and the variables captured by the
    closures created in it. *)
Record Context := {
  bindings : gmap string Binding;
  captured : gmap nat Value;
  next_closure : nat
}.

(** The properties that programs have added to the host's [Math] object. *)
Definition MathProps : Type := gmap string Value.

Definition sample_createContext (sandbox : Sandbox) : Context :=
  {| bindings := FromSandbox <$> globals sandbox;
     captured := ∅;
     next_closure := 0 |}.

Definition declare (fname : string) (v : Value) (ctx : Context) : Context :=
  {| bindings := <[fname := Declared v]> (bindings ctx);
     captured := captured ctx;
     next_closure := next_closure ctx |}.

(** The compiler leaves plain JavaScript as it is, prints
    [createMultiplier] in its own layout, and erases the type parameter of
    the generic arrow function and the annotation of the typed one; each
    statement is printed on a line of its own, with its semicolon.  It does
    not object to a name that is declared twice. *)
Definition sample_transpile (code : string) : Result string :=
  if String.eqb code createMultiplier_source
  then Normal (createMultiplier_js +:+ newline)
  else if String.eqb code generic_identity
  then Normal (identity_js +:+ ";" +:+ newline)
  else if String.eqb code typed_double
  then Normal (double_js +:+ ";" +:+ newline)
  else if String.eqb code twice_source
  then Normal twice_js
  else Normal code.

Definition trim_newline (js : string) : string := trimEnd js.

(** [new vm.Script(js)]: a second [let] for the same name is an early
    error. *)
Definition sample_Script (js : string) : Result unit :=
  if String.eqb js twice_js
  then Throw (SyntaxError "Identifier 'f' has already been declared")
  else Normal tt.

(** Running a definition script declares its function. *)
Definition sample_runInContext (js : string)
  : M (Context * MathProps) unit :=
  fun '(ctx, math) =>
    let declare_as fname :=
      (Normal tt, (declare fname (VFunc (trim_newline js) 0) ctx, math)) in
    if String.eqb js count_source then declare_as "count"
    else if String.eqb js fail_source then declare_as "fail"
    else if String.eqb js (createMultiplier_js +:+ newline)
    then declare_as "createMultiplier"
    else if String.eqb js mark_source then declare_as "mark"
    else if String.eqb js peek_source then declare_as "peek"
    else (Normal tt, (ctx, math)).

Definition math_is_shared (ctx : Context) : bool :=
  match bindings ctx !! "Math" with
  | Some (FromSandbox (HostObject "Math")) => true
  | _ => false
  end.

(** Calling a function value: by its source text. *)
Definition sample_call (f : Value) (args : list Value)
  : M (Context * MathProps) Value :=
  fun '(ctx, math) =>
    match f with
    | VFunc src closure =>
        if String.eqb src count_source then
          match args with
          | VArr items :: _ => (Normal (VNum (float_of_nat (length items))), (ctx, math))
          | _ => (Throw (TypeError "list is not iterable"), (ctx, math))
          end
        else if String.eqb src fail_source then (Throw VNull, (ctx, math))
        else if String.eqb src createMultiplier_js then
          let id := next_closure ctx in
          (Normal (VFunc multiplier_js id),
           ({| bindings := bindings ctx;
               captured := <[id := nth 0 args VUndefined]> (captured ctx);
               next_closure := S id |}, math))
        else if String.eqb src multiplier_js then
          match captured ctx !! closure, args with
          | Some (VNum factor), VNum x :: _ => (Normal (VNum (x * factor)%float), (ctx, math))
          | _, _ => (Normal (VNum nan), (ctx, math))
          end
        else if String.eqb src mark_source then
          if math_is_shared ctx
          then (Normal (VNum 0%float), (ctx, <["flag" := VNum 1%float]> math))
          else (Throw (ReferenceError "Math is not defined"), (ctx, math))
        else if String.eqb src peek_source then
          if math_is_shared ctx
          then (Normal (default VUndefined (math !! "flag")), (ctx, math))
          else (Throw (ReferenceError "Math is not defined"), (ctx, math))
        else if String.eqb src identity_js then
          (Normal (nth 0 args VUndefined), (ctx, math))
        else if String.eqb src double_js then
          match args with
          | VNum x :: _ => (Normal (VNum (x * 2)%float), (ctx, math))
          | _ => (Normal (VNum nan), (ctx, math))
          end
        else (Normal VUndefined, (ctx, math))
    | _ => (Throw (TypeError "result is not a function"), (ctx, math))
    end.

Definition lookup_target (fname : string) (ctx : Context) : Result Value :=
  match bindings ctx !! fname with
  | Some (Declared v) => Normal v
  | _ => Throw (ReferenceError (fname +:+ " is not defined"))
  end.

Definition sample_target_toString (fname : string)
  : M (Context * MathProps) string :=
  fun '(ctx, math) =>
    match lookup_target fname ctx with
    | Normal (VFunc src _) => (Normal src, (ctx, math))
    | Normal _ => (Normal "[object Object]", (ctx, math))
    | Throw e => (Throw e, (ctx, math))
    | Hang => (Hang, (ctx, math))
    end.

Definition sample_call_target (fname : string) (args : list Value)
  : M (Context * MathProps) Value :=
  fun '(ctx, math) =>
    match lookup_target fname ctx with
    | Normal f => sample_call f args (ctx, math)
    | Throw e => (Throw e, (ctx, math))
    | Hang => (Hang, (ctx, math))
    end.

(** [eval] of a parenthesised literal -- a keyword, a number, the array
    [[1,2,3]] -- or of one of the plain arrow functions; any other text is
    taken as a syntax error. *)
Definition sample_eval (text : string) : M (Context * MathProps) Value :=
  fun st =>
    let inner := slice_1_m1 text in
    match keyword_value inner with
    | Some v => (Normal v, st)
    | None =>
        if String.eqb inner "[1,2,3]"
        then (Normal (VArr [VNum 1%float; VNum 2%float; VNum 3%float]), st)
        else if String.eqb inner identity_js then (Normal (VFunc identity_js 0), st)
        else if String.eqb inner double_js then (Normal (VFunc double_js 0), st)
        else match numeric_literal inner with
             | Some n => (Normal (VNum n), st)
             | None => (Throw (SyntaxError "Unexpected token"), st)
             end
    end.

(** [JSON.parse] of [true], [false], [null], a number, or the array
    [[1,2,3]]; any other text is taken as a syntax error. *)
Definition sample_JSON_parse (text : string) : Result Value :=
  if String.eqb text "true" then Normal (VBool true)
  else if String.eqb text "false" then Normal (VBool false)
  else if String.eqb text "null" then Normal VNull
  else if String.eqb text "[1,2,3]"
  then Normal (VArr [VNum 1%float; VNum 2%float; VNum 3%float])
  else match json_number text with
       | Some n => Normal (VNum n)
       | None => Throw (SyntaxError "Unexpected token")
       end.

(** *** The text of a number

    [Number::toString]: the shortest digits [s] (k of them) and the
    exponent [n] with [s * 10^(n-k)] read back as the same double; of two
    such [s] the one nearer to the number. *)

(** [m * 2^e] against [10^n]: is [10^n <= m * 2^e]? *)
Definition reaches (m e n : Z) : bool :=
  let left := (m * 2 ^ Z.max e 0 * 10 ^ Z.max (- n) 0)%Z in
  let right := (10 ^ Z.max n 0 * 2 ^ Z.max (- e) 0)%Z in
  (right <=? left)%Z.

(** The [n] with [10^(n-1) <= m * 2^e < 10^n], searched upwards. *)
Fixpoint magnitude_from (fuel : nat) (m e n : Z) : Z :=
  match fuel with
  | O => n
  | S fuel' => if reaches m e n then magnitude_from fuel' m e (n + 1)%Z else n
  end.

Definition magnitude (m e : Z) : Z := magnitude_from 700 m e (-330)%Z.

(** [floor (m * 2^e * 10^p)] *)
Definition scaled (m e p : Z) : Z :=
  ((m * 2 ^ Z.max e 0 * 10 ^ Z.max p 0)
   / (2 ^ Z.max (- e) 0 * 10 ^ Z.max (- p) 0))%Z.

(** Twice the distance of [s * 10^(-p)] from [m * 2^e], on a common scale. *)
Definition distance (m e p s : Z) : Z :=
  Z.abs (s * 2 ^ Z.max (- e) 0 * 10 ^ Z.max (- p) 0
         - m * 2 ^ Z.max e 0 * 10 ^ Z.max p 0)%Z.

(** The digits of length [k], when there are such: [(s, n)]. *)
Definition digits_of_length (x : float) (m e n k : Z) : option (Z * Z) :=
  let p := (k - n)%Z in
  let low := scaled m e p in
  let high := (low + 1)%Z in
  let reads s := PrimFloat.eqb (decimal s (- p)) x in
  let pick :=
    if reads low && reads high
    then Some (if (distance m e p high <? distance m e p low)%Z then high else low)
    else if reads low then Some low
    else if reads high then Some high
    else None in
  match pick with
  | Some s => if (s =? 10 ^ k)%Z then Some (10 ^ (k - 1), n + 1)%Z else Some (s, n)
  | None => None
  end.

Fixpoint shortest_from (fuel : nat) (x : float) (m e n k : Z) : Z * Z * Z :=
  match fuel with
  | O => (scaled m e (k - n), k, n)
  | S fuel' =>
      match digits_of_length x m e n k with
      | Some (s, n') => (s, if (s <? 10 ^ (k - 1))%Z then (k - 1)%Z else k, n')
      | None => shortest_from fuel' x m e n (k + 1)%Z
      end
  end.

Definition decimal_digits (z : Z) : string :=
  NilZero.string_of_uint (N.to_uint (Z.to_N z)).

Fixpoint zeros (n : nat) : string :=
  match n with
  | O => EmptyString
  | S n' => String "0" (zeros n')
  end.

Definition positive_text (x : float) (m e : Z) : string :=
  let '(s, k, n) := shortest_from 17 x m e (magnitude m e) 1 in
  let ds := decimal_digits s in
  if ((k <=? n) && (n <=? 21))%Z then ds +:+ zeros (Z.to_nat (n - k))
  else if ((0 <? n) && (n <=? 21))%Z
  then substring 0 (Z.to_nat n) ds +:+ "."
       +:+ substring (Z.to_nat n) (Z.to_nat (k - n)) ds
  else if ((-6 <? n) && (n <=? 0))%Z then "0." +:+ zeros (Z.to_nat (- n)) +:+ ds
  else
    let exponent :=
      (if (0 <=? n - 1)%Z then "e+" else "e-") +:+ decimal_digits (Z.abs (n - 1)) in
    if (k =? 1)%Z then ds +:+ exponent
    else substring 0 1 ds +:+ "." +:+ substring 1 (Z.to_nat (k - 1)) ds +:+ exponent.

Definition number_text (x : float) : string :=
  match Prim2SF x with
  | S754_nan => "NaN"
  | S754_infinity negative => if negative then "-Infinity" else "Infinity"
  | S754_zero _ => "0"
  | S754_finite negative m e =>
      (if negative then "-" else "") +:+ positive_text (abs x) (Z.pos m) e
  end.

(** [String(v)] on the values of the sample programs; [Error.prototype.toString]
    leaves out the colon when the message is empty. *)
Definition sample_String (v : Value) : Result string :=
  match v with
  | VUndefined => Normal "undefined"
  | VNull => Normal "null"
  | VBool true => Normal "true"
  | VBool false => Normal "false"
  | VNum n => Normal (number_text n)
  | VStr s => Normal s
  | VFunc src _ => Normal src
  | VError n m _ =>
      Normal (if isEmpty n then m
              else if isEmpty m then n
              else n +:+ ": " +:+ m)
  | _ => Normal "[object Object]"
  end.

(** [isNaN(v)] *)
Definition sample_isNaN (v : Value) : bool :=
  match v with
  | VNum n => isNaN n
  | VStr text => isNaN (sample_Number text)
  | VNull | VBool _ => false
  | VDate t => isNaN t
  | _ => true
  end.

(** Property reads on the values of the sample programs: data properties
    only. *)
Definition sample_get (v : Value) (key : string) : Result Value :=
  match v with
  | VError name message stack =>
      if String.eqb key "message" then Normal (VStr message)
      else if String.eqb key "stack" then Normal (VStr stack)
      else if String.eqb key "name" then Normal (VStr name)
      else Normal VUndefined
  | VObject props => Normal (lookup_prop key props)
  | _ => Normal VUndefined
  end.

Definition sample_target_value (fname : string) : M (Context * MathProps) Value :=
  fun st => (lookup_target fname (fst st), st).

Definition unchanged {S A} (r : Result A) : M S A := fun st => (r, st).

(** [eval] in the extension host: [new Nothing()] names no binding; any
    other text is taken as a syntax error. *)
Definition sample_host_eval (text : string) : Result Value :=
  if String.eqb text "new Nothing()"
  then Throw (ReferenceError "Nothing is not defined")
  else Throw (SyntaxError "Unexpected token").

Definition host : Host :=
  {| Ctx := Context;
     Heap := MathProps;
     ts_transpileModule := sample_transpile;
     vm_Script := sample_Script;
     vm_Script_invocation := fun _ _ => Normal tt;
     vm_createContext := sample_createContext;
     vm_runInContext := sample_runInContext;
     console_log := fun _ => unchanged (Normal tt);
     sandbox_eval := sample_eval;
     sandbox_JSON_parse := fun text => unchanged (sample_JSON_parse text);
     sandbox_Number := fun text => unchanged (Normal (VNum (sample_Number text)));
     sandbox_isNaN := fun v => unchanged (Normal (VBool (sample_isNaN v)));
     target_value := sample_target_value;
     target_toString := sample_target_toString;
     call_target := sample_call_target;
     call_value := sample_call;
     JSON_parse := sample_JSON_parse;
     Number_ := sample_Number;
     JSON_roundtrip := fun v => Normal v;
     String_ := sample_String;
     Function_toString := fun v => Normal (VStr (match v with
                                                 | VFunc src _ => src
                                                 | _ => "[object Object]"
                                                 end));
     preview_of_other := fun v => Normal v;
     object_get := sample_get;
     host_eval := sample_host_eval;
     Date_getTime := fun _ => nan;
     new_Function := fun _ _ => Throw (SyntaxError "Unexpected token");
     String_match := fun _ _ => None |}.

(** *** A host in which an argument rebinds a global

    The argument text [Number = isFinite, 1] is an expression: evaluated
    in parentheses it binds the global [Number] of the context to the
    function [isFinite] and has the value 1.  From then on [Number(text)]
    in that context is [isFinite(text)]. *)
Definition rebinding_text : string := "Number = isFinite, 1".

Definition Number_is_rebound (ctx : Context) : bool :=
  match bindings ctx !! "Number" with
  | Some (FromSandbox (HostObject "isFinite")) => true
  | _ => false
  end.

Definition rebinding_eval (text : string) : M (Context * MathProps) Value :=
  fun '(ctx, math) =>
    if String.eqb (slice_1_m1 text) rebinding_text
    then (Normal (VNum 1%float),
          ({| bindings := <["Number" := FromSandbox (HostObject "isFinite")]>
                            (bindings ctx);
              captured := captured ctx;
              next_closure := next_closure ctx |}, math))
    else sample_eval text (ctx, math).

(** [isFinite(text)] *)
Definition sample_isFinite (text : string) : bool :=
  let n := sample_Number text in
  negb (isNaN n) && negb (PrimFloat.is_infinity n).

Definition rebinding_Number (text : string) : M (Context * MathProps) Value :=
  fun '(ctx, math) =>
    if Number_is_rebound ctx
    then (Normal (VBool (sample_isFinite text)), (ctx, math))
    else (Normal (VNum (sample_Number text)), (ctx, math)).

Definition rebinding_host : Host :=
  {| Ctx := Context;
     Heap := MathProps;
     ts_transpileModule := sample_transpile;
     vm_Script := sample_Script;
     vm_Script_invocation := fun _ _ => Normal tt;
     vm_createContext := sample_createContext;
     vm_runInContext := sample_runInContext;
     console_log := fun _ => unchanged (Normal tt);
     sandbox_eval := rebinding_eval;
     sandbox_JSON_parse := fun text => unchanged (sample_JSON_parse text);
     sandbox_Number := rebinding_Number;
     sandbox_isNaN := fun v => unchanged (Normal (VBool (sample_isNaN v)));
     target_value := sample_target_value;
     target_toString := sample_target_toString;
     call_target := sample_call_target;
     call_value := sample_call;
     JSON_parse := sample_JSON_parse;
     Number_ := sample_Number;
     JSON_roundtrip := fun v => Normal v;
     String_ := sample_String;
     Function_toString := fun v => Normal (VStr (match v with
                                                 | VFunc src _ => src
                                                 | _ => "[object Object]"
                                                 end));
     preview_of_other := fun v => Normal v;
     object_get := sample_get;
     host_eval := sample_host_eval;
     Date_getTime := fun _ => nan;
     new_Function := fun _ _ => Throw (SyntaxError "Unexpected token");
     String_match := fun _ _ => None |}.

(** The host's [Math] object as a fresh extension host has it. *)
Definition pristine : MathProps := ∅.

Definition request (code fname : string) (args : list ArgWithType)
    (followUp : option string) : Request :=
  {| sourceText := code; entryName := fname; arguments := args;
     req_isAsync := false; followUpArguments := followUp;
     startTime := 1000; endTime := 1003 |}.

End Sample.

(** * The callers: panel provider, extension entry point, panel script *)

(** ** The panel provider: [TestPanelProvider]

    The provider keeps the view it was given, the function list that
    arrived before there was a view, and the message handler.  Its effects
    are calls on the view's webview: [postMessage] and
    [onDidReceiveMessage]; they are recorded, oldest first.  Views and
    handlers are kept by identity. *)

Module TestPanel.

Import CodeParser CodeExecutor.

(** What [handleFunctionExecution] hands to [sendExecutionResult]: an
    outcome with the index of the request. *)
Record ExecutionReport := {
  outcome : ExecutionResult;
  index : nat
}.

Inductive PanelMessage :=
| updateFunctionsMessage (functions : list FunctionInfo)
| executionResultMessage (report : ExecutionReport)
| focusOnFunctionMessage (functionName : string).

Record PanelState := {
  _view : option nat;
  _pendingFunctions : option (list FunctionInfo);
  _messageHandler : option nat;
  posted : list (nat * PanelMessage);     (* view.webview.postMessage(message) *)
  listeners : list (nat * nat)            (* view.webview.onDidReceiveMessage(handler) *)
}.

Definition initial : PanelState :=
  {| _view := None; _pendingFunctions := None; _messageHandler := None;
     posted := []; listeners := [] |}.

Definition postMessage (view : nat) (message : PanelMessage) (p : PanelState)
  : PanelState :=
  {| _view := _view p; _pendingFunctions := _pendingFunctions p;
     _messageHandler := _messageHandler p;
     posted := posted p ++ [(view, message)];
     listeners := listeners p |}.

Definition onDidReceiveMessage (view handler : nat) (p : PanelState) : PanelState :=
  {| _view := _view p; _pendingFunctions := _pendingFunctions p;
     _messageHandler := _messageHandler p;
     posted := posted p;
     listeners := listeners p ++ [(view, handler)] |}.

Definition updateFunctions (functions : list FunctionInfo) (p : PanelState)
  : PanelState :=
  match _view p with
  | Some view => postMessage view (updateFunctionsMessage functions) p
  | None =>
      {| _view := None; _pendingFunctions := Some functions;
         _messageHandler := _messageHandler p;
         posted := posted p; listeners := listeners p |}
  end.

Definition resolveWebviewView (webviewView : nat) (p : PanelState) : PanelState :=
  let p1 :=
    {| _view := Some webviewView; _pendingFunctions := _pendingFunctions p;
       _messageHandler := _messageHandler p;
       posted := posted p; listeners := listeners p |} in
  let p2 :=
    match _messageHandler p1 with
    | Some handler => onDidReceiveMessage webviewView handler p1
    | None => p1
    end in
  match _pendingFunctions p2 with
  | Some functions =>
      let p3 := updateFunctions functions p2 in
      {| _view := _view p3; _pendingFunctions := None;
         _messageHandler := _messageHandler p3;
         posted := posted p3; listeners := listeners p3 |}
  | None => p2
  end.

Definition sendExecutionResult (report : ExecutionReport) (p : PanelState)
  : PanelState :=
  match _view p with
  | Some view => postMessage view (executionResultMessage report) p
  | None => p
  end.

Definition setMessageHandler (handler : nat) (p : PanelState) : PanelState :=
  let p1 :=
    {| _view := _view p; _pendingFunctions := _pendingFunctions p;
       _messageHandler := Some handler;
       posted := posted p; listeners := listeners p |} in
  match _view p1 with
  | Some view => onDidReceiveMessage view handler p1
  | None => p1
  end.

Definition focusOnFunction (functionName : string) (p : PanelState) : PanelState :=
  match _view p with
  | Some view => postMessage view (focusOnFunctionMessage functionName) p
  | None => p
  end.

(** One call on the provider, and a sequence of calls. *)
Inductive Call :=
| ResolveWebviewView (webviewView : nat)
| UpdateFunctions (functions : list FunctionInfo)
| SendExecutionResult (report : ExecutionReport)
| SetMessageHandler (handler : nat)
| FocusOnFunction (functionName : string).

Definition call (p : PanelState) (c : Call) : PanelState :=
  match c with
  | ResolveWebviewView v => resolveWebviewView v p
  | UpdateFunctions fs => updateFunctions fs p
  | SendExecutionResult r => sendExecutionResult r p
  | SetMessageHandler h => setMessageHandler h p
  | FocusOnFunction n => focusOnFunction n p
  end.

Definition calls (cs : list Call) (p : PanelState) : PanelState := foldl call p cs.

Definition is_resolve (c : Call) : bool :=
  match c with ResolveWebviewView _ => true | _ => false end.

Definition is_setHandler (c : Call) : bool :=
  match c with SetMessageHandler _ => true | _ => false end.

(** The list of the last [updateFunctions] call of a sequence. *)
Fixpoint last_update (cs : list Call) : option (list FunctionInfo) :=
  match cs with
  | [] => None
  | c :: rest =>
      match last_update rest with
      | Some fs => Some fs
      | None => match c with UpdateFunctions fs => Some fs | _ => None end
      end
  end.

End TestPanel.

(** ** The extension entry point: the closures of [activate] *)

Module Extension.

Import JsString CodeParser CodeExecutor TestPanel.

Record Document := {
  languageId : string;
  fileName : string;
  getText : string
}.

(** The variables that the closures of [activate] share, with the calls
    they make on the editor window. *)
Record ExtensionState := {
  currentFunctions : list FunctionInfo;
  panel : PanelState;
  codeLensRefreshes : nat;         (* testCodeLensProvider.refresh() *)
  errorMessages : list string      (* vscode.window.showErrorMessage(text) *)
}.

(** The message of type [executeFunction] sent by the panel. *)
Record ExecuteMessage := {
  msg_functionName : string;
  msg_arguments : option (list ArgWithType);
  msg_testArgs : option string;
  msg_index : option nat
}.

Record CodeLens := {
  lens_line : Z;                   (* new vscode.Range(line, 0, line, 0) *)
  lens_title : string;
  lens_command : string;
  lens_arguments : list string
}.

(** [['typescript', 'javascript'].includes(languageId)] *)
Definition supported (language : string) : bool :=
  String.eqb language "typescript" || String.eqb language "javascript".

(** [FunctionTestCodeLensProvider.provideCodeLenses], with the list that
    [getFunctions()] returns. *)
Definition provideCodeLenses (functions : list FunctionInfo) (document : Document)
  : list CodeLens :=
  if negb (supported (languageId document)) then []
  else
    map (fun func =>
           {| lens_line := (Z.of_nat (startLine func) - 1)%Z;
              lens_title := "$(play) TesterRunner";
              lens_command := "tsFunctionTester.testThisFunction";
              lens_arguments := [name func] |})
        functions.

Definition with_panel (p : PanelState) (ext : ExtensionState) : ExtensionState :=
  {| currentFunctions := currentFunctions ext; panel := p;
     codeLensRefreshes := codeLensRefreshes ext;
     errorMessages := errorMessages ext |}.

(** [currentFunctions.find(f => f.name === functionName)] *)
Definition find_function (functionName : string) (functions : list FunctionInfo)
  : option FunctionInfo :=
  find (fun f => String.eqb (name f) functionName) functions.

(** [handleJumpToDefinition]: the line that the selection is moved to, when
    there is an editor and the function is known. *)
Definition handleJumpToDefinition (editor : option Document) (functionName : string)
    (ext : ExtensionState) : option Z :=
  match editor with
  | None => None
  | Some _ =>
      match find_function functionName (currentFunctions ext) with
      | None => None
      | Some functionInfo => Some (Z.of_nat (startLine functionInfo) - 1)%Z
      end
  end.

Definition not_found (functionName : string) : Value :=
  VStr ("未找到函数 " +:+ char dquote +:+ functionName +:+ char dquote).

Definition failure (text : Value) : ExecutionResult :=
  {| success := false; result := None; error := Some text; executionTime := None |}.

Section Activate.

Variable H : Host.
Variable ts_createSourceFile : string -> string -> Result SourceFile.

(** [updateFunctionList(editor)], on the document of the editor. *)
Definition updateFunctionList (document : Document) (ext : ExtensionState)
  : Result unit * ExtensionState :=
  if negb (supported (languageId document))
  then (Normal tt, with_panel (updateFunctions [] (panel ext)) ext)
  else
    match parseFunctions ts_createSourceFile (getText document) (fileName document) with
    | Normal functions =>
        (Normal tt,
         {| currentFunctions := functions;
            panel := updateFunctions functions (panel ext);
            codeLensRefreshes := S (codeLensRefreshes ext);
            errorMessages := errorMessages ext |})
    | Throw error =>
        match String_ H error with
        | Normal text =>
            (Normal tt,
             {| currentFunctions := currentFunctions ext;
                panel := panel ext;
                codeLensRefreshes := codeLensRefreshes ext;
                errorMessages := errorMessages ext ++ ["解析函数失败: " +:+ text] |})
        | Throw e => (Throw e, ext)
        | Hang => (Hang, ext)
        end
    | Hang => (Hang, ext)
    end.

(** [provider.sendExecutionResult(report)] *)
Definition send (report : ExecutionReport) : M (ExtensionState * Heap H) unit :=
  fun '(ext, heap) =>
    (Normal tt, (with_panel (sendExecutionResult report (panel ext)) ext, heap)).

(** A call of the engine: it works on the host objects only. *)
Definition engine {A} (m : M (Heap H) A) : M (ExtensionState * Heap H) A :=
  fun '(ext, heap) => let '(r, heap') := m heap in (r, (ext, heap')).

(** [handleFunctionExecution(message)]; [startTime] and [endTime] are the
    clock readings of the engine call. *)
Definition handleFunctionExecution (message : ExecuteMessage) (startTime endTime : Z)
  : M (ExtensionState * Heap H) unit :=
  fun '(ext, heap) =>
    let functionName := msg_functionName message in
    let args := default [] (msg_arguments message) in
    let testArgs := msg_testArgs message in
    let index := default 0 (msg_index message) in
    match find_function functionName (currentFunctions ext) with
    | None =>
        send {| outcome := failure (not_found functionName); index := index |}
             (ext, heap)
    | Some functionInfo =>
        try_catch
          (let argsWithTypes :=
             map (fun arg => {| arg_value := arg_value arg; arg_type := arg_type arg |})
                 args in
           do result <-
             engine (executeFunction H (fullText functionInfo) functionName
                       argsWithTypes (isAsync functionInfo) testArgs
                       startTime endTime);
           send {| outcome := result; index := index |})
          (fun error =>
             do text <- lift (error_text H error);
             send {| outcome := failure text; index := index |})
          (ext, heap)
    end.

End Activate.

End Extension.

(** ** The panel script: invocation history and parameter cache

    [functionHistory] and [paramCache] are object literals used as maps.  A
    key that is not an own property is looked up in [Object.prototype]. *)

Module PanelScript.

Import CodeExecutor.

(** The property names of [Object.prototype]. *)
Definition inherited (key : string) : bool :=
  existsb (String.eqb key)
    [ "constructor"; "__defineGetter__"; "__defineSetter__"; "hasOwnProperty";
      "__lookupGetter__"; "__lookupSetter__"; "isPrototypeOf";
      "propertyIsEnumerable"; "toString"; "valueOf"; "__proto__";
      "toLocaleString" ].

Record HistoryRecord := {
  functionName : string;
  args : list ArgWithType;
  timestamp : Z
}.

Definition MAX_HISTORY_PER_FUNC : nat := 3.

(** [entries.unshift(record); if (entries.length > MAX_HISTORY_PER_FUNC) entries.pop()] *)
Definition unshift_pop (record : HistoryRecord) (entries : list HistoryRecord)
  : list HistoryRecord :=
  let entries' := record :: entries in
  if (MAX_HISTORY_PER_FUNC <? length entries')%nat
  then removelast entries' else entries'.

(** [saveToHistory(record)], on the map [functionHistory]; the rendering
    of the list that follows the update is left to the page.  For a name
    found in [Object.prototype] the looked-up value is not an array, and
    calling its [unshift] throws. *)
Definition saveToHistory (record : HistoryRecord)
    (functionHistory : gmap string (list HistoryRecord))
  : Result (gmap string (list HistoryRecord)) :=
  let funcName := functionName record in
  match functionHistory !! funcName with
  | Some entries => Normal (<[funcName := unshift_pop record entries]> functionHistory)
  | None =>
      if inherited funcName
      then Throw (TypeError "functionHistory[funcName].unshift is not a function")
      else Normal (<[funcName := unshift_pop record []]> functionHistory)
  end.

(** The history after a sequence of executions; a save that throws leaves
    the map as it was. *)
Definition saveAll (records : list HistoryRecord)
    (functionHistory : gmap string (list HistoryRecord))
  : gmap string (list HistoryRecord) :=
  foldl (fun h record =>
           match saveToHistory record h with
           | Normal h' => h'
           | _ => h
           end)
        functionHistory records.

(** [paramCache[functionName][paramName] = value], for a string [value]:
    assigning a string to [__proto__] goes to the setter of
    [Object.prototype], which ignores it, unless the object has a property
    of its own under that name. *)
Definition assign (paramName value : string) (params : gmap string string)
  : gmap string string :=
  match params !! paramName with
  | None => if String.eqb paramName "__proto__" then params
            else <[paramName := value]> params
  | Some _ => <[paramName := value]> params
  end.

(** [saveParamCache(functionName, paramName, value)], on the map
    [paramCache].  [None] stands for a save under a function name
    inherited from [Object.prototype] which is not a key of the map: no
    entry is made, and the assignment writes to the inherited object, which
    every script of the page shares. *)
Definition saveParamCache (fname paramName value : string)
    (paramCache : gmap string (gmap string string))
  : option (gmap string (gmap string string)) :=
  match paramCache !! fname with
  | Some params => Some (<[fname := assign paramName value params]> paramCache)
  | None =>
      if inherited fname then None
      else Some (<[fname := assign paramName value ∅]> paramCache)
  end.

Section Prototype.

(** [member_has f p]: the value that an object inherits from
    [Object.prototype] under the name [f] -- a function, or the prototype
    itself -- has under the name [p] something other than an empty value,
    or reading it throws. *)
Variable member_has : string -> string -> bool.

(** [getCachedParam(functionName, paramName)]:
    [paramCache[functionName]?.[paramName] || ''].  [Some text] is the
    text that is returned; [None] stands for a lookup that ends in
    [Object.prototype] or in one of its members and finds something there,
    which is returned in place of a text. *)
Definition getCachedParam (fname paramName : string)
    (paramCache : gmap string (gmap string string)) : option string :=
  match paramCache !! fname with
  | Some params =>
      match params !! paramName with
      | Some value => Some value
      | None => if inherited paramName then None else Some ""
      end
  | None =>
      if inherited fname && member_has fname paramName then None else Some ""
  end.

End Prototype.

End PanelScript.

(** ** Further reference definitions *)

Module MoreSpec.

Import JsString CodeParser CodeExecutor ExtractorSpec.

(** The number of descriptors a node gives rise to by itself, classes
    included. *)
Definition emitted_here (data : NodeData) : nat :=
  match data with
  | FunctionDeclaration (Some _) _ _ => 1
  | VariableStatement declarations => length (filter is_function_binding declarations)
  | ClassDeclaration (Some _) _ members => 1 + length (method_names members)
  | _ => 0
  end.

Fixpoint emitted (node : Node) : nat :=
  match node with
  | mkNode data children => emitted_here data + list_sum (map emitted children)
  end.

Definition range_ordered (r : Range) : bool := (start_line r <=? end_line r)%nat.

Definition member_ordered (m : ClassElement) : bool :=
  match m with
  | MethodDeclaration _ _ r => range_ordered r
  | _ => true
  end.

(** Every declaration of the tree ends on or after the line it starts on. *)
Definition ranges_ordered_here (data : NodeData) : bool :=
  match data with
  | FunctionDeclaration _ _ r => range_ordered r
  | VariableStatement declarations =>
      forallb (fun d => range_ordered (vd_range d)) declarations
  | ClassDeclaration _ r members => range_ordered r && forallb member_ordered members
  | OtherNode => true
  end.

Fixpoint ranges_ordered (node : Node) : bool :=
  match node with
  | mkNode data children => ranges_ordered_here data && forallb ranges_ordered children
  end.

(** The 0-based lines on which the declarations of a tree start, in the
    order of the traversal. *)
Definition method_start (m : ClassElement) : option nat :=
  match m with
  | MethodDeclaration _ _ r => Some (start_line r)
  | _ => None
  end.

Definition binding_start (d : VariableDeclaration) : option nat :=
  if is_function_binding d then Some (start_line (vd_range d)) else None.

Definition start_lines_here (data : NodeData) : list nat :=
  match data with
  | FunctionDeclaration (Some _) _ r => [start_line r]
  | VariableStatement declarations => omap binding_start declarations
  | ClassDeclaration (Some _) r members => start_line r :: omap method_start members
  | _ => []
  end.

Fixpoint start_lines (node : Node) : list nat :=
  match node with
  | mkNode data children => start_lines_here data ++ flat_map start_lines children
  end.

(** The number of occurrences of a character. *)
Fixpoint count_char (c : ascii) (s : string) : nat :=
  match s with
  | EmptyString => 0
  | String d s' => (if Ascii.eqb d c then 1 else 0) + count_char c s'
  end.

(** The values that [serializeResult] passes through the JSON round trip. *)
Definition round_tripped (v : Value) : bool :=
  match v with
  | VArr _ | VObject _ | VDate _ | VPromise _ => true
  | _ => false
  end.

(** The members of [Object.prototype] that are functions have a [name];
    this much of them is used in the examples. *)
Definition named_members (f p : string) : bool :=
  PanelScript.inherited f && negb (String.eqb f "__proto__") && String.eqb p "name".

Definition record_of (fname : string) (r : PanelScript.HistoryRecord) : bool :=
  String.eqb (PanelScript.functionName r) fname.

(** What one call of [updateFunctionList] stores in [currentFunctions], if
    anything: the descriptors of a document in a supported language that
    the parser accepts. *)
Definition parsed (ts : string -> string -> Result SourceFile)
    (document : Extension.Document) : option (list FunctionInfo) :=
  if Extension.supported (Extension.languageId document)
  then match parseFunctions ts (Extension.getText document)
               (Extension.fileName document) with
       | Normal functions => Some functions
       | _ => None
       end
  else None.

Fixpoint last_parsed (ts : string -> string -> Result SourceFile)
    (documents : list Extension.Document) : option (list FunctionInfo) :=
  match documents with
  | [] => None
  | d :: rest =>
      match last_parsed ts rest with
      | Some functions => Some functions
      | None => parsed ts d
      end
  end.

(** [updateFunctionList] on one document after the other; [None] when a
    parse does not return. *)
Fixpoint updateAll (H : Host) (ts : string -> string -> Result SourceFile)
    (documents : list Extension.Document) (ext : Extension.ExtensionState)
  : option Extension.ExtensionState :=
  match documents with
  | [] => Some ext
  | d :: rest =>
      match Extension.updateFunctionList H ts d ext with
      | (Hang, _) => None
      | (_, ext') => updateAll H ts rest ext'
      end
  end.

(** A call that is neither [resolveWebviewView] nor [setMessageHandler]. *)
Definition quiet (c : TestPanel.Call) : bool :=
  negb (TestPanel.is_resolve c) && negb (TestPanel.is_setHandler c).

(** *** Concrete states *)

Definition descriptor (fname code : string) (line : nat) : FunctionInfo :=
  {| name := fname; parameters := []; returnType := "any";
     startLine := line; endLine := line; fullText := code;
     isAsync := false; isClass := None; className := None |}.

(** Two declarations of [count] in one file: the sample program, and a
    later redeclaration that fails. *)
Definition redeclared : list FunctionInfo :=
  [ descriptor "peek" Sample.peek_source 1;
    descriptor "count" Sample.count_source 2;
    descriptor "count" Sample.fail_source 3 ].

Definition resolved_panel : TestPanel.PanelState :=
  TestPanel.resolveWebviewView 7 TestPanel.initial.

Definition sample_extension : Extension.ExtensionState :=
  {| Extension.currentFunctions := redeclared;
     Extension.panel := resolved_panel;
     Extension.codeLensRefreshes := 0;
     Extension.errorMessages := [] |}.

Definition calc_document : Extension.Document :=
  {| Extension.languageId := "typescript";
     Extension.fileName := "calc.ts";
     Extension.getText := calc_source |}.

Definition notes_document : Extension.Document :=
  {| Extension.languageId := "markdown";
     Extension.fileName := "notes.md";
     Extension.getText := "# notes" |}.

Definition count_message : Extension.ExecuteMessage :=
  {| Extension.msg_functionName := "count";
     Extension.msg_arguments := Some [ {| arg_value := "[1,2,3]"; arg_type := "any" |} ];
     Extension.msg_testArgs := None;
     Extension.msg_index := Some 1 |}.

Definition history_record (fname value : string) (time : Z)
  : PanelScript.HistoryRecord :=
  {| PanelScript.functionName := fname;
     PanelScript.args := [ {| arg_value := value; arg_type := "number" |} ];
     PanelScript.timestamp := time |}.

(** [String(error)] returns for every value, as it does unless a thrown
    object brings a [toString] of its own that throws. *)
Definition String_total (H : Host) : Prop :=
  forall v, exists s, String_ H v = Normal s.

(** Reading [message] of a value never throws, as it does not unless the
    value brings an accessor of its own under that name. *)
Definition message_readable (H : Host) : Prop :=
  forall v e, object_get H v "message" <> Throw e.

(** A value thrown by what the context binds to [console.log], to [Number]
    or to [isNaN], in some state. *)
Definition thrown_by_context (H : Host) (e : Value) : Prop :=
  exists st : St H,
    (exists vs, fst (console_log H vs st) = Throw e)
    \/ (exists text, fst (sandbox_Number H text st) = Throw e)
    \/ (exists v, fst (sandbox_isNaN H v st) = Throw e).

(** [v instanceof Error] *)
Definition is_error (v : Value) : bool :=
  match v with VError _ _ _ => true | _ => false end.

(** What [toString()] returned is a string. *)
Definition is_text (v : Value) : bool :=
  match v with VStr _ => true | _ => false end.

(** Before the view exists nothing has been posted and nothing listens;
    once it exists no list of functions is waiting. *)
Definition settled (p : TestPanel.PanelState) : Prop :=
  match TestPanel._view p with
  | None => TestPanel.posted p = [] /\ TestPanel.listeners p = []
  | Some _ => TestPanel._pendingFunctions p = None
  end.

(** The lens that runs the function of the given name. *)
Definition lens_of (functionName : string) (lens : Extension.CodeLens) : bool :=
  match Extension.lens_arguments lens with
  | [argument] => String.eqb argument functionName
  | _ => false
  end.

End MoreSpec.
(** * Properties of the signature extractor *)

Module ExtractorProofs.

Import CodeParser ExtractorSpec.
#[local] Open Scope list_scope.

(** Induction on trees: the property holds of a node when it holds of all
    its children. *)
Lemma Node_forall_ind (P : Node -> Prop) :
  (forall data children, Forall P children -> P (mkNode data children)) ->
  forall node, P node.
Proof.
  intros step. fix IH 1. intros [data children]. apply step.
  induction children as [|c cs IHcs]; constructor; [apply IH | exact IHcs].
Qed.

Lemma push_opt_app functions f :
  push_opt functions f = functions ++ option_list f.
Proof. destruct f; simpl; [reflexivity | now rewrite app_nil_r]. Qed.

Lemma declarations_pushed declarations : forall functions,
  foldl visit_declaration functions declarations
  = functions ++ omap extractFunctionFromVariable declarations.
Proof.
  induction declarations as [|d ds IH]; intros functions; simpl.
  - now rewrite app_nil_r.
  - rewrite IH. unfold visit_declaration, extractFunctionFromVariable.
    destruct (vd_initializer d) as [[s|s|]|]; simpl;
      rewrite <- ?app_assoc; reflexivity.
Qed.

Lemma members_pushed cls members : forall functions,
  foldl (visit_member cls) functions members
  = functions ++ method_descriptors cls members.
Proof.
  induction members as [|m ms IH]; intros functions; simpl.
  - now rewrite app_nil_r.
  - rewrite IH. unfold method_descriptors.
    destruct m as [ps|n s r|]; simpl; rewrite <- ?app_assoc; reflexivity.
Qed.

Lemma visit_node_app data functions :
  visit_node data functions = functions ++ declared_here data.
Proof.
  destruct data as [[n|] s r|declarations|[cls|] r members|]; simpl;
    rewrite ?app_nil_r; try reflexivity.
  - apply declarations_pushed.
  - rewrite members_pushed, <- app_assoc. reflexivity.
Qed.

Lemma visit_children data children functions :
  visit (mkNode data children) functions
  = forEachChild_visit children (visit_node data functions).
Proof.
  simpl. unfold forEachChild_visit.
  generalize (visit_node data functions).
  induction children as [|c cs IH]; intros acc; simpl; [reflexivity | apply IH].
Qed.

(** [visit] appends to the array the descriptors of the subtree, in the
    order of the traversal. *)
Lemma visit_traversal_order node : forall functions,
  visit node functions = functions ++ traversal_order node.
Proof.
  induction node as [data children IH] using Node_forall_ind.
  intros functions. rewrite visit_children, visit_node_app.
  cbn [traversal_order]. rewrite app_assoc.
  generalize (functions ++ declared_here data). clear functions.
  unfold forEachChild_visit.
  induction IH as [|c cs Hc _ IHcs]; intros acc; simpl.
  - now rewrite app_nil_r.
  - rewrite IHcs, Hc, <- app_assoc. reflexivity.
Qed.

Lemma parseFunctions_traversal_order ts sourceCode fileName sf :
  ts fileName sourceCode = Normal sf ->
  parseFunctions ts sourceCode fileName = Normal (traversal_order (root sf)).
Proof.
  intros Hparse. unfold parseFunctions. rewrite Hparse.
  now rewrite visit_traversal_order.
Qed.

Lemma omap_bindings_length declarations :
  length (omap extractFunctionFromVariable declarations)
  = length (filter is_function_binding declarations).
Proof.
  induction declarations as [|d ds IH]; [reflexivity|].
  cbn [omap list_omap]. rewrite filter_cons.
  unfold extractFunctionFromVariable, is_function_binding in *.
  destruct (vd_initializer d) as [[s|s|]|]; simpl; rewrite ?IH; reflexivity.
Qed.

Lemma declared_here_length data :
  is_class data = false -> length (declared_here data) = count_here data.
Proof.
  destruct data as [[n|] s r|declarations|cls r members|]; simpl;
    try reflexivity; try discriminate.
  intros _. apply omap_bindings_length.
Qed.

Lemma traversal_order_length node :
  no_class node = true ->
  length (traversal_order node) = count_declarations node.
Proof.
  induction node as [data children IH] using Node_forall_ind.
  cbn [no_class traversal_order count_declarations].
  intros [Hdata Hchildren]%andb_prop.
  rewrite length_app, declared_here_length
    by now apply negb_true_iff.
  f_equal.
  induction IH as [|c cs Hc _ IHcs]; [reflexivity|].
  simpl in Hchildren. apply andb_prop in Hchildren as [Hc' Hcs'].
  simpl. rewrite length_app, Hc, IHcs by assumption. reflexivity.
Qed.

Lemma occurs_traversal_order n t :
  occurs n t ->
  exists before after,
    traversal_order t = before ++ traversal_order n ++ after.
Proof.
  induction 1 as [|data children c Hin _ (before & after & IH)].
  - exists [], []. now rewrite app_nil_r.
  - apply in_split in Hin as (l1 & l2 & ->).
    cbn [traversal_order]. rewrite flat_map_app. cbn [flat_map]. rewrite IH.
    exists (declared_here data ++ flat_map traversal_order l1 ++ before),
           (after ++ flat_map traversal_order l2).
    now rewrite <- !app_assoc.
Qed.

Lemma traversal_order_nil node :
  no_class node = true -> count_declarations node = 0 -> traversal_order node = [].
Proof.
  intros Hclass Hcount. apply length_zero_iff_nil.
  now rewrite traversal_order_length.
Qed.

Lemma named_function_counted node :
  is_named_function node = true -> 1 <= count_declarations node.
Proof.
  destruct node as [[[n|] s r|ds|c r ms|] cs]; simpl; try discriminate. lia.
Qed.

Lemma top_level_at_most children :
  length (filter (fun n => is_named_function n = true) children)
  <= list_sum (map count_declarations children).
Proof.
  induction children as [|c cs IH]; [reflexivity|].
  rewrite filter_cons. simpl.
  destruct (decide (is_named_function c = true)) as [Hc|Hc]; simpl.
  - apply named_function_counted in Hc. lia.
  - lia.
Qed.

Lemma single_function_descriptor c :
  no_class c = true -> is_named_function c = true -> count_declarations c = 1 ->
  exists info, descriptor_of_function c = Some info /\ traversal_order c = [info].
Proof.
  destruct c as [[[n|] s r|ds|cl r ms|] cs]; simpl; try discriminate.
  intros Hclass _ Hcount. eexists; split; [reflexivity|].
  enough (flat_map traversal_order cs = []) as -> by reflexivity.
  assert (Hsum : list_sum (map count_declarations cs) = 0) by lia.
  clear Hcount. induction cs as [|c cs IH]; [reflexivity|].
  simpl in *. apply andb_prop in Hclass as [Hc Hcs].
  rewrite (traversal_order_nil c) by (assumption || lia).
  apply IH; [assumption | lia].
Qed.

Lemma only_top_level_functions children :
  forallb no_class children = true ->
  list_sum (map count_declarations children)
  = length (filter (fun n => is_named_function n = true) children) ->
  flat_map traversal_order children
  = omap descriptor_of_function (filter (fun n => is_named_function n = true) children).
Proof.
  induction children as [|c cs IH]; [reflexivity|].
  rewrite filter_cons. simpl.
  intros [Hc Hcs]%andb_prop Hsum.
  pose proof (top_level_at_most cs) as Hle.
  destruct (decide (is_named_function c = true)) as [Hn|Hn].
  - pose proof (named_function_counted c Hn) as H1.
    cbn [length] in Hsum.
    destruct (single_function_descriptor c Hc Hn) as (info & Hd & Ho); [lia|].
    cbn [omap list_omap]. rewrite Hd, Ho, IH by (assumption || lia).
    reflexivity.
  - rewrite (traversal_order_nil c) by (assumption || lia).
    apply IH; [assumption | lia].
Qed.

(** ** The claims about [parseFunctions] *)

(** C2, with the syntax check removed.  The outcome of [parseFunctions] is
    the outcome of the parser call: when the parser returns a tree the
    result is the ordered list of the descriptors of that tree, whatever
    syntax errors the tree records; the call fails only when the parser
    itself raises, and then with the value the parser raised. *)
Theorem parseFunctions_follows_parser ts sourceCode fileName r :
  ts fileName sourceCode = r ->
  parseFunctions ts sourceCode fileName
  = match r with
    | Normal sf => Normal (traversal_order (root sf))
    | Throw e => Throw e
    | Hang => Hang
    end.
Proof.
  intros <-. destruct (ts fileName sourceCode) as [sf|e|] eqn:Hparse.
  - now apply parseFunctions_traversal_order.
  - unfold parseFunctions. now rewrite Hparse.
  - unfold parseFunctions. now rewrite Hparse.
Qed.

Lemma parseFunctions_follows_parser_witness :
  parseFunctions sample_parser ")" "temp.ts"
  = Normal (traversal_order (root stray_paren_tree)).
Proof.
  exact (parseFunctions_follows_parser sample_parser ")" "temp.ts"
           (Normal stray_paren_tree) eq_refl).
Defined.

(** C2 as stated fails: the text [")"] is not a program, the parser says so
    in its diagnostics, and [parseFunctions] returns the empty descriptor
    list instead of failing. *)
Lemma stray_paren_is_not_rejected :
  sample_parser "temp.ts" ")" = Normal stray_paren_tree
  /\ has_syntax_errors stray_paren_tree
  /\ parseFunctions sample_parser ")" "temp.ts" = Normal []
  /\ ~ (exists e, parseFunctions sample_parser ")" "temp.ts" = Throw e).
Proof.
  repeat split; try reflexivity.
  - discriminate.
  - intros [e He]. discriminate He.
Qed.

(** C6, counting at every depth.  For a source without class declarations,
    [parseFunctions] returns exactly one descriptor for each named function
    declaration and each function-valued variable binding anywhere in the
    tree, in the order of the traversal: the descriptors of a statement,
    then those of the declarations nested in it, then those of the
    statements after it.  When the declarations are just the N top-level
    function declarations, it returns the N descriptors of those, in their
    order. *)
Theorem extract_functions_at_every_depth ts sourceCode fileName sf :
  ts fileName sourceCode = Normal sf ->
  no_class (root sf) = true ->
  exists l,
    parseFunctions ts sourceCode fileName = Normal l
    /\ l = traversal_order (root sf)
    /\ length l = count_declarations (root sf)
    /\ (count_declarations (root sf) = length (top_level_functions (root sf)) ->
        l = omap descriptor_of_function (top_level_functions (root sf))).
Proof.
  intros Hparse Hclass. exists (traversal_order (root sf)).
  split; [now apply parseFunctions_traversal_order|].
  split; [reflexivity|].
  split; [now apply traversal_order_length|].
  destruct (root sf) as [data children].
  cbn [count_declarations top_level_functions traversal_order no_class] in *.
  apply andb_prop in Hclass as [Hdata Hchildren]. intros Hcount.
  pose proof (top_level_at_most children) as Hle.
  rewrite <- (declared_here_length data) in Hcount by now apply negb_true_iff.
  assert (Hhere : declared_here data = [])
    by (apply length_zero_iff_nil; lia).
  rewrite Hhere in *. simpl in *.
  now apply only_top_level_functions.
Qed.

Lemma extract_functions_at_every_depth_witness :
  exists l,
    parseFunctions sample_parser nested_source "temp.ts" = Normal l
    /\ l = traversal_order (root nested_tree)
    /\ length l = count_declarations (root nested_tree)
    /\ (count_declarations (root nested_tree)
        = length (top_level_functions (root nested_tree)) ->
        l = omap descriptor_of_function (top_level_functions (root nested_tree))).
Proof.
  exact (extract_functions_at_every_depth sample_parser nested_source "temp.ts"
           nested_tree eq_refl eq_refl).
Defined.

(** C6 as stated fails, in its count and in its order.  The source
    [nested_source] has one top-level function declaration and no class,
    and [parseFunctions] returns two descriptors, [outer] and the nested
    [inner].  The source [bindings_source] has no class either, and the
    descriptor of [inner], declared on the second line, comes after the
    descriptor of [b], declared on the third. *)
Lemma nested_function_is_extracted :
  (sample_parser "temp.ts" nested_source = Normal nested_tree
   /\ no_class (root nested_tree) = true
   /\ length (top_level_functions (root nested_tree)) = 1
   /\ exists l,
        parseFunctions sample_parser nested_source "temp.ts" = Normal l
        /\ map name l = ["outer"; "inner"]
        /\ length l <> 1)
  /\ (sample_parser "temp.ts" bindings_source = Normal bindings_tree
      /\ no_class (root bindings_tree) = true
      /\ exists l,
           parseFunctions sample_parser bindings_source "temp.ts" = Normal l
           /\ map name l = ["a"; "b"; "inner"]
           /\ map startLine l = [1; 3; 2]).
Proof.
  split.
  - repeat split; try reflexivity.
    eexists. repeat split; try reflexivity. discriminate.
  - repeat split; try reflexivity.
    eexists. repeat split; reflexivity.
Qed.

Lemma method_descriptors_names cls members :
  map name (method_descriptors cls members)
  = map (fun m => cls +:+ "." +:+ m) (method_names members).
Proof.
  unfold method_descriptors, method_names.
  induction members as [|m ms IH]; [reflexivity|].
  destruct m as [ps|n s r|]; simpl; [exact IH | | exact IH].
  f_equal. exact IH.
Qed.

Lemma method_descriptors_kind cls members :
  Forall (fun f => className f = Some cls /\ isClass f = None)
         (method_descriptors cls members).
Proof.
  unfold method_descriptors.
  induction members as [|m ms IH]; [constructor|].
  destruct m as [ps|n s r|]; simpl; try assumption.
  constructor; [split; reflexivity | assumption].
Qed.

(** *** A class and what follows it *)

Lemma starts_plain_app l1 l2 :
  starts_plain l1 -> starts_plain l2 -> starts_plain (l1 ++ l2).
Proof. destruct l1; simpl; auto. Qed.

Lemma declared_here_starts_plain data : starts_plain (declared_here data).
Proof.
  destruct data as [[n|] s r|declarations|[cls|] r members|]; simpl; auto.
  induction declarations as [|d ds IH]; simpl; [exact I|].
  unfold extractFunctionFromVariable at 1.
  destruct (vd_initializer d) as [[s|s|]|]; simpl; auto.
Qed.

Lemma flat_map_starts_plain (f : Node -> list FunctionInfo) children :
  Forall (fun c => starts_plain (f c)) children ->
  starts_plain (flat_map f children).
Proof.
  induction 1 as [|c cs Hc _ IH]; simpl; [exact I|].
  now apply starts_plain_app.
Qed.

(** No subtree starts its descriptors with a method: a method is always
    preceded by its class or by a sibling. *)
Lemma traversal_order_starts_plain node : starts_plain (traversal_order node).
Proof.
  induction node as [data children IH] using Node_forall_ind.
  cbn [traversal_order]. apply starts_plain_app.
  - apply declared_here_starts_plain.
  - now apply flat_map_starts_plain.
Qed.

Lemma occurs_block n t :
  occurs n t ->
  exists before after,
    traversal_order t = before ++ traversal_order n ++ after
    /\ starts_plain after.
Proof.
  induction 1 as [|data children c Hin _ (before & after & IH & Hafter)].
  - exists [], []. split; [now rewrite app_nil_r | exact I].
  - apply in_split in Hin as (l1 & l2 & ->).
    cbn [traversal_order]. rewrite flat_map_app. cbn [flat_map]. rewrite IH.
    exists (declared_here data ++ flat_map traversal_order l1 ++ before),
           (after ++ flat_map traversal_order l2).
    split; [now rewrite <- !app_assoc|].
    apply starts_plain_app; [exact Hafter|].
    apply flat_map_starts_plain, Forall_forall.
    intros c' _. apply traversal_order_starts_plain.
Qed.

Lemma find_constructor_first earlier ps later :
  Forall (fun m => is_constructor m = false) earlier ->
  find_constructor (earlier ++ Constructor ps :: later) = Some ps.
Proof.
  induction 1 as [|m ms Hm _ IH]; [reflexivity|].
  destruct m; simpl in *; [discriminate | exact IH | exact IH].
Qed.

Lemma find_constructor_none members :
  Forall (fun m => is_constructor m = false) members ->
  find_constructor members = None.
Proof.
  induction 1 as [|m ms Hm _ IH]; [reflexivity|].
  destruct m; simpl in *; [discriminate | exact IH | exact IH].
Qed.

Lemma parameterInfo_describes ps :
  Forall2 describes ps (map parameterInfo ps).
Proof.
  induction ps as [|p ps IH]; constructor; [|exact IH].
  unfold describes, parameterInfo. simpl.
  repeat split; try now destruct (pd_type p).
Qed.

Lemma method_descriptors_plain cls members :
  List.filter constructor_kind (method_descriptors cls members) = [].
Proof.
  unfold method_descriptors.
  induction members as [|m ms IH]; [reflexivity|].
  destruct m as [ps|n s r|]; simpl; exact IH.
Qed.

Lemma bindings_plain declarations :
  List.filter constructor_kind (omap extractFunctionFromVariable declarations) = [].
Proof.
  induction declarations as [|d ds IH]; [reflexivity|].
  cbn [omap list_omap]. unfold extractFunctionFromVariable at 1.
  destruct (vd_initializer d) as [[s|s|]|]; simpl; exact IH.
Qed.

Lemma declared_here_classes data :
  length (List.filter constructor_kind (declared_here data)) = class_here data.
Proof.
  destruct data as [[n|] s r|declarations|[cls|] r members|]; simpl;
    try reflexivity.
  - now rewrite bindings_plain.
  - now rewrite method_descriptors_plain.
Qed.

(** One constructor-kind descriptor for each class declaration. *)
Lemma traversal_order_classes node :
  length (List.filter constructor_kind (traversal_order node)) = count_classes node.
Proof.
  induction node as [data children IH] using Node_forall_ind.
  cbn [traversal_order count_classes].
  rewrite List.filter_app, length_app, declared_here_classes. f_equal.
  induction IH as [|c cs Hc _ IHcs]; [reflexivity|].
  simpl. rewrite List.filter_app, length_app, Hc, IHcs. reflexivity.
Qed.

(** C7.  For every class declaration (declared with a name) found in the
    source, [parseFunctions] emits a constructor descriptor -- named after
    the class, returning the class, with the parameters of the first
    declared constructor (name, declared type or [any], optional mark), or
    none when no constructor is declared -- immediately followed by one
    descriptor per method, in the order of the members, each named
    [Class.method] and owned by the class; what comes next is not a
    method.  The constructor descriptors of the whole result are as many
    as the class declarations of the source. *)
Theorem class_then_methods ts sourceCode fileName sf cls r members children :
  ts fileName sourceCode = Normal sf ->
  occurs (mkNode (ClassDeclaration (Some cls) r members) children) (root sf) ->
  exists before ctor methods after,
    parseFunctions ts sourceCode fileName
    = Normal (before ++ ctor :: methods ++ after)
    /\ constructor_kind ctor = true
    /\ method_kind ctor = false
    /\ name ctor = cls
    /\ returnType ctor = cls
    /\ (forall earlier ps later,
          members = earlier ++ Constructor ps :: later ->
          Forall (fun m => is_constructor m = false) earlier ->
          Forall2 describes ps (parameters ctor))
    /\ (Forall (fun m => is_constructor m = false) members ->
        parameters ctor = [])
    /\ map name methods = map (fun m => cls +:+ "." +:+ m) (method_names members)
    /\ Forall (fun f => className f = Some cls /\ constructor_kind f = false) methods
    /\ starts_plain after
    /\ length (List.filter constructor_kind (before ++ ctor :: methods ++ after))
       = count_classes (root sf).
Proof.
  intros Hparse Hoccurs.
  apply occurs_block in Hoccurs as (before & after & Horder & Hafter).
  cbn [traversal_order declared_here] in Horder.
  assert (Hlist : traversal_order (root sf)
                  = before ++ constructor_descriptor cls r members
                      :: method_descriptors cls members
                      ++ (flat_map traversal_order children ++ after)).
  { rewrite Horder. simpl. now rewrite <- !app_assoc. }
  exists before, (constructor_descriptor cls r members),
    (method_descriptors cls members),
    (flat_map traversal_order children ++ after).
  split; [now rewrite (parseFunctions_traversal_order _ _ _ _ Hparse), Hlist|].
  do 4 (split; [reflexivity|]).
  split.
  { intros earlier ps later -> Hearlier. cbn [constructor_descriptor parameters].
    rewrite (find_constructor_first _ _ _ Hearlier).
    apply parameterInfo_describes. }
  split.
  { intros Hnone. cbn [constructor_descriptor parameters].
    now rewrite (find_constructor_none _ Hnone). }
  split; [apply method_descriptors_names|].
  split.
  { eapply Forall_impl; [apply method_descriptors_kind|].
    intros f [Hcls Hkind]. split; [exact Hcls|].
    unfold constructor_kind. now rewrite Hkind. }
  split.
  { apply starts_plain_app; [|exact Hafter].
    apply flat_map_starts_plain, Forall_forall.
    intros c _. apply traversal_order_starts_plain. }
  rewrite <- Hlist. apply traversal_order_classes.
Qed.

Lemma class_then_methods_witness :
  exists before ctor methods after,
    parseFunctions sample_parser calc_source "temp.ts"
    = Normal (before ++ ctor :: methods ++ after)
    /\ constructor_kind ctor = true
    /\ method_kind ctor = false
    /\ name ctor = "Calc"
    /\ returnType ctor = "Calc"
    /\ (forall earlier ps later,
          calc_members = earlier ++ Constructor ps :: later ->
          Forall (fun m => is_constructor m = false) earlier ->
          Forall2 describes ps (parameters ctor))
    /\ (Forall (fun m => is_constructor m = false) calc_members ->
        parameters ctor = [])
    /\ map name methods
       = map (fun m => "Calc" +:+ "." +:+ m) (method_names calc_members)
    /\ Forall (fun f => className f = Some "Calc" /\ constructor_kind f = false)
         methods
    /\ starts_plain after
    /\ length (List.filter constructor_kind (before ++ ctor :: methods ++ after))
       = count_classes (root calc_tree).
Proof.
  refine (class_then_methods sample_parser calc_source "temp.ts" calc_tree "Calc"
            _ calc_members _ eq_refl _).
  eapply occurs_below; [left; reflexivity | apply occurs_here].
Defined.

End ExtractorProofs.

(** * Properties of the execution engine *)

Module EngineProofs.

Import JsString CodeExecutor EngineSpec.
#[local] Open Scope list_scope.

(** ** Strings *)

Lemma length_append (s1 s2 : string) :
  String.length (s1 +:+ s2) = String.length s1 + String.length s2.
Proof. induction s1 as [|c s1 IH]; simpl; [reflexivity | now rewrite IH]. Qed.

(** Lengths in code units. *)
Lemma length16_append (s1 s2 : string) :
  length16 (s1 +:+ s2) = length16 s1 + length16 s2.
Proof.
  induction s1 as [|c s1 IH]; simpl; [reflexivity|]. rewrite IH. lia.
Qed.

Lemma units_of_cases c : units_of c = 0 \/ units_of c = 1 \/ units_of c = 2.
Proof.
  unfold units_of.
  destruct ((128 <=? byte c)%N && (byte c <? 192)%N); [now left|].
  destruct (240 <=? byte c)%N; auto.
Qed.

Lemma units_of_continuation k : units_of (ascii_of_N (128 + k mod 64)) = 0.
Proof.
  assert (Hk : (k mod 64 < 64)%N) by (apply N.mod_lt; discriminate).
  unfold units_of, byte. rewrite N_ascii_embedding by lia.
  assert (Hlow : (128 <=? 128 + k mod 64)%N = true) by (apply N.leb_le, N.le_add_r).
  assert (Hhigh : (128 + k mod 64 <? 192)%N = true) by (apply N.ltb_lt; lia).
  rewrite Hlow, Hhigh. reflexivity.
Qed.

Lemma length16_high_surrogate c rest : length16 (high_surrogate c rest) = 1.
Proof.
  unfold high_surrogate. cbn [length16].
  rewrite !units_of_continuation. reflexivity.
Qed.

(** The first [n] code units are [n] code units. *)
Lemma length16_substring_0 s : forall n,
  n <= length16 s -> length16 (substring_0 n s) = n.
Proof.
  induction s as [|c s IH]; intros n Hn; simpl in *; [lia|].
  destruct (units_of_cases c) as [Hc|[Hc|Hc]]; rewrite Hc in *; simpl.
  - rewrite Hc. simpl. now apply IH.
  - destruct n as [|n]; simpl; [reflexivity|].
    rewrite Hc, IH by lia. reflexivity.
  - destruct n as [|[|n]]; simpl; [reflexivity | apply length16_high_surrogate |].
    rewrite Hc, IH by lia. reflexivity.
Qed.

Lemma split_nonempty sep s : split sep s <> [].
Proof.
  destruct s as [|c s]; simpl; [discriminate|].
  destruct (Ascii.eqb c sep); [discriminate|].
  destruct (split sep s); discriminate.
Qed.

(** Joining the pieces gives the text back. *)
Lemma join_split sep s : join sep (split sep s) = s.
Proof.
  induction s as [|c s IH]; [reflexivity|].
  cbn [split]. destruct (Ascii.eqb_spec c sep) as [->|Hne].
  - pose proof (split_nonempty sep s) as Hnil.
    destruct (split sep s) as [|p ps]; [contradiction|].
    cbn [join] in *. now rewrite IH.
  - pose proof (split_nonempty sep s) as Hnil.
    destruct (split sep s) as [|p ps]; [contradiction|].
    destruct ps as [|q qs]; cbn [join] in *; now rewrite <- IH.
Qed.

Lemma includes_char_cons c d s :
  includes (String d s) (String c EmptyString)
  = Ascii.eqb c d || includes s (String c EmptyString).
Proof.
  cbn [includes String.prefix].
  destruct (ascii_dec c d) as [->|Hne].
  - rewrite Ascii.eqb_refl. now destruct s.
  - apply Ascii.eqb_neq in Hne. now rewrite Hne.
Qed.

(** No piece contains the separator. *)
Lemma split_pieces sep s :
  Forall (fun piece => includes piece (String sep EmptyString) = false) (split sep s).
Proof.
  induction s as [|c s IH]; [repeat constructor|].
  cbn [split]. destruct (Ascii.eqb c sep) eqn:Hc.
  - constructor; [reflexivity | exact IH].
  - destruct (split sep s) as [|p ps]; [repeat constructor|].
    + rewrite includes_char_cons, Ascii.eqb_sym, Hc. reflexivity.
    + inversion IH as [|? ? Hp Hps]; subst. constructor; [|exact Hps].
      rewrite includes_char_cons, Ascii.eqb_sym, Hc. exact Hp.
Qed.

(** ** Computations *)

Section Steps.

Context {S A B : Type}.

Lemma bind_normal (m : M S A) (k : A -> M S B) s a s' :
  m s = (Normal a, s') -> bind m k s = k a s'.
Proof. unfold bind. now intros ->. Qed.

Lemma try_catch_normal (m : M S A) handler s a s' :
  m s = (Normal a, s') -> try_catch m handler s = (Normal a, s').
Proof. unfold try_catch. now intros ->. Qed.

End Steps.

Lemma mapM_ext {S A B} (f g : A -> M S B) xs :
  (forall x s, f x s = g x s) -> forall s, mapM f xs s = mapM g xs s.
Proof.
  intros Hfg. induction xs as [|x xs IH]; intros s; [reflexivity|].
  cbn [mapM]. unfold bind. rewrite Hfg.
  destruct (g x s) as [[y|e|] s1]; try reflexivity.
  rewrite IH. reflexivity.
Qed.

Lemma mapM_map {S A B C} (f : B -> M S C) (g : A -> B) xs : forall s,
  mapM f (map g xs) s = mapM (fun x => f (g x)) xs s.
Proof.
  induction xs as [|x xs IH]; intros s; [reflexivity|].
  cbn [mapM map]. unfold bind.
  destruct (f (g x) s) as [[y|e|] s1]; try reflexivity.
  rewrite IH. reflexivity.
Qed.

(** ** The engine boundary *)

(** A value escapes [executeFunction] only out of its [catch] block, when
    reading [error.message] or converting the error to text throws. *)
Lemma executeFunction_escape H code fname args isAsync testArgs t0 t1 heap e' :
  fst (executeFunction H code fname args isAsync testArgs t0 t1 heap) = Throw e' ->
  exists e, error_text H e = Throw e'.
Proof.
  unfold executeFunction, try_catch.
  match goal with |- context [match ?body heap with _ => _ end] =>
    destruct (body heap) as [[o|e|] heap1] end; simpl; try discriminate.
  unfold bind, lift, ret.
  destruct (error_text H e) as [text|e2|] eqn:Htext; simpl; try discriminate.
  intros [= <-]. now exists e.
Qed.

(** What is caught is turned into a failed outcome, timed by the two clock
    readings, whenever the error has a text. *)
Lemma executeFunction_failure H code fname args isAsync testArgs t0 t1 heap o :
  fst (executeFunction H code fname args isAsync testArgs t0 t1 heap) = Normal o ->
  executionTime o = Some (t1 - t0)%Z
  /\ (success o = true /\ error o = None \/ success o = false /\ result o = None).
Proof.
  unfold executeFunction, try_catch.
  match goal with |- context [match ?body heap with _ => _ end] =>
    destruct (body heap) as [[o1|e|] heap1] eqn:Hbody end; simpl; try discriminate.
  - intros [= <-]. revert Hbody. unfold bind, lift, ret.
    repeat match goal with
           | |- context [match ?c with _ => _ end] => destruct c; try discriminate
           end.
    intros [= <- _]. simpl. auto.
  - unfold bind, lift, ret.
    destruct (error_text H e) as [text|e2|]; simpl; try discriminate.
    intros [= <-]. simpl. auto.
Qed.

(** With a clock that does not run backwards, the elapsed time of every
outcome is not negative. *)
Lemma executeFunction_elapsed H code fname args isAsync testArgs t0 t1 heap o :
  (t0 <= t1)%Z ->
  fst (executeFunction H code fname args isAsync testArgs t0 t1 heap) = Normal o ->
  exists ms, executionTime o = Some ms /\ (0 <= ms)%Z.
Proof.
  intros Hclock Ho. apply executeFunction_failure in Ho as [Htime _].
  exists (t1 - t0)%Z. split; [exact Htime | lia].
Qed.

(** C1 fails on the code.  A target that throws [null] -- [fail_source] --
    makes the [catch] block of [executeFunction] read [null.message]: the
    TypeError raised there is not caught, so the call itself raises
    instead of returning a failed outcome. *)
Theorem thrown_null_escapes :
  fst (execute Sample.host
         (Sample.request Sample.fail_source "fail" [] None) Sample.pristine)
  = Throw (TypeError "Cannot read properties of null (reading 'message')").
Proof. vm_compute. reflexivity. Qed.

(** C4 fails on the code.  [count] declares one ordinary parameter and
    spreads it in its body; its source text contains three dots, so the
    engine takes it for variadic and passes the elements of the single
    array argument one by one.  Called with the array as the claim says
    ([count([1,2,3])]) it returns 3; the engine reports a failure. *)
Theorem spread_without_rest_parameter :
  let st := (vm_createContext Sample.host
               {| globals := createSandbox; _argsData := ["[1,2,3]"];
                  _testArgsStr := ""; _functionName := "count" |},
             Sample.pristine) in
  let defined := snd (vm_runInContext Sample.host Sample.count_source st) in
  includes Sample.count_source "..." = true
  /\ fst (call_target Sample.host "count"
            [VArr [VNum 1%float; VNum 2%float; VNum 3%float]] defined)
     = Normal (VNum 3%float)
  /\ fst (execute Sample.host
            (Sample.request Sample.count_source "count"
               [ {| arg_value := "[1,2,3]"; arg_type := "number[]" |} ] None)
            Sample.pristine)
     = Normal {| success := false; result := None;
                 error := Some (VStr "list is not iterable");
                 executionTime := Some 3%Z |}.
Proof. vm_compute. repeat split. Qed.

(** ** Materialization *)

Lemma mapMi_map {S A B C} (f : nat -> B -> M S C) (g : A -> B) (h : A -> M S C) xs :
  (forall i x s, f i (g x) s = h x s) ->
  forall i s, mapMi_from f i (map g xs) s = mapM h xs s.
Proof.
  intros Hfg. induction xs as [|x xs IH]; intros i s; [reflexivity|].
  cbn [map mapMi_from mapM]. unfold bind. rewrite Hfg.
  destruct (h x s) as [[y|e|] s1]; try reflexivity.
  now rewrite IH.
Qed.

(** The tail of the chain is keyword, number, quoted text, text. *)
Lemma plain_chain H trimmed st :
  first_match H [h_keyword H; h_number H; h_quoted H] trimmed st
  = (Normal (parse_plain H trimmed), st).
Proof.
  cbn [first_match]. unfold h_keyword, h_number, h_quoted, bind, ret.
  unfold keyword_value, parse_plain.
  repeat (destruct (String.eqb trimmed _); [reflexivity|]).
  destruct (isNaN (Number_ H trimmed)); [|reflexivity].
  destruct (quoted trimmed); reflexivity.
Qed.

(** As long as the evaluated texts leave [console], [Number] and [isNaN]
    alone, the tail of the callback is that tail. *)
Lemma parse_tail_standard H index trimmed st :
  standard_frame H ->
  parse_tail H index trimmed st = (Normal (parse_plain H trimmed), st).
Proof.
  intros (Hquiet & Hnumbers & _). unfold parse_tail, parse_plain.
  repeat (destruct (String.eqb trimmed _); [reflexivity|]).
  destruct (Hnumbers trimmed st) as [HNumber HisNaN].
  unfold bind. rewrite HNumber, HisNaN. cbn [truthy].
  destruct (isNaN (Number_ H trimmed)); [|reflexivity]. cbn [negb].
  destruct (quoted trimmed); [reflexivity|].
  now rewrite Hquiet.
Qed.

Lemma try_sandbox_JSON_standard H trimmed st :
  standard_frame H ->
  try_sandbox_JSON_parse H trimmed st = try_JSON_parse H trimmed st.
Proof.
  intros (_ & _ & Hjson).
  unfold try_sandbox_JSON_parse, try_JSON_parse, try_catch, bind, lift.
  now rewrite Hjson.
Qed.

(** The callback of [_argsData.map] is the first-match chain (a) to (h)
    with the annotation test made on the raw text, and with the cleaning
    that the snippet does. *)
Lemma parseArg_chain H index arg st :
  standard_frame H ->
  parseArg H index (arg_value arg) st = materialize_raw_only H clean arg st.
Proof.
  intros Hframe. pose proof Hframe as (Hquiet & _ & _).
  unfold parseArg, materialize_raw_only, materialize_chain.
  set (trimmed := trim (arg_value arg)).
  unfold bind at 1. rewrite Hquiet.
  destruct (isEmpty trimmed); [reflexivity|].
  change (first_match H (?h1 :: ?h2 :: ?rest) trimmed)
    with (do r <- h1 trimmed;
          match r with
          | Some v => ret v
          | None =>
              do r2 <- h2 trimmed;
              match r2 with
              | Some v => ret v
              | None => first_match H rest trimmed
              end
          end).
  unfold h_expression, h_structured, bind, ret, lift.
  destruct (has_annotation trimmed).
  - destruct (_transpileTS H trimmed) as [js|e|]; try reflexivity.
    rewrite !Hquiet.
    destruct (try_eval H (clean js) st) as [[[v|]|e|] st1]; try reflexivity.
    destruct (startsWith trimmed "{" || startsWith trimmed "[").
    + rewrite try_sandbox_JSON_standard by exact Hframe.
      destruct (try_JSON_parse H trimmed st1) as [[[v|]|e|] st2]; try reflexivity.
      now rewrite parse_tail_standard, plain_chain.
    + now rewrite parse_tail_standard, plain_chain.
  - destruct (try_eval H trimmed st) as [[[v|]|e|] st1]; try reflexivity.
    destruct (startsWith trimmed "{" || startsWith trimmed "[").
    + rewrite try_sandbox_JSON_standard by exact Hframe.
      destruct (try_JSON_parse H trimmed st1) as [[[v|]|e|] st2]; try reflexivity.
      now rewrite parse_tail_standard, plain_chain.
    + now rewrite parse_tail_standard, plain_chain.
Qed.

Lemma keyword_cases text v :
  keyword_value text = Some v ->
  text = "true" /\ v = VBool true \/ text = "false" /\ v = VBool false
  \/ text = "null" /\ v = VNull \/ text = "undefined" /\ v = VUndefined
  \/ text = "NaN" /\ v = VNum nan \/ text = "Infinity" /\ v = VNum infinity.
Proof.
  unfold keyword_value.
  repeat (match goal with
          | |- context [String.eqb text ?k] =>
              destruct (String.eqb_spec text k) as [->|_]
          end;
          [intros [= <-];
           solve [repeat first [split; reflexivity | left; split; reflexivity | right]]|]).
  discriminate.
Qed.

(** A literal keyword is materialized as its value: by [eval] when [eval]
    gives a value, by the keyword test otherwise. *)
Lemma chain_keyword H cleaner text declaredType v st :
  eval_respects_literals H ->
  keyword_value text = Some v ->
  fst (materialize_raw_only H cleaner
         {| arg_value := text; arg_type := declaredType |} st)
  = Normal v.
Proof.
  intros Heval Hkw. pose proof (Heval text v st Hkw) as Hr.
  assert (Hshape : trim text = text /\ has_annotation text = false
                   /\ startsWith text "{" || startsWith text "[" = false
                   /\ isEmpty text = false).
  { apply keyword_cases in Hkw.
    destruct Hkw as [[-> ->]|[[-> ->]|[[-> ->]|[[-> ->]|[[-> ->]|[-> ->]]]]]];
      repeat split; reflexivity. }
  destruct Hshape as (Htrim & Hann & Hopen & Hne).
  unfold materialize_raw_only, materialize_chain. cbn [arg_value arg_type].
  rewrite Htrim, Hne, Hann.
  cbn [first_match]. unfold h_expression, h_structured, h_keyword.
  rewrite Hopen. unfold try_eval, try_catch, bind, ret.
  destruct (sandbox_eval H ("(" +:+ text +:+ ")") st) as [[r|e|] st1];
    simpl in *.
  - now subst r.
  - now rewrite Hkw.
  - contradiction.
Qed.


Lemma sample_standard_frame : standard_frame Sample.host.
Proof. repeat split. Defined.

Lemma sample_eval_respects_literals : eval_respects_literals Sample.host.
Proof.
  intros text v st Hkw. apply keyword_cases in Hkw.
  destruct Hkw as [[-> ->]|[[-> ->]|[[-> ->]|[[-> ->]|[[-> ->]|[-> ->]]]]]];
    reflexivity.
Defined.



(** ** The path to a successful outcome *)

Lemma executeFunction_success H code fname args isAsync testArgs t0 t1 heap
    jsCode final heap' serialized :
  transpileTypeScript H code = Normal jsCode ->
  vm_Script H jsCode = Normal tt ->
  in_context H (vm_createContext H (sandbox_of fname args testArgs))
    (run vm_runInContext H jsCode;
     run lift (vm_Script_invocation H fname isAsync);
     do promised <- invocationSnippet H (sandbox_of fname args testArgs) isAsync;
     lift (await promised)) heap
  = (Normal final, heap') ->
  serializeResult H final = Normal serialized ->
  executeFunction H code fname args isAsync testArgs t0 t1 heap
  = (Normal {| success := true; result := Some serialized; error := None;
               executionTime := Some (t1 - t0)%Z |}, heap').
Proof.
  intros Htrans Hscript Hrun Hser.
  unfold executeFunction. apply try_catch_normal.
  erewrite bind_normal by (unfold lift; rewrite Htrans; reflexivity).
  erewrite bind_normal by (unfold lift; rewrite Hscript; reflexivity).
  erewrite bind_normal by exact Hrun.
  erewrite bind_normal by (unfold lift; rewrite Hser; reflexivity).
  reflexivity.
Qed.

Lemma after_primary {S A B C} (define : M S unit) (check : M S unit)
    (primary : M S A) (k : A -> M S B) (g : B -> M S C) s r s1 :
  (run define; run check; primary) s = (Normal r, s1) ->
  (run define; run check; do promised <- (do result <- primary; k result); g promised) s
  = (do promised <- k r; g promised) s1.
Proof.
  unfold bind.
  destruct (define s) as [[u|e|] sa]; try discriminate.
  destruct (check sa) as [[u'|e|] sb]; try discriminate.
  destruct (primary sb) as [[a|e|] sc]; try discriminate.
  now intros [= -> ->].
Qed.

Lemma trim_empty s : isEmpty s = true -> isEmpty (trim s) = true.
Proof. destruct s; [reflexivity | discriminate]. Qed.

(** The callback of the follow-up step: numeric coercion, else
    [JSON.parse], else the text. *)
Lemma parseTestArg_piece H piece st :
  parseTestArg H piece st = (materialize_piece H piece, st).
Proof.
  unfold parseTestArg, materialize_piece.
  destruct (isNaN (Number_ H (trim piece))); [|reflexivity]. cbn [negb].
  unfold try_JSON_parse, try_catch, bind, lift, ret.
  destruct (JSON_parse H (trim piece)); reflexivity.
Qed.

Lemma mapM_pieces H pieces values st :
  Forall2 (fun piece v => materialize_piece H piece = Normal v) pieces values ->
  mapM (parseTestArg H) pieces st = (Normal values, st).
Proof.
  induction 1 as [|piece v pieces values Hv _ IH]; [reflexivity|].
  cbn [mapM]. unfold bind. rewrite parseTestArg_piece, Hv, IH. reflexivity.
Qed.

(** The follow-up step on a callable result, with follow-up text that is
    not blank, when its two log lines return. *)
Lemma followUp_callable H isAsync testArgsStr callable values st sa sb :
  typeof_function callable = true ->
  isEmpty (trim testArgsStr) = false ->
  console_log H [VStr "[沙箱执行] 检测到返回函数，测试参数:"; VStr testArgsStr] st
  = (Normal tt, sa) ->
  Forall2 (fun piece v => materialize_piece H piece = Normal v)
    (split "," testArgsStr) values ->
  console_log H [VStr "[沙箱执行] 测试参数解析:"; VArr values] sa = (Normal tt, sb) ->
  followUp H isAsync testArgsStr callable st
  = maybe_await H isAsync (call_value H callable values) sb.
Proof.
  intros Hcallable Hblank Hfirst Hvalues Hsecond.
  unfold followUp. rewrite Hcallable, Hblank.
  destruct (isEmpty testArgsStr) eqn:Hempty.
  { apply trim_empty in Hempty. congruence. }
  cbn [andb negb]. unfold bind at 1. rewrite Hfirst.
  unfold bind at 1. rewrite (mapM_pieces _ _ _ _ Hvalues).
  unfold bind at 1. now rewrite Hsecond.
Qed.




(** ** Serialization of a callable result *)

Lemma source_preview_short text :
  length16 text <= 150 -> source_preview text = text.
Proof.
  intros Hlen. unfold source_preview.
  destruct (Nat.ltb_spec 150 (length16 text)); [lia | reflexivity].
Qed.

Lemma source_preview_long text :
  150 < length16 text ->
  source_preview text = substring_0 150 text +:+ "..."
  /\ length16 (source_preview text) = 153.
Proof.
  intros Hlen. unfold source_preview.
  destruct (Nat.ltb_spec 150 (length16 text)); [|lia].
  split; [reflexivity|].
  rewrite length16_append, length16_substring_0 by lia. reflexivity.
Qed.

Lemma source_preview_length text : length16 (source_preview text) <= 153.
Proof.
  destruct (Nat.le_gt_cases (length16 text) 150) as [Hshort|Hlong].
  - rewrite source_preview_short by exact Hshort. lia.
  - destruct (source_preview_long text Hlong) as [_ ->]. lia.
Qed.



(** ** Calls made one after the other *)

(** C9.  The sandbox of every call holds the host's own [Math] object, so
    the calls are not isolated from each other: [mark] stores a property
    on [Math] and returns 0; [peek] returns that property.  Run after
    [mark], [peek] returns 1; run alone, it returns [undefined]. *)
Theorem math_object_is_shared :
  createSandbox !! "Math" = Some (HostObject "Math")
  /\ fst (execute_all Sample.host
            [ Sample.request Sample.mark_source "mark" [] None;
              Sample.request Sample.peek_source "peek" [] None ]
            Sample.pristine)
     = [ Normal {| success := true; result := Some (VNum 0%float); error := None;
                   executionTime := Some 3%Z |};
         Normal {| success := true; result := Some (VNum 1%float); error := None;
                   executionTime := Some 3%Z |} ]
  /\ fst (execute Sample.host
            (Sample.request Sample.peek_source "peek" [] None) Sample.pristine)
     = Normal {| success := true; result := Some (VStr "undefined"); error := None;
                 executionTime := Some 3%Z |}.
Proof. vm_compute. repeat split. Qed.

(** ** The coercion utility *)

Lemma rcatch_never_throws {A} (c : Result A) (a : A) e :
  rcatch c (fun _ => Normal a) <> Throw e.
Proof. destruct c; discriminate. Qed.

Lemma trim_nonempty s : isEmpty (trim s) = false -> isEmpty s = false.
Proof. destruct s; [discriminate | reflexivity]. Qed.

Lemma blank_test s : isEmpty (trim s) = true -> isEmpty s || isEmpty (trim s) = true.
Proof. intros ->. apply orb_true_r. Qed.

Lemma coerce_keyword_none t :
  is_Some_value (coerce_keyword t) = false ->
  String.eqb t "true" = false /\ String.eqb t "false" = false
  /\ String.eqb t "null" = false /\ String.eqb t "undefined" = false
  /\ String.eqb t "NaN" = false /\ String.eqb t "Infinity" = false
  /\ String.eqb t "-Infinity" = false.
Proof.
  unfold coerce_keyword.
  repeat (match goal with
          | |- context [String.eqb t ?k] => destruct (String.eqb t k)
          end; [discriminate|]).
  intros _. repeat split.
Qed.

(** What step 1 returns is what [eval] returned for the text, or for what
    the compiler made of it. *)
Lemma parseFunctionArray_cases H t :
  (function_array t = false /\ parseFunctionArray H t = Normal None)
  \/ (function_array t = true /\ has_annotation t = false
      /\ parseFunctionArray H t
         = rcatch (rbind (host_eval H t) (fun r => Normal (Some r)))
             (fun _ => Normal None))
  \/ (function_array t = true /\ has_annotation t = true
      /\ ((exists js,
             transpileTypeScript H ("const _tempArray = " +:+ t +:+ ";") = Normal js
             /\ parseFunctionArray H t
                = rcatch (rbind (host_eval H (array_code H t js))
                            (fun r => Normal (Some r)))
                    (fun _ => Normal None))
          \/ (parseFunctionArray H t = Normal None
              /\ exists e, transpileTypeScript H ("const _tempArray = " +:+ t +:+ ";")
                           = Throw e)
          \/ (parseFunctionArray H t = Hang
              /\ transpileTypeScript H ("const _tempArray = " +:+ t +:+ ";") = Hang))).
Proof.
  unfold parseFunctionArray, function_array.
  destruct (startsWith t "[" && (includes t "=>" || includes t "function"));
    [|now left].
  right. destruct (has_annotation t); [right | left; now repeat split].
  repeat split.
  destruct (transpileTypeScript H _) as [js|e|] eqn:Htrans; cbn [rbind rcatch].
  - left. exists js. split; [reflexivity|]. unfold array_code.
    destruct (String_match H re_tempArray js) as [[g1 g2]|]; reflexivity.
  - right. left. split; [reflexivity | now exists e].
  - right. right. now split.
Qed.

Lemma not_bracketed_no_array H t :
  bracketed t = false -> parseFunctionArray H t = Normal None.
Proof.
  unfold bracketed, parseFunctionArray. intros Hopen.
  apply orb_false_iff in Hopen as [_ ->]. reflexivity.
Qed.

(** The function-type branch answers with a function or with [null]. *)
Lemma parseFunctionValue_result H t v :
  parseFunctionValue H t = Normal v -> v = VNull \/ typeof_function v = true.
Proof.
  unfold parseFunctionValue.
  destruct (includes t "=>" || startsWith t "function");
    [|intros [= <-]; now left].
  destruct (functionCodeOf H t) as [js|e|]; cbn [rbind rcatch];
    [|intros [= <-]; now left|discriminate].
  destruct (evalFunction H js) as [func|e|]; cbn [rbind rcatch];
    [|intros [= <-]; now left|discriminate].
  destruct (truthy func && typeof_function func) eqn:Hfunc.
  - intros [= <-]. right. now apply andb_true_iff in Hfunc.
  - intros [= <-]. now left.
Qed.

(** The path of undecided text. *)
Lemma undecided_path H value type :
  undecided H (trim value) type = true ->
  parseArgumentValue H value type
  = rcatch
      (if startsWith (trim value) "new "
       then rcatch (host_eval H (trim value)) (fun _ => Normal VNull)
       else if is_function_type type then parseFunctionValue H (trim value)
       else if (String.eqb (toLowerCase type) "number"
                || negb (isNaN (Number_ H (trim value))))
               && negb (isNaN (Number_ H (trim value)))
       then Normal (VNum (Number_ H (trim value)))
       else if quoted (trim value)
       then Normal (VStr (slice_1_m1 (trim value)))
       else Normal (VStr (trim value)))
      (fun _ => Normal (VStr (trim value))).
Proof.
  unfold undecided. intros Hpath.
  apply andb_true_iff in Hpath as [Hpath Hdate].
  apply andb_true_iff in Hpath as [Hpath Hkeyword].
  apply andb_true_iff in Hpath as [Hblank Hopen].
  apply negb_true_iff in Hdate, Hkeyword, Hblank, Hopen.
  apply coerce_keyword_none in Hkeyword as (K1 & K2 & K3 & K4 & K5 & K6 & K7).
  unfold parseArgumentValue.
  rewrite Hblank, (trim_nonempty _ Hblank). cbn [orb].
  rewrite (not_bracketed_no_array H _ Hopen). cbn [rbind].
  unfold bracketed in Hopen. rewrite Hopen, K1, K2, K3, K4, K5, K6, K7.
  unfold dated, is_date_type in *. rewrite Hdate. reflexivity.
Qed.

(** C8, with the two branches that answer [null].  [parseArgumentValue]
    never throws.  Blank text gives [undefined].  Where its heuristics
    convert nothing, it gives the trimmed text: for bracketed text whose
    JSON parse throws, and for text that is no keyword, no date, no
    constructor call, no number and not quoted, under a declared type that
    is not a function type.  Two branches give [null] instead: text that
    starts with [new] and whose evaluation throws; and, under a declared
    type that is a function type, any undecided text, which gives a
    function or [null] and never the text.  [null] is given in no other
    case than the text [null], a [null] from the JSON parse, or a [null]
    that [eval] returned for the text. *)
Theorem parseArgumentValue_degrades H value type :
  (forall e, parseArgumentValue H value type <> Throw e)
  /\ (isEmpty (trim value) = true ->
      parseArgumentValue H value type = Normal VUndefined)
  /\ (forall e,
        isEmpty (trim value) = false ->
        bracketed (trim value) = true ->
        function_array (trim value) = false
        \/ parseFunctionArray H (trim value) = Normal None ->
        JSON_parse H (trim value) = Throw e ->
        parseArgumentValue H value type = Normal (VStr (trim value)))
  /\ (undecided H (trim value) type = true ->
      startsWith (trim value) "new " = false ->
      is_function_type type = false ->
      isNaN (Number_ H (trim value)) = true ->
      quoted (trim value) = false ->
      parseArgumentValue H value type = Normal (VStr (trim value)))
  /\ (undecided H (trim value) type = true ->
      startsWith (trim value) "new " = true ->
      (forall e, host_eval H (trim value) = Throw e ->
                 parseArgumentValue H value type = Normal VNull)
      /\ (forall v, host_eval H (trim value) = Normal v ->
                    parseArgumentValue H value type = Normal v))
  /\ (undecided H (trim value) type = true ->
      startsWith (trim value) "new " = false ->
      is_function_type type = true ->
      (forall v, parseArgumentValue H value type = Normal v ->
                 v = VNull \/ typeof_function v = true)
      /\ (includes (trim value) "=>" || startsWith (trim value) "function" = false ->
          parseArgumentValue H value type = Normal VNull))
  /\ (parseArgumentValue H value type = Normal VNull ->
      trim value = "null"
      \/ (bracketed (trim value) = true
          /\ JSON_parse H (trim value) = Normal VNull)
      \/ (function_array (trim value) = true
          /\ has_annotation (trim value) = false
          /\ host_eval H (trim value) = Normal VNull)
      \/ (function_array (trim value) = true
          /\ has_annotation (trim value) = true
          /\ exists js,
               transpileTypeScript H ("const _tempArray = " +:+ trim value +:+ ";")
               = Normal js
               /\ host_eval H (array_code H (trim value) js) = Normal VNull)
      \/ (undecided H (trim value) type = true
          /\ startsWith (trim value) "new " = true
          /\ (host_eval H (trim value) = Normal VNull
              \/ exists e, host_eval H (trim value) = Throw e))
      \/ (undecided H (trim value) type = true
          /\ startsWith (trim value) "new " = false
          /\ is_function_type type = true)).
Proof.
  split; [|split; [|split; [|split; [|split; [|split]]]]].
  - intros e. unfold parseArgumentValue.
    destruct (isEmpty value || isEmpty (trim value)); [discriminate|].
    apply rcatch_never_throws.
  - intros Hblank. unfold parseArgumentValue.
    now rewrite (blank_test _ Hblank).
  - intros e Hblank Hopen Harray Hjson.
    assert (Hnone : parseFunctionArray H (trim value) = Normal None).
    { destruct Harray as [Harray|Harray]; [|exact Harray].
      destruct (parseFunctionArray_cases H (trim value))
        as [[_ Hn]|[[Hc _]|[Hc _]]]; [exact Hn | congruence | congruence]. }
    unfold parseArgumentValue. rewrite Hblank, (trim_nonempty _ Hblank).
    cbn [orb]. rewrite Hnone. cbn [rbind].
    unfold bracketed in Hopen. rewrite Hopen, Hjson. reflexivity.
  - intros Hpath Hnew Hfun Hnum Hquoted.
    rewrite (undecided_path _ _ _ Hpath).
    rewrite Hnew, Hfun, Hnum, Hquoted. cbn [negb andb orb].
    rewrite andb_false_r. reflexivity.
  - intros Hpath Hnew.
    rewrite (undecided_path _ _ _ Hpath). rewrite Hnew.
    split; [intros e Heval | intros v Heval]; rewrite Heval; reflexivity.
  - intros Hpath Hnew Hfun.
    rewrite (undecided_path _ _ _ Hpath). rewrite Hnew, Hfun.
    split.
    + intros v.
      destruct (parseFunctionValue H (trim value)) as [r|e|] eqn:Hvalue; cbn [rcatch];
        try discriminate.
      * intros [= <-]. now apply parseFunctionValue_result in Hvalue.
      * exfalso. revert Hvalue. unfold parseFunctionValue.
        destruct (includes (trim value) "=>" || startsWith (trim value) "function"); [|discriminate].
        apply rcatch_never_throws.
    + intros Hplain. unfold parseFunctionValue. rewrite Hplain. reflexivity.
  - destruct (isEmpty (trim value)) eqn:Hblank.
    { unfold parseArgumentValue. rewrite (blank_test _ Hblank). discriminate. }
    destruct (bracketed (trim value)) eqn:Hopen.
    { unfold parseArgumentValue. rewrite Hblank, (trim_nonempty _ Hblank).
      cbn [orb].
      destruct (parseFunctionArray_cases H (trim value))
        as [[_ Hn]|[(Hc & Ha & Hn)|(Hc & Ha & [(js & Hjs & Hn)|[[Hn _]|[Hn _]]])]];
        rewrite Hn; cbn [rbind rcatch]; try discriminate.
      - unfold bracketed in Hopen. rewrite Hopen.
        destruct (JSON_parse H (trim value)) as [v|e|] eqn:Hjson; try discriminate.
        intros [= ->]. right. left. now split.
      - destruct (host_eval H (trim value)) as [r|e|] eqn:Heval; cbn [rbind rcatch];
          try discriminate.
        + intros [= ->]. do 2 right. left. now repeat split.
        + unfold bracketed in Hopen. rewrite Hopen.
          destruct (JSON_parse H (trim value)) as [v|e'|] eqn:Hjson; try discriminate.
          intros [= ->]. right. left. now split.
      - destruct (host_eval H (array_code H (trim value) js)) as [r|e|] eqn:Heval;
          cbn [rbind rcatch]; try discriminate.
        + intros [= ->]. do 3 right. left. repeat split; [exact Hc | exact Ha |].
          now exists js.
        + unfold bracketed in Hopen. rewrite Hopen.
          destruct (JSON_parse H (trim value)) as [v|e'|] eqn:Hjson; try discriminate.
          intros [= ->]. right. left. now split.
      - unfold bracketed in Hopen. rewrite Hopen.
        destruct (JSON_parse H (trim value)) as [v|e|] eqn:Hjson; try discriminate.
        intros [= ->]. right. left. now split. }
    destruct (is_Some_value (coerce_keyword (trim value))) eqn:Hkeyword.
    { unfold parseArgumentValue. rewrite Hblank, (trim_nonempty _ Hblank).
      cbn [orb]. rewrite (not_bracketed_no_array H _ Hopen). cbn [rbind].
      unfold bracketed in Hopen. rewrite Hopen.
      revert Hkeyword. unfold coerce_keyword.
      repeat (match goal with
              | |- context [String.eqb (trim value) ?k] =>
                  destruct (String.eqb_spec (trim value) k) as [Heq|_]
              end; [intros _; try discriminate|]);
        [intros _; now left | discriminate]. }
    destruct (dated H (trim value) type) eqn:Hdate.
    { unfold parseArgumentValue. rewrite Hblank, (trim_nonempty _ Hblank).
      cbn [orb]. rewrite (not_bracketed_no_array H _ Hopen). cbn [rbind].
      unfold bracketed in Hopen. rewrite Hopen.
      apply coerce_keyword_none in Hkeyword as (K1 & K2 & K3 & K4 & K5 & K6 & K7).
      rewrite K1, K2, K3, K4, K5, K6, K7.
      unfold dated, is_date_type in *. rewrite Hdate. discriminate. }
    assert (Hpath : undecided H (trim value) type = true).
    { unfold undecided. now rewrite Hblank, Hopen, Hkeyword, Hdate. }
    rewrite (undecided_path _ _ _ Hpath).
    destruct (startsWith (trim value) "new ") eqn:Hnew.
    { destruct (host_eval H (trim value)) as [v|e|] eqn:Heval; cbn [rcatch];
        try discriminate.
      - intros [= ->]. do 4 right. left.
        split; [exact Hpath | split; [reflexivity | now left]].
      - intros _. do 4 right. left.
        split; [exact Hpath | split; [reflexivity | right; now exists e]]. }
    destruct (is_function_type type) eqn:Hfun.
    { intros _. do 5 right. now repeat split. }
    destruct ((String.eqb (toLowerCase type) "number"
               || negb (isNaN (Number_ H (trim value)))) && negb (isNaN (Number_ H (trim value))));
      [discriminate|].
    destruct (quoted (trim value)); discriminate.
Qed.

Lemma parseArgumentValue_degrades_witness :
  parseArgumentValue Sample.host " [1, " "number[]" = Normal (VStr "[1,")
  /\ parseArgumentValue Sample.host "hello" "string" = Normal (VStr "hello")
  /\ parseArgumentValue Sample.host "new Nothing()" "Map<string, number>"
     = Normal VNull
  /\ parseArgumentValue Sample.host "hello" "(x: number) => number" = Normal VNull.
Proof.
  split; [|split; [|split]].
  - destruct (parseArgumentValue_degrades Sample.host " [1, " "number[]")
      as (_ & _ & Hjson & _).
    apply (Hjson (Sample.SyntaxError "Unexpected token")).
    + reflexivity.
    + reflexivity.
    + left. reflexivity.
    + reflexivity.
  - destruct (parseArgumentValue_degrades Sample.host "hello" "string")
      as (_ & _ & _ & Hdefault & _).
    apply Hdefault; reflexivity.
  - destruct (parseArgumentValue_degrades Sample.host "new Nothing()"
                "Map<string, number>") as (_ & _ & _ & _ & Hnew & _).
    apply (Hnew eq_refl eq_refl) with (e := Sample.ReferenceError "Nothing is not defined").
    reflexivity.
  - destruct (parseArgumentValue_degrades Sample.host "hello"
                "(x: number) => number") as (_ & _ & _ & _ & _ & Hfun & _).
    apply (Hfun eq_refl eq_refl eq_refl). reflexivity.
Defined.

(** C8 as stated fails: text given for a parameter of function type that
    is not a function is answered with [null], not with the text; so is a
    constructor call whose evaluation throws. *)
Lemma function_typed_text_becomes_null :
  (parseArgumentValue Sample.host "hello" "(x: number) => number" = Normal VNull
   /\ parseArgumentValue Sample.host "hello" "(x: number) => number"
      <> Normal (VStr "hello"))
  /\ (parseArgumentValue Sample.host "new Nothing()" "Map<string, number>"
      = Normal VNull
      /\ parseArgumentValue Sample.host "new Nothing()" "Map<string, number>"
         <> Normal (VStr "new Nothing()")).
Proof. vm_compute. repeat split; discriminate. Qed.

End EngineProofs.

(** * Further properties of the signature extractor *)

Module MoreExtractorProofs.

Import CodeParser ExtractorSpec MoreSpec ExtractorProofs.
#[local] Open Scope list_scope.

Lemma method_descriptors_length cls members :
  length (method_descriptors cls members) = length (method_names members).
Proof.
  rewrite <- (length_map name), method_descriptors_names. apply length_map.
Qed.

Lemma declared_here_emitted data :
  length (declared_here data) = emitted_here data.
Proof.
  destruct data as [[n|] s r|declarations|[cls|] r members|]; simpl;
    try reflexivity.
  - apply omap_bindings_length.
  - now rewrite method_descriptors_length.
Qed.

Lemma traversal_order_emitted node :
  length (traversal_order node) = emitted node.
Proof.
  induction node as [data children IH] using Node_forall_ind.
  cbn [traversal_order emitted]. rewrite length_app, declared_here_emitted.
  f_equal. induction IH as [|c cs Hc _ IHcs]; [reflexivity|].
  simpl. now rewrite length_app, Hc, IHcs.
Qed.

(** The number of descriptors, classes included: one for each named
    function declaration, one for each function-valued variable binding,
    and for each named class one plus the number of its methods, wherever
    they occur in the tree. *)
Theorem descriptor_count ts sourceCode fileName sf :
  ts fileName sourceCode = Normal sf ->
  exists l,
    parseFunctions ts sourceCode fileName = Normal l
    /\ length l = emitted (root sf).
Proof.
  intros Hparse. exists (traversal_order (root sf)). split.
  - now apply parseFunctions_traversal_order.
  - apply traversal_order_emitted.
Qed.

Lemma descriptor_count_witness :
  exists l,
    parseFunctions sample_parser calc_source "temp.ts" = Normal l
    /\ length l = emitted (root calc_tree).
Proof.
  exact (descriptor_count sample_parser calc_source "temp.ts" calc_tree eq_refl).
Defined.

(** [visit] only appends: what the array holds when a node is visited is
    still there afterwards, in front and in the same order, and what is
    appended does not depend on it. *)
Theorem visit_appends node functions :
  visit node functions = functions ++ visit node [].
Proof. now rewrite (visit_traversal_order node functions), (visit_traversal_order node []). Qed.

(** A property of the descriptors declared by each node holds of all the
    descriptors of a tree. *)
Lemma traversal_order_Forall (P : FunctionInfo -> Prop) :
  (forall data, Forall P (declared_here data)) ->
  forall node, Forall P (traversal_order node).
Proof.
  intros Hhere node. induction node as [data children IH] using Node_forall_ind.
  cbn [traversal_order]. apply Forall_app. split; [apply Hhere|].
  induction IH as [|c cs Hc _ IHcs]; [constructor|].
  simpl. apply Forall_app. now split.
Qed.

Lemma omap_Forall {A B} (f : A -> option B) (P : B -> Prop) l :
  (forall a b, f a = Some b -> P b) -> Forall P (omap f l).
Proof.
  intros Hf. induction l as [|a l IH]; [constructor|].
  cbn [omap list_omap]. destruct (f a) as [b|] eqn:Hfa; [|exact IH].
  constructor; [now apply (Hf a) | exact IH].
Qed.

Lemma declared_here_Forall (P : FunctionInfo -> Prop) :
  (forall n s r, P (extractFunctionInfo (Some n) s r)) ->
  (forall d info, extractFunctionFromVariable d = Some info -> P info) ->
  (forall cls r members, P (constructor_descriptor cls r members)) ->
  (forall cls n s r info, extractMethodInfo n s r cls = Some info -> P info) ->
  forall data, Forall P (declared_here data).
Proof.
  intros Hfun Hvar Hctor Hmethod data.
  destruct data as [[n|] s r|declarations|[cls|] r members|]; simpl;
    try constructor; auto.
  - now apply omap_Forall.
  - apply omap_Forall. intros [ps|n s r'|] info; simpl; try discriminate.
    apply Hmethod.
Qed.

(** Line numbers are 1-based: every descriptor starts and ends on a line
    numbered 1 or more. *)
Theorem descriptor_lines_one_based ts sourceCode fileName l :
  parseFunctions ts sourceCode fileName = Normal l ->
  Forall (fun f => 1 <= startLine f /\ 1 <= endLine f) l.
Proof.
  unfold parseFunctions.
  destruct (ts fileName sourceCode) as [sf|e|]; try discriminate.
  intros [= <-]. rewrite visit_traversal_order. simpl.
  apply traversal_order_Forall. apply declared_here_Forall.
  - intros; simpl; lia.
  - intros d info. unfold extractFunctionFromVariable.
    destruct (vd_initializer d) as [[s|s|]|]; try discriminate;
      intros [= <-]; simpl; lia.
  - intros; simpl; lia.
  - intros cls n s r info [= <-]. simpl. lia.
Qed.

Lemma descriptor_lines_one_based_witness :
  Forall (fun f => 1 <= startLine f /\ 1 <= endLine f)
         (traversal_order (root calc_tree)).
Proof.
  exact (descriptor_lines_one_based sample_parser calc_source "temp.ts" _ eq_refl).
Defined.

Lemma startLines_here data :
  map startLine (declared_here data) = map S (start_lines_here data).
Proof.
  destruct data as [[n|] s r|declarations|[cls|] r members|]; simpl;
    try reflexivity.
  - f_equal. lia.
  - induction declarations as [|d ds IH]; [reflexivity|].
    cbn [omap list_omap]. unfold extractFunctionFromVariable, binding_start,
      is_function_binding in *.
    destruct (vd_initializer d) as [[s|s|]|]; simpl; try exact IH;
      (f_equal; [lia | exact IH]).
  - f_equal; [lia|]. unfold method_descriptors.
    induction members as [|m ms IH]; [reflexivity|].
    destruct m as [ps|n s r'|]; simpl; try exact IH.
    f_equal; [lia | exact IH].
Qed.

(** The start line of every descriptor is the line on which its declaration
    starts in the tree, plus one. *)
Lemma startLines_traversal_order node :
  map startLine (traversal_order node) = map S (start_lines node).
Proof.
  induction node as [data children IH] using Node_forall_ind.
  cbn [traversal_order start_lines]. rewrite !map_app, startLines_here.
  f_equal. induction IH as [|c cs Hc _ IHcs]; [reflexivity|].
  simpl. now rewrite !map_app, Hc, IHcs.
Qed.

Lemma prefix_append a b : String.prefix a (a +:+ b) = true.
Proof.
  induction a as [|c a IH]; simpl.
  - now destruct b.
  - destruct (ascii_dec c c); [exact IH | contradiction].
Qed.

Lemma prefix_owner cls n :
  String.prefix (cls +:+ ".") (cls +:+ "." +:+ n) = true.
Proof.
  induction cls as [|c cls IH]; simpl.
  - now destruct n.
  - destruct (ascii_dec c c); [exact IH | contradiction].
Qed.

(** The three kinds of descriptor exclude each other.  A descriptor marked
    as a class has no owner, is not asynchronous, and returns the class; a
    descriptor with an owner is not marked as a class, and its name is the
    owner, a dot, and the method name. *)
Theorem descriptor_kinds ts sourceCode fileName l :
  parseFunctions ts sourceCode fileName = Normal l ->
  Forall (fun f =>
            (isClass f = Some true ->
             className f = None /\ isAsync f = false /\ returnType f = name f)
            /\ (forall owner, className f = Some owner ->
                isClass f = None /\ String.prefix (owner +:+ ".") (name f) = true)
            /\ (isClass f = None \/ isClass f = Some true)) l.
Proof.
  unfold parseFunctions.
  destruct (ts fileName sourceCode) as [sf|e|]; try discriminate.
  intros [= <-]. rewrite visit_traversal_order. simpl.
  apply traversal_order_Forall. apply declared_here_Forall.
  - intros; simpl. split; [discriminate|]. split; [discriminate | now left].
  - intros d info. unfold extractFunctionFromVariable.
    destruct (vd_initializer d) as [[s|s|]|]; try discriminate;
      intros [= <-]; simpl;
      (split; [discriminate|]; split; [discriminate | now left]).
  - intros; simpl. split; [intros _; repeat split|].
    split; [discriminate | now right].
  - intros cls n s r info [= <-]. simpl. split; [discriminate|].
    split; [|now left]. intros owner [= <-]. split; [reflexivity|].
    apply prefix_owner.
Qed.

Lemma descriptor_kinds_witness :
  Forall (fun f =>
            (isClass f = Some true ->
             className f = None /\ isAsync f = false /\ returnType f = name f)
            /\ (forall owner, className f = Some owner ->
                isClass f = None /\ String.prefix (owner +:+ ".") (name f) = true)
            /\ (isClass f = None \/ isClass f = Some true))
         (traversal_order (root calc_tree)).
Proof.
  exact (descriptor_kinds sample_parser calc_source "temp.ts" _ eq_refl).
Defined.

Lemma ordered_here data :
  ranges_ordered_here data = true ->
  Forall (fun f => startLine f <= endLine f) (declared_here data).
Proof.
  destruct data as [[n|] s r|declarations|[cls|] r members|]; simpl.
  - intros Hr%Nat.leb_le. repeat constructor. simpl. lia.
  - intros _. constructor.
  - intros Hall. rewrite forallb_forall in Hall.
    induction declarations as [|d ds IH]; [constructor|].
    cbn [omap list_omap]. unfold extractFunctionFromVariable in *.
    pose proof (Hall d (or_introl eq_refl)) as Hd%Nat.leb_le.
    assert (IH' : Forall (fun f => startLine f <= endLine f)
                    (omap extractFunctionFromVariable ds))
      by (apply IH; intros x Hx; apply Hall; now right).
    destruct (vd_initializer d) as [[s|s|]|]; try exact IH';
      constructor; try exact IH'; simpl; lia.
  - intros [Hr%Nat.leb_le Hall]%andb_prop. constructor; [simpl; lia|].
    rewrite forallb_forall in Hall. unfold method_descriptors.
    induction members as [|m ms IH]; [constructor|].
    assert (IH' : Forall (fun f => startLine f <= endLine f)
                    (omap (method_descriptor cls) ms))
      by (apply IH; intros x Hx; apply Hall; now right).
    pose proof (Hall m (or_introl eq_refl)) as Hm.
    destruct m as [ps|n s r'|]; simpl; try exact IH'.
    constructor; [|exact IH']. apply Nat.leb_le in Hm. simpl. lia.
  - intros _. constructor.
  - intros _. constructor.
Qed.

(** When every declaration of the tree ends on or after the line it starts
    on, so does every descriptor. *)
Theorem descriptor_lines_ordered ts sourceCode fileName sf :
  ts fileName sourceCode = Normal sf ->
  ranges_ordered (root sf) = true ->
  exists l,
    parseFunctions ts sourceCode fileName = Normal l
    /\ Forall (fun f => startLine f <= endLine f) l.
Proof.
  intros Hparse Hordered. exists (traversal_order (root sf)).
  split; [now apply parseFunctions_traversal_order|].
  revert Hordered. generalize (root sf). clear.
  induction n as [data children IH] using Node_forall_ind.
  cbn [ranges_ordered traversal_order].
  intros [Hdata Hchildren]%andb_prop. apply Forall_app.
  split; [now apply ordered_here|].
  induction IH as [|c cs Hc _ IHcs]; [constructor|].
  simpl in *. apply andb_prop in Hchildren as [Hc' Hcs'].
  apply Forall_app. split; auto.
Qed.

Lemma descriptor_lines_ordered_witness :
  exists l,
    parseFunctions sample_parser calc_source "temp.ts" = Normal l
    /\ Forall (fun f => startLine f <= endLine f) l.
Proof.
  exact (descriptor_lines_ordered sample_parser calc_source "temp.ts" calc_tree
           eq_refl eq_refl).
Defined.

End MoreExtractorProofs.

(** * Further properties of the execution engine *)

Module MoreEngineProofs.

Import JsString CodeExecutor EngineSpec MoreSpec EngineProofs.
#[local] Open Scope list_scope.

(** ** Materialization never throws *)

Lemma try_eval_never_throws H code st e : fst (try_eval H code st) <> Throw e.
Proof.
  unfold try_eval, try_catch, bind, ret.
  destruct (sandbox_eval H _ st) as [[r|e0|] st1]; discriminate.
Qed.

Lemma try_sandbox_JSON_parse_never_throws H text st e :
  fst (try_sandbox_JSON_parse H text st) <> Throw e.
Proof.
  unfold try_sandbox_JSON_parse, try_catch, bind, ret.
  destruct (sandbox_JSON_parse H text st) as [[r|e0|] st1]; discriminate.
Qed.

Lemma try_JSON_parse_never_throws H text st e :
  fst (try_JSON_parse H text st) <> Throw e.
Proof.
  unfold try_JSON_parse, try_catch, bind, ret, lift.
  destruct (JSON_parse H text) as [r|e0|]; discriminate.
Qed.

Lemma bind_never_throws {T A B} (m : M T A) (k : A -> M T B) :
  (forall s e, fst (m s) <> Throw e) ->
  (forall a s e, fst (k a s) <> Throw e) ->
  forall s e, fst (bind m k s) <> Throw e.
Proof.
  intros Hm Hk s e. unfold bind. pose proof (Hm s) as Hs.
  destruct (m s) as [[a|e0|] s1]; simpl in *.
  - apply Hk.
  - exfalso. exact (Hs e0 eq_refl).
  - discriminate.
Qed.

(** A throw of [do x <- m; k x] is a throw of [m] or of [k]. *)
Lemma bind_throws {T A B} (P : Value -> Prop) (m : M T A) (k : A -> M T B) :
  (forall s e, fst (m s) = Throw e -> P e) ->
  (forall a s e, fst (k a s) = Throw e -> P e) ->
  forall s e, fst (bind m k s) = Throw e -> P e.
Proof.
  intros Hm Hk s e. unfold bind. pose proof (Hm s) as Hs.
  destruct (m s) as [[a|e0|] s1]; simpl in *.
  - apply Hk.
  - intros [= <-]. now apply Hs.
  - discriminate.
Qed.

Lemma quiet_throws {T A} (P : Value -> Prop) (m : M T A) :
  (forall s e, fst (m s) <> Throw e) ->
  forall s e, fst (m s) = Throw e -> P e.
Proof. intros Hm s e Hthrow. now destruct (Hm s e). Qed.

Lemma transpileTS_never_throws H code e : _transpileTS H code <> Throw e.
Proof. unfold _transpileTS. destruct (transpileTypeScript H code); discriminate. Qed.

Lemma console_log_throws H vs (st : St H) e :
  fst (console_log H vs st) = Throw e -> thrown_by_context H e.
Proof. intros Hthrow. exists st. left. now exists vs. Qed.

Lemma parse_tail_throws H index trimmed st e :
  fst (parse_tail H index trimmed st) = Throw e -> thrown_by_context H e.
Proof.
  unfold parse_tail.
  repeat (match goal with
          | |- context [String.eqb trimmed ?k] => destruct (String.eqb trimmed k)
          end; [discriminate|]).
  revert st e. apply bind_throws.
  { intros s e Hthrow. exists s. right. left. now exists trimmed. }
  intros num. apply bind_throws.
  { intros s e Hthrow. exists s. right. right. now exists num. }
  intros nan. destruct (negb (truthy nan)); [discriminate|].
  destruct (quoted trimmed); [discriminate|].
  apply bind_throws; [apply console_log_throws | discriminate].
Qed.

Lemma parseArg_throws H index value st e :
  fst (parseArg H index value st) = Throw e -> thrown_by_context H e.
Proof.
  unfold parseArg. revert st e.
  apply bind_throws; [apply console_log_throws|]. intros _.
  destruct (isEmpty (trim value)); [discriminate|].
  apply bind_throws.
  - destruct (has_annotation (trim value)); [|discriminate].
    apply bind_throws.
    { intros s e Hthrow. now destruct (transpileTS_never_throws H _ _ Hthrow). }
    intros transpiled.
    apply bind_throws; [apply console_log_throws|]. intros _.
    apply bind_throws; [apply console_log_throws | discriminate].
  - intros code. apply bind_throws.
    + apply quiet_throws. intros s e. apply try_eval_never_throws.
    + intros [r|]; [discriminate|]. apply bind_throws.
      * destruct (startsWith (trim value) "{" || startsWith (trim value) "[");
          [|discriminate].
        apply quiet_throws. intros s e. apply try_sandbox_JSON_parse_never_throws.
      * intros [r|]; [discriminate|]. apply parse_tail_throws.
Qed.

Lemma mapM_never_throws {T A B} (f : A -> M T B) xs :
  (forall x s e, fst (f x s) <> Throw e) ->
  forall s,
    match fst (mapM f xs s) with
    | Normal ys => length ys = length xs
    | Throw _ => False
    | Hang => True
    end.
Proof.
  intros Hf. induction xs as [|x xs IH]; intros s; [reflexivity|].
  cbn [mapM]. unfold bind. pose proof (Hf x s) as Hx.
  destruct (f x s) as [[y|e|] s1]; simpl in *; [|now apply (Hx e)|exact I].
  specialize (IH s1). destruct (mapM f xs s1) as [[ys|e|] s2]; simpl in *;
    [now rewrite IH | exact IH | exact I].
Qed.

Lemma mapMi_from_throws {T A B} (P : Value -> Prop) (f : nat -> A -> M T B) xs :
  (forall i x s e, fst (f i x s) = Throw e -> P e) ->
  forall index s,
    match fst (mapMi_from f index xs s) with
    | Normal ys => length ys = length xs
    | Throw e => P e
    | Hang => True
    end.
Proof.
  intros Hf. induction xs as [|x xs IH]; intros index s; [reflexivity|].
  cbn [mapMi_from]. unfold bind. pose proof (Hf index x s) as Hx.
  destruct (f index x s) as [[y|e|] s1]; simpl in *; [|now apply Hx|exact I].
  specialize (IH (S index) s1).
  destruct (mapMi_from f (S index) xs s1) as [[ys|e|] s2]; simpl in *;
    [now rewrite IH | exact IH | exact I].
Qed.


(** ** The follow-up arguments *)

Lemma split_length sep s : length (split sep s) = S (count_char sep s).
Proof.
  induction s as [|c s IH]; [reflexivity|].
  cbn [split count_char]. destruct (Ascii.eqb c sep).
  - simpl. now rewrite IH.
  - destruct (split sep s) as [|p ps]; simpl in *; [discriminate | exact IH].
Qed.

Lemma parseTestArg_never_throws H arg st e : fst (parseTestArg H arg st) <> Throw e.
Proof.
  unfold parseTestArg. destruct (negb (isNaN (Number_ H (trim arg))));
    [discriminate|].
  revert st e. apply bind_never_throws.
  - intros s e. apply try_JSON_parse_never_throws.
  - intros [r|]; discriminate.
Qed.



(** ** Outcomes *)

(** Every outcome is timed by the two clock readings and is either a
    success with a value and no error, or a failure with an error and no
    value. *)
Theorem outcome_shape H code fname args isAsync testArgs t0 t1 heap o :
  fst (executeFunction H code fname args isAsync testArgs t0 t1 heap) = Normal o ->
  executionTime o = Some (t1 - t0)%Z
  /\ (success o = true /\ (exists v, result o = Some v) /\ error o = None
      \/ success o = false /\ result o = None /\ exists text, error o = Some text).
Proof.
  unfold executeFunction, try_catch.
  match goal with |- context [match ?body heap with _ => _ end] =>
    destruct (body heap) as [[o1|e|] heap1] eqn:Hbody end; simpl; try discriminate.
  - intros [= <-]. revert Hbody. unfold bind, lift, ret.
    repeat match goal with
           | |- context [match ?c with _ => _ end] => destruct c; try discriminate
           end.
    intros [= <- _]. simpl. split; [reflexivity|]. left. eauto.
  - unfold bind, lift, ret.
    destruct (error_text H e) as [text|e2|]; simpl; try discriminate.
    intros [= <-]. simpl. split; [reflexivity|]. right. eauto.
Qed.

Lemma outcome_shape_witness :
  executionTime
    {| success := false; result := None; error := Some (VStr "list is not iterable");
       executionTime := Some 3%Z |} = Some (1003 - 1000)%Z
  /\ (false = true /\ (exists v, @None Value = Some v) /\ Some (VStr "list is not iterable") = None
      \/ false = false /\ @None Value = None
         /\ exists text, Some (VStr "list is not iterable") = Some text).
Proof.
  exact (outcome_shape Sample.host Sample.count_source "count"
           [ {| arg_value := "[1,2,3]"; arg_type := "number[]" |} ] false None
           1000 1003 Sample.pristine _ eq_refl).
Defined.

Lemma error_text_throws H e e' :
  error_text H e = Throw e' ->
  e' = TypeError "Cannot read properties of undefined (reading 'message')"
  \/ e' = TypeError "Cannot read properties of null (reading 'message')"
  \/ object_get H e "message" = Throw e'
  \/ String_ H e = Throw e'.
Proof.
  unfold error_text.
  destruct (get_message H e) as [m|e0|] eqn:Hm.
  - destruct (truthy m); [discriminate|].
    destruct (String_ H e) as [s|e1|]; try discriminate.
    intros [= <-]. now do 3 right.
  - intros [= <-]. destruct e; simpl in Hm;
      try (right; right; left; exact Hm); injection Hm as <-; auto.
  - discriminate.
Qed.



(** When the source of the target does not compile -- the TypeScript
    compiler throws, or [vm.Script] rejects its output -- nothing is
    evaluated: the host objects are left as they were and the outcome is a
    failure carrying the text of that error. *)
Theorem definition_failure H code fname args isAsync testArgs t0 t1 heap e text :
  transpileTypeScript H code = Throw e
  \/ (exists jsCode, transpileTypeScript H code = Normal jsCode
                     /\ vm_Script H jsCode = Throw e) ->
  error_text H e = Normal text ->
  executeFunction H code fname args isAsync testArgs t0 t1 heap
  = (Normal {| success := false; result := None; error := Some text;
               executionTime := Some (t1 - t0)%Z |}, heap).
Proof.
  intros Hfail Htext. unfold executeFunction, try_catch, bind, lift, ret.
  destruct Hfail as [Htrans|(jsCode & Htrans & Hscript)].
  - rewrite Htrans, Htext. reflexivity.
  - rewrite Htrans, Hscript, Htext. reflexivity.
Qed.

Lemma definition_failure_witness :
  executeFunction Sample.host Sample.twice_source "f" [] false None 1000 1003
    Sample.pristine
  = (Normal {| success := false; result := None;
               error := Some (VStr "Identifier 'f' has already been declared");
               executionTime := Some (1003 - 1000)%Z |}, Sample.pristine).
Proof.
  refine (definition_failure Sample.host Sample.twice_source "f" [] false None
            1000 1003 Sample.pristine
            (Sample.SyntaxError "Identifier 'f' has already been declared")
            (VStr "Identifier 'f' has already been declared") _ eq_refl).
  right. exists Sample.twice_js. split; reflexivity.
Defined.

(** ** Serialization *)


(** ** The coercion utility and the engine's fallback *)

(** On plain text -- not bracketed, not starting with [new], for a declared
    type that is neither a date nor a function type, and other than
    [-Infinity] -- the coercion utility and the engine's own fallback give
    the same value: literal keyword, number, unquoted text, or the text. *)
Theorem coercions_agree_on_plain_text H value type :
  isEmpty (trim value) = false ->
  startsWith (trim value) "{" || startsWith (trim value) "[" = false ->
  startsWith (trim value) "new " = false ->
  String.eqb (trim value) "-Infinity" = false ->
  is_date_type type = false ->
  is_function_type type = false ->
  parseArgumentValue H value type = Normal (parse_plain H (trim value)).
Proof.
  intros Hblank Hopen Hnew Hinf Hdate Hfun.
  pose proof (trim_nonempty _ Hblank) as Hvalue.
  unfold parseArgumentValue. rewrite Hblank, Hvalue. cbn [orb].
  assert (Harray : parseFunctionArray H (trim value) = Normal None).
  { unfold parseFunctionArray. apply orb_false_elim in Hopen as [_ ->].
    reflexivity. }
  rewrite Harray. cbn [rbind rcatch]. rewrite Hopen, Hnew, Hinf, Hdate, Hfun.
  cbn [andb]. unfold parse_plain.
  repeat match goal with
         | |- context [String.eqb (trim value) ?k] =>
             destruct (String.eqb (trim value) k); [reflexivity|]
         end.
  destruct (isNaN (Number_ H (trim value))); simpl.
  - rewrite orb_false_r, andb_false_r. destruct (quoted (trim value)); reflexivity.
  - now rewrite orb_true_r.
Qed.

Lemma coercions_agree_on_plain_text_witness :
  parseArgumentValue Sample.host " 'hello' " "string"
  = Normal (parse_plain Sample.host (trim " 'hello' ")).
Proof.
  apply (coercions_agree_on_plain_text Sample.host " 'hello' " "string");
    reflexivity.
Defined.

(** ** The cleaning step of the snippet *)

Lemma all_s_line u : all_s (u +:+ Sample.newline) = false.
Proof.
  induction u as [|c u IH]; [reflexivity|].
  change (String c u +:+ Sample.newline) with (String c (u +:+ Sample.newline)).
  cbn [all_s]. rewrite IH. apply andb_false_r.
Qed.

Lemma replace_trailing_semicolon_line u :
  replace_trailing_semicolon (u +:+ Sample.newline) = u +:+ Sample.newline.
Proof.
  induction u as [|c u IH]; [reflexivity|].
  change (String c u +:+ Sample.newline) with (String c (u +:+ Sample.newline)).
  cbn [replace_trailing_semicolon].
  rewrite all_s_line, andb_false_r. now rewrite IH.
Qed.

Lemma strip_prefix_none p : forall s,
  startsWith s p = false -> strip_prefix p s = None.
Proof.
  unfold startsWith.
  induction p as [|a p IH]; intros [|b s]; cbn [String.prefix strip_prefix];
    try discriminate; try reflexivity.
  destruct (Ascii.ascii_dec a b) as [->|Hab].
  - rewrite Ascii.eqb_refl. apply IH.
  - intros _. apply Ascii.eqb_neq in Hab. now rewrite Hab.
Qed.

(** The compiler ends its output with a line feed.  On such text the
    fourth replacement of the cleaning step finds nothing: it looks for a
    semicolon followed by letters s up to the end of the text.  So when the
    text does not start with ["use strict"], [Object] or [exports] either,
    cleaning it is trimming it, and the semicolon that the compiler puts
    after an expression stays. *)
Theorem final_semicolon_is_kept (u : string) :
  startsWith (u +:+ Sample.newline) use_strict = false ->
  startsWith (u +:+ Sample.newline) "Object" = false ->
  startsWith (u +:+ Sample.newline) "exports" = false ->
  clean (u +:+ Sample.newline) = trim (u +:+ Sample.newline).
Proof.
  intros Hstrict Hobject Hexports. unfold clean.
  unfold replace_use_strict. rewrite (strip_prefix_none _ _ Hstrict).
  unfold replace_defineProperty. rewrite (strip_prefix_none _ _ Hobject).
  unfold replace_esModule. rewrite (strip_prefix_none _ _ Hexports).
  now rewrite replace_trailing_semicolon_line.
Qed.

Lemma final_semicolon_is_kept_witness :
  clean ("(x) => x * 2;" +:+ Sample.newline)
  = trim ("(x) => x * 2;" +:+ Sample.newline).
Proof.
  apply (final_semicolon_is_kept "(x) => x * 2;"); reflexivity.
Defined.

(** An arrow function with a type annotation, given as an argument: the
    compiler's output keeps its semicolon through the cleaning step,
    [eval] rejects the parenthesised text, and the argument is
    materialized as the text that was typed.  With the semicolon removed,
    as the cleaning step is written in the source file, it would be the
    function. *)
Theorem annotated_arrow_becomes_text :
  let st := (vm_createContext Sample.host
               {| globals := createSandbox; _argsData := [Sample.typed_double];
                  _testArgsStr := ""; _functionName := "apply" |},
             Sample.pristine) in
  _transpileTS Sample.host Sample.typed_double
  = Normal ("(x) => x * 2;" +:+ Sample.newline)
  /\ clean ("(x) => x * 2;" +:+ Sample.newline) = "(x) => x * 2;"
  /\ strip_compiler_output ("(x) => x * 2;" +:+ Sample.newline) = "(x) => x * 2"
  /\ fst (parseArg Sample.host 0 Sample.typed_double st)
     = Normal (VStr "(x: number) => x * 2")
  /\ fst (materialize_raw_only Sample.host strip_compiler_output
            {| arg_value := Sample.typed_double; arg_type := "(x: number) => number" |}
            st)
     = Normal (VFunc "(x) => x * 2" 0).
Proof. vm_compute. repeat split. Qed.

End MoreEngineProofs.

(** * Properties of the panel provider *)

Module PanelProofs.

Import CodeParser CodeExecutor TestPanel MoreSpec.
#[local] Open Scope list_scope.

Lemma call_settled p c : settled p -> settled (call p c).
Proof.
  unfold settled, call. destruct c as [w|fs|r|h|n];
    unfold resolveWebviewView, updateFunctions, sendExecutionResult,
      setMessageHandler, focusOnFunction, postMessage, onDidReceiveMessage;
    destruct p as [[v|] [pending|] [handler|] out ls]; simpl; intros Hp;
    try discriminate; try tauto; auto.
Qed.

Lemma calls_settled cs : forall p, settled p -> settled (calls cs p).
Proof.
  unfold calls. induction cs as [|c cs IH]; intros p Hp; [exact Hp|].
  simpl. apply IH. now apply call_settled.
Qed.

(** Whatever is called on the provider, in whatever order: as long as it
    has no view nothing has been posted and no listener registered, and
    once it has a view no function list is left waiting. *)
Theorem nothing_is_posted_without_a_view (cs : list Call) :
  match _view (calls cs initial) with
  | None => posted (calls cs initial) = [] /\ listeners (calls cs initial) = []
  | Some _ => _pendingFunctions (calls cs initial) = None
  end.
Proof. apply (calls_settled cs initial). unfold settled. simpl. auto. Qed.

Lemma calls_app cs1 cs2 p : calls (cs1 ++ cs2) p = calls cs2 (calls cs1 p).
Proof. unfold calls. apply foldl_app. Qed.

(** Before the view is resolved, calls only replace the waiting list. *)
Lemma calls_before_view cs : forall p,
  forallb (fun c => negb (is_resolve c)) cs = true ->
  _view p = None ->
  _view (calls cs p) = None
  /\ posted (calls cs p) = posted p
  /\ _pendingFunctions (calls cs p)
     = match last_update cs with
       | Some fs => Some fs
       | None => _pendingFunctions p
       end.
Proof.
  unfold calls. induction cs as [|c cs IH]; intros p Hcs Hview; [auto|].
  simpl in Hcs. apply andb_prop in Hcs as [Hc Hcs].
  cbn [foldl last_update].
  assert (Hstep : _view (call p c) = None /\ posted (call p c) = posted p
                  /\ _pendingFunctions (call p c)
                     = match c with
                       | UpdateFunctions fs => Some fs
                       | _ => _pendingFunctions p
                       end).
  { destruct c as [w|fs|r|h|n]; simpl in *; try discriminate;
      unfold updateFunctions, sendExecutionResult, setMessageHandler,
        focusOnFunction; simpl; rewrite Hview; simpl; auto. }
  destruct Hstep as (Hv & Hposted & Hpending).
  destruct (IH (call p c) Hcs Hv) as (IHv & IHposted & IHpending).
  split; [exact IHv|]. split; [now rewrite IHposted|].
  rewrite IHpending, Hpending.
  destruct (last_update cs); [reflexivity|]. now destruct c.
Qed.

(** Function lists that arrive before the view exist are not queued: when
    the view is resolved, the last of them is posted, once, and nothing
    else -- earlier lists, and execution results or focus requests sent in
    the meantime, are lost. *)
Theorem last_list_is_delivered_once (cs : list Call) (view : nat) :
  forallb (fun c => negb (is_resolve c)) cs = true ->
  posted (calls (cs ++ [ResolveWebviewView view]) initial)
  = match last_update cs with
    | Some functions => [(view, updateFunctionsMessage functions)]
    | None => []
    end
  /\ _pendingFunctions (calls (cs ++ [ResolveWebviewView view]) initial) = None.
Proof.
  intros Hcs. rewrite calls_app.
  destruct (calls_before_view cs initial Hcs eq_refl) as (Hv & Hposted & Hpending).
  simpl in Hposted, Hpending. unfold calls at 1 3. cbn [foldl call].
  unfold resolveWebviewView. cbn [_messageHandler _pendingFunctions].
  destruct (_messageHandler (calls cs initial)) as [h|];
    cbn [onDidReceiveMessage _pendingFunctions]; rewrite Hpending;
    destruct (last_update cs) as [fs|]; simpl; rewrite ?Hposted; auto.
Qed.

Lemma last_list_is_delivered_once_witness :
  posted (calls ([UpdateFunctions redeclared;
                  SendExecutionResult
                    {| outcome := Extension.failure (VStr "late"); index := 0 |};
                  UpdateFunctions []] ++ [ResolveWebviewView 7]) initial)
  = match last_update [UpdateFunctions redeclared;
                       SendExecutionResult
                         {| outcome := Extension.failure (VStr "late"); index := 0 |};
                       UpdateFunctions []] with
    | Some functions => [(7, updateFunctionsMessage functions)]
    | None => []
    end
  /\ _pendingFunctions
       (calls ([UpdateFunctions redeclared;
                SendExecutionResult
                  {| outcome := Extension.failure (VStr "late"); index := 0 |};
                UpdateFunctions []] ++ [ResolveWebviewView 7]) initial) = None.
Proof.
  apply (last_list_is_delivered_once _ 7). reflexivity.
Defined.

Lemma quiet_calls cs : forall p,
  forallb quiet cs = true ->
  _view (calls cs p) = _view p
  /\ _messageHandler (calls cs p) = _messageHandler p
  /\ listeners (calls cs p) = listeners p.
Proof.
  unfold calls. induction cs as [|c cs IH]; intros p Hcs; [auto|].
  simpl in Hcs. apply andb_prop in Hcs as [Hc Hcs]. cbn [foldl].
  destruct (IH (call p c) Hcs) as (-> & -> & ->).
  destruct c as [w|fs|r|h|n]; try discriminate; simpl;
    unfold updateFunctions, sendExecutionResult, focusOnFunction;
    destruct (_view p) eqn:Hv; simpl; auto.
Qed.

Lemma calls_single c p : calls [c] p = call p c.
Proof. reflexivity. Qed.

Lemma setMessageHandler_fields handler p :
  _view (setMessageHandler handler p) = _view p
  /\ _messageHandler (setMessageHandler handler p) = Some handler
  /\ listeners (setMessageHandler handler p)
     = listeners p ++ match _view p with
                      | Some view => [(view, handler)]
                      | None => []
                      end.
Proof.
  unfold setMessageHandler, onDidReceiveMessage.
  destruct p as [[v|] pending h out ls]; simpl; rewrite ?app_nil_r; auto.
Qed.

Lemma resolveWebviewView_fields view p :
  _view (resolveWebviewView view p) = Some view
  /\ _messageHandler (resolveWebviewView view p) = _messageHandler p
  /\ listeners (resolveWebviewView view p)
     = listeners p ++ match _messageHandler p with
                      | Some handler => [(view, handler)]
                      | None => []
                      end.
Proof.
  unfold resolveWebviewView, updateFunctions, postMessage, onDidReceiveMessage.
  destruct p as [v [pending|] [h|] out ls]; simpl; rewrite ?app_nil_r; auto.
Qed.

(** The message handler ends up registered on the view exactly once,
    whether [setMessageHandler] is called before or after
    [resolveWebviewView], whatever other calls are made in between. *)
Theorem handler_is_registered_once (cs1 cs2 cs3 : list Call) (view handler : nat) :
  forallb quiet cs1 = true -> forallb quiet cs2 = true -> forallb quiet cs3 = true ->
  listeners (calls (cs1 ++ [SetMessageHandler handler] ++ cs2
                        ++ [ResolveWebviewView view] ++ cs3) initial)
  = [(view, handler)]
  /\ listeners (calls (cs1 ++ [ResolveWebviewView view] ++ cs2
                           ++ [SetMessageHandler handler] ++ cs3) initial)
     = [(view, handler)].
Proof.
  intros H1 H2 H3.
  destruct (quiet_calls cs1 initial H1) as (Hv1 & Hh1 & Hl1).
  simpl in Hv1, Hh1, Hl1.
  split; rewrite !calls_app, !calls_single; cbn [call].
  - set (p1 := setMessageHandler handler (calls cs1 initial)).
    destruct (setMessageHandler_fields handler (calls cs1 initial))
      as (Hv & Hh & Hl). fold p1 in Hv, Hh, Hl. rewrite Hv1, Hl1 in *.
    destruct (quiet_calls cs2 p1 H2) as (Hv2 & Hh2 & Hl2).
    set (p2 := resolveWebviewView view (calls cs2 p1)).
    destruct (resolveWebviewView_fields view (calls cs2 p1)) as (Hv' & Hh' & Hl').
    fold p2 in Hv', Hh', Hl'.
    destruct (quiet_calls cs3 p2 H3) as (_ & _ & ->).
    rewrite Hl', Hl2, Hh2, Hh, Hl. reflexivity.
  - set (p1 := resolveWebviewView view (calls cs1 initial)).
    destruct (resolveWebviewView_fields view (calls cs1 initial))
      as (Hv & Hh & Hl). fold p1 in Hv, Hh, Hl. rewrite Hh1, Hl1 in *.
    destruct (quiet_calls cs2 p1 H2) as (Hv2 & Hh2 & Hl2).
    set (p2 := setMessageHandler handler (calls cs2 p1)).
    destruct (setMessageHandler_fields handler (calls cs2 p1)) as (Hv' & Hh' & Hl').
    fold p2 in Hv', Hh', Hl'.
    destruct (quiet_calls cs3 p2 H3) as (_ & _ & ->).
    rewrite Hl', Hl2, Hv2, Hv, Hl. reflexivity.
Qed.

Lemma handler_is_registered_once_witness :
  listeners (calls ([UpdateFunctions redeclared] ++ [SetMessageHandler 3]
                      ++ [FocusOnFunction "count"]
                      ++ [ResolveWebviewView 7] ++ []) initial)
  = [(7, 3)]
  /\ listeners (calls ([UpdateFunctions redeclared] ++ [ResolveWebviewView 7]
                         ++ [FocusOnFunction "count"]
                         ++ [SetMessageHandler 3] ++ []) initial)
     = [(7, 3)].
Proof.
  apply (handler_is_registered_once [UpdateFunctions redeclared]
           [FocusOnFunction "count"] [] 7 3); reflexivity.
Defined.

End PanelProofs.

(** * Properties of the extension entry point *)

Module ExtensionProofs.

Import JsString CodeParser CodeExecutor TestPanel Extension ExtractorSpec MoreSpec.
Import ExtractorProofs MoreExtractorProofs EngineProofs MoreEngineProofs.
#[local] Open Scope list_scope.

Lemma lens_lines functions document :
  supported (languageId document) = true ->
  map lens_line (provideCodeLenses functions document)
  = map (fun f => (Z.of_nat (startLine f) - 1)%Z) functions
  /\ map lens_arguments (provideCodeLenses functions document)
     = map (fun f => [name f]) functions.
Proof.
  intros Hlang. unfold provideCodeLenses. rewrite Hlang. simpl.
  rewrite !map_map. auto.
Qed.

(** After a document in a supported language has been parsed, there is
    one lens for each descriptor, in the order of the descriptors: the
    order of the traversal, in which the descriptors of a class and of its
    methods, or of the bindings of a statement, come before those of the
    declarations nested in them -- not the order of the lines.  Each lens
    sits on the 0-based line where its declaration starts and carries the
    name of its descriptor; and the lenses have been refreshed once. *)
Theorem lenses_follow_declarations H ts document sf ext :
  supported (languageId document) = true ->
  ts (fileName document) (getText document) = Normal sf ->
  exists ext',
    updateFunctionList H ts document ext = (Normal tt, ext')
    /\ map lens_line (provideCodeLenses (currentFunctions ext') document)
       = map Z.of_nat (start_lines (root sf))
    /\ map lens_arguments (provideCodeLenses (currentFunctions ext') document)
       = map (fun f => [name f]) (traversal_order (root sf))
    /\ codeLensRefreshes ext' = S (codeLensRefreshes ext).
Proof.
  intros Hlang Hparse. unfold updateFunctionList. rewrite Hlang. cbn [negb].
  rewrite (parseFunctions_traversal_order _ _ _ _ Hparse).
  eexists. split; [reflexivity|]. cbn [currentFunctions codeLensRefreshes].
  destruct (lens_lines (traversal_order (root sf)) document Hlang) as [-> ->].
  repeat split.
  rewrite <- (map_map startLine (fun n => (Z.of_nat n - 1)%Z)).
  rewrite startLines_traversal_order, map_map.
  apply map_ext. intros n. lia.
Qed.

Lemma lenses_follow_declarations_witness :
  exists ext',
    updateFunctionList Sample.host sample_parser calc_document sample_extension
    = (Normal tt, ext')
    /\ map lens_line (provideCodeLenses (currentFunctions ext') calc_document)
       = map Z.of_nat (start_lines (root calc_tree))
    /\ map lens_arguments (provideCodeLenses (currentFunctions ext') calc_document)
       = map (fun f => [name f]) (traversal_order (root calc_tree))
    /\ codeLensRefreshes ext' = S (codeLensRefreshes sample_extension).
Proof.
  exact (lenses_follow_declarations Sample.host sample_parser calc_document
           calc_tree sample_extension eq_refl eq_refl).
Defined.

Lemma updateFunctionList_functions H ts document ext r ext' :
  updateFunctionList H ts document ext = (r, ext') ->
  r <> Hang ->
  currentFunctions ext'
  = default (currentFunctions ext) (parsed ts document)
  /\ codeLensRefreshes ext'
     = codeLensRefreshes ext
       + match parsed ts document with Some _ => 1 | None => 0 end.
Proof.
  unfold updateFunctionList, parsed.
  destruct (supported (languageId document)); cbn [negb].
  - destruct (parseFunctions ts (getText document) (fileName document))
      as [functions|e|].
    + intros [= <- <-] _. simpl. split; [reflexivity | lia].
    + destruct (String_ H e) as [text|e2|]; intros [= <- <-] Hr; simpl;
        split; (reflexivity || lia).
    + intros [= <- <-] Hr. contradiction.
  - intros [= <- <-] _. simpl. split; [reflexivity | lia].
Qed.

(** [currentFunctions] always holds the descriptors of the last document
    that was in a supported language and that the parser accepted: a
    document in another language, and a document on which the parser
    throws, leave the list of the earlier document in place. *)
Theorem current_functions_follow_last_parse H ts documents ext ext' :
  updateAll H ts documents ext = Some ext' ->
  currentFunctions ext' = default (currentFunctions ext) (last_parsed ts documents).
Proof.
  revert ext. induction documents as [|d rest IH]; intros ext.
  - intros [= <-]. reflexivity.
  - cbn [updateAll last_parsed].
    destruct (updateFunctionList H ts d ext) as [r ext1] eqn:Hstep.
    assert (Hr : r <> Hang -> updateAll H ts rest ext1 = Some ext' ->
                 currentFunctions ext'
                 = default (currentFunctions ext)
                     match last_parsed ts rest with
                     | Some functions => Some functions
                     | None => parsed ts d
                     end).
    { intros Hnot Hrest. apply IH in Hrest. rewrite Hrest.
      destruct (updateFunctionList_functions H ts d ext r ext1 Hstep Hnot) as [-> _].
      now destruct (last_parsed ts rest). }
    destruct r as [[]|e|]; [| |discriminate]; apply Hr; discriminate.
Qed.

Lemma current_functions_follow_last_parse_witness :
  currentFunctions
    {| currentFunctions := traversal_order (root calc_tree);
       panel := updateFunctions []
                  (updateFunctions (traversal_order (root calc_tree)) resolved_panel);
       codeLensRefreshes := 1;
       errorMessages := [] |}
  = default (currentFunctions sample_extension)
      (last_parsed sample_parser [calc_document; notes_document]).
Proof.
  exact (current_functions_follow_last_parse Sample.host sample_parser
           [calc_document; notes_document] sample_extension _ eq_refl).
Defined.

Lemma args_copied (args : list ArgWithType) :
  map (fun arg => {| arg_value := arg_value arg; arg_type := arg_type arg |}) args
  = args.
Proof.
  induction args as [|[v t] args IH]; [reflexivity|]. simpl. now rewrite IH.
Qed.

Lemma find_first functionName before f after :
  name f = functionName ->
  Forall (fun g => name g <> functionName) before ->
  find_function functionName (before ++ f :: after) = Some f.
Proof.
  intros Hf Hbefore. unfold find_function.
  induction Hbefore as [|g gs Hg _ IH]; simpl.
  - rewrite Hf, String.eqb_refl. reflexivity.
  - apply String.eqb_neq in Hg. now rewrite Hg.
Qed.

Lemma find_none functionName functions :
  Forall (fun g => name g <> functionName) functions ->
  find_function functionName functions = None.
Proof.
  intros Hall. unfold find_function.
  induction Hall as [|g gs Hg _ IH]; [reflexivity|].
  simpl. apply String.eqb_neq in Hg. now rewrite Hg.
Qed.

(** When several descriptors carry the requested name, the first one is
    run: the report posted for the request is the outcome of the engine on
    the source text and the async flag of the first descriptor with that
    name, with the index of the request. *)
Theorem first_declaration_is_run H message t0 t1 ext heap before f after o heap' :
  currentFunctions ext = before ++ f :: after ->
  name f = msg_functionName message ->
  Forall (fun g => name g <> msg_functionName message) before ->
  executeFunction H (fullText f) (msg_functionName message)
    (default [] (msg_arguments message)) (isAsync f) (msg_testArgs message)
    t0 t1 heap = (Normal o, heap') ->
  handleFunctionExecution H message t0 t1 (ext, heap)
  = (Normal tt,
     (with_panel
        (sendExecutionResult
           {| outcome := o; index := default 0 (msg_index message) |} (panel ext))
        ext,
      heap')).
Proof.
  intros Hlist Hname Hbefore Hrun. unfold handleFunctionExecution.
  rewrite Hlist, (find_first _ before f after Hname Hbefore).
  rewrite args_copied. unfold try_catch, bind, engine, send.
  rewrite Hrun. reflexivity.
Qed.

Lemma first_declaration_is_run_witness :
  handleFunctionExecution Sample.host count_message 1000 1003
    (sample_extension, Sample.pristine)
  = (Normal tt,
     (with_panel
        (sendExecutionResult
           {| outcome := {| success := false; result := None;
                            error := Some (VStr "list is not iterable");
                            executionTime := Some 3%Z |};
              index := default 0 (msg_index count_message) |}
           (panel sample_extension))
        sample_extension,
      Sample.pristine)).
Proof.
  refine (first_declaration_is_run Sample.host count_message 1000 1003
            sample_extension Sample.pristine
            [descriptor "peek" Sample.peek_source 1]
            (descriptor "count" Sample.count_source 2)
            [descriptor "count" Sample.fail_source 3] _ Sample.pristine
            eq_refl eq_refl _ _).
  - repeat constructor. discriminate.
  - vm_compute. reflexivity.
Defined.

(** A request for a name that no descriptor carries is answered with a
    failure report carrying the index of the request; the engine is not
    called, so the host objects are left as they were. *)
Theorem unknown_function_is_reported H message t0 t1 ext heap :
  Forall (fun g => name g <> msg_functionName message) (currentFunctions ext) ->
  handleFunctionExecution H message t0 t1 (ext, heap)
  = (Normal tt,
     (with_panel
        (sendExecutionResult
           {| outcome := failure (not_found (msg_functionName message));
              index := default 0 (msg_index message) |} (panel ext))
        ext,
      heap)).
Proof.
  intros Hall. unfold handleFunctionExecution.
  now rewrite (find_none _ _ Hall).
Qed.

Lemma unknown_function_is_reported_witness :
  handleFunctionExecution Sample.host
    {| msg_functionName := "missing"; msg_arguments := None;
       msg_testArgs := None; msg_index := None |} 1000 1003
    (sample_extension, Sample.pristine)
  = (Normal tt,
     (with_panel
        (sendExecutionResult
           {| outcome := failure (not_found "missing"); index := 0 |}
           (panel sample_extension))
        sample_extension,
      Sample.pristine)).
Proof.
  apply (unknown_function_is_reported Sample.host
           {| msg_functionName := "missing"; msg_arguments := None;
              msg_testArgs := None; msg_index := None |}).
  repeat constructor; discriminate.
Defined.

(** What the engine call throws has a text, when it is read at all. *)
Lemma escaped_error_has_text H e0 e' e :
  String_total H -> message_readable H ->
  error_text H e0 = Throw e' -> error_text H e' <> Throw e.
Proof.
  intros Htotal Hreadable Hthrow.
  assert (Herror : is_error e' = true).
  { destruct (error_text_throws H e0 e' Hthrow) as [->|[->|[Hget|Hstring]]];
      [reflexivity | reflexivity | now destruct (Hreadable e0 e') |].
    destruct (Htotal e0) as [s Hs]. congruence. }
  destruct e' as [| | | | | | | |ename emessage estack| |]; try discriminate.
  unfold error_text. cbn [get_message].
  pose proof (Hreadable (VError ename emessage estack)) as Hget.
  destruct (object_get H _ "message") as [m|e1|];
    [|now destruct (Hget e1)|discriminate].
  destruct (truthy m); [discriminate|].
  destruct (Htotal (VError ename emessage estack)) as [s ->]. discriminate.
Qed.


Lemma sample_String_total : String_total Sample.host.
Proof.
  intros v. destruct v as [| |[|]| | | | | | | |]; eexists; reflexivity.
Defined.

Lemma sample_message_readable : message_readable Sample.host.
Proof. intros v e. destruct v; discriminate. Defined.


(** Jumping to a function moves the selection to the line of the first
    lens that runs a function of that name; when no lens does, the
    selection is left alone. *)
Theorem jump_lands_on_first_lens document functionName ext :
  supported (languageId document) = true ->
  handleJumpToDefinition (Some document) functionName ext
  = lens_line
      <$> find (lens_of functionName)
            (provideCodeLenses (currentFunctions ext) document).
Proof.
  intros Hlang. unfold handleJumpToDefinition, provideCodeLenses, find_function.
  rewrite Hlang. cbn [negb].
  induction (currentFunctions ext) as [|f functions IH]; [reflexivity|].
  cbn [map find]. unfold lens_of at 1. cbn [lens_arguments].
  destruct (String.eqb (name f) functionName); [reflexivity | exact IH].
Qed.

Lemma jump_lands_on_first_lens_witness :
  handleJumpToDefinition (Some calc_document) "count" sample_extension
  = lens_line
      <$> find (lens_of "count")
            (provideCodeLenses (currentFunctions sample_extension) calc_document).
Proof.
  exact (jump_lands_on_first_lens calc_document "count" sample_extension eq_refl).
Defined.

End ExtensionProofs.

(** * Properties of the history and the parameter cache of the panel *)

Module PanelScriptProofs.

Import CodeExecutor PanelScript MoreSpec.
#[local] Open Scope list_scope.

Lemma saveAll_app records r h :
  saveAll (records ++ [r]) h
  = match saveToHistory r (saveAll records h) with
    | Normal h' => h'
    | _ => saveAll records h
    end.
Proof. unfold saveAll. now rewrite foldl_app. Qed.

Lemma unshift_pop_take r (x : list HistoryRecord) :
  unshift_pop r (take 3 x) = r :: take 2 x.
Proof. destruct x as [|a [|b [|c [|d x]]]]; reflexivity. Qed.

Lemma take_rev_snoc (r : HistoryRecord) rs :
  take 3 (rev (rs ++ [r])) = r :: take 2 (rev rs).
Proof. rewrite rev_app_distr. reflexivity. Qed.

Lemma filter_snoc (fname : string) (records : list HistoryRecord) r :
  List.filter (record_of fname) (records ++ [r])
  = List.filter (record_of fname) records
    ++ (if record_of fname r then [r] else []).
Proof. rewrite List.filter_app. reflexivity. Qed.

(** The history of a function holds its three most recent records, newest
    first, whatever was recorded for other functions in between; a
    function that has not been run has no entry. *)
Theorem history_keeps_three_most_recent (records : list HistoryRecord) (fname : string) :
  Forall (fun r => inherited (functionName r) = false) records ->
  saveAll records ∅ !! fname
  = match List.filter (record_of fname) records with
    | [] => None
    | _ :: _ => Some (take 3 (rev (List.filter (record_of fname) records)))
    end.
Proof.
  intros Hall. revert fname.
  induction records as [|r records IH] using rev_ind; intros fname.
  - reflexivity.
  - apply Forall_app in Hall as [Hrecords Hr].
    apply Forall_cons in Hr as [Hr _].
    specialize (IH Hrecords).
    rewrite saveAll_app, filter_snoc. unfold saveToHistory.
    rewrite (IH (functionName r)).
    change (record_of fname r) with (String.eqb (functionName r) fname).
    destruct (String.eqb_spec (functionName r) fname) as [Heq|Hne].
    + subst fname.
      destruct (List.filter (record_of (functionName r)) records)
        as [|a rs] eqn:Hf.
      * rewrite Hr, lookup_insert_eq. reflexivity.
      * rewrite lookup_insert_eq, take_rev_snoc, unshift_pop_take. reflexivity.
    + rewrite app_nil_r.
      destruct (List.filter (record_of (functionName r)) records);
        [rewrite Hr|]; rewrite lookup_insert_ne by congruence; apply IH.
Qed.

Lemma history_keeps_three_most_recent_witness :
  saveAll [ history_record "add" "1" 10; history_record "mul" "2" 20;
            history_record "add" "3" 30; history_record "add" "4" 40;
            history_record "add" "5" 50 ] ∅ !! "add"
  = Some [ history_record "add" "5" 50; history_record "add" "4" 40;
           history_record "add" "3" 30 ].
Proof.
  refine (history_keeps_three_most_recent
            [ history_record "add" "1" 10; history_record "mul" "2" 20;
              history_record "add" "3" 30; history_record "add" "4" 40;
              history_record "add" "5" 50 ] "add" _).
  repeat constructor.
Defined.

Lemma saveAll_own_keys records : forall h key,
  inherited key = true ->
  h !! key = None ->
  saveAll records h !! key = None.
Proof.
  induction records as [|r records IH]; intros h key Hkey Hh; [exact Hh|].
  unfold saveAll. cbn [foldl]. apply IH; [exact Hkey|].
  unfold saveToHistory.
  destruct (String.eqb_spec (functionName r) key) as [Heq|Hne].
  - rewrite Heq, Hh, Hkey. exact Hh.
  - destruct (h !! functionName r).
    + now rewrite lookup_insert_ne.
    + destruct (inherited (functionName r)); [exact Hh|].
      now rewrite lookup_insert_ne.
Qed.

(** For a function whose name is a member of [Object.prototype], such as
    [toString] or [constructor], no history can be recorded: after any
    sequence of executions, saving its record throws a TypeError. *)
Theorem history_rejects_prototype_names records r :
  inherited (functionName r) = true ->
  saveToHistory r (saveAll records ∅)
  = Throw (TypeError "functionHistory[funcName].unshift is not a function").
Proof.
  intros Hr. unfold saveToHistory.
  rewrite (saveAll_own_keys records ∅ (functionName r) Hr (lookup_empty _)).
  now rewrite Hr.
Qed.

Lemma history_rejects_prototype_names_witness :
  saveToHistory (history_record "toString" "1" 30)
    (saveAll [ history_record "add" "1" 10; history_record "toString" "2" 20 ] ∅)
  = Throw (TypeError "functionHistory[funcName].unshift is not a function").
Proof.
  exact (history_rejects_prototype_names
           [ history_record "add" "1" 10; history_record "toString" "2" 20 ]
           (history_record "toString" "1" 30) eq_refl).
Defined.

Lemma assign_lookup paramName value params :
  paramName <> "__proto__" ->
  assign paramName value params !! paramName = Some value.
Proof.
  intros Hname. unfold assign. apply String.eqb_neq in Hname.
  destruct (params !! paramName); rewrite ?Hname; apply lookup_insert_eq.
Qed.

Lemma assign_other paramName value params p :
  p <> paramName ->
  assign paramName value params !! p = params !! p.
Proof.
  intros Hp. unfold assign.
  destruct (params !! paramName); [|destruct (String.eqb paramName "__proto__")];
    try reflexivity; now apply lookup_insert_ne.
Qed.

(** A value saved for a parameter is the value read back for it, and the
    save changes what is read for no other function, nor for another
    parameter of the same function whose name is not a member of
    [Object.prototype]. *)
Theorem param_cache_round_trip member_has fname paramName value cache :
  inherited fname = false ->
  paramName <> "__proto__" ->
  exists cache',
    saveParamCache fname paramName value cache = Some cache'
    /\ getCachedParam member_has fname paramName cache' = Some value
    /\ forall f p,
         f <> fname \/ (p <> paramName /\ inherited p = false) ->
         getCachedParam member_has f p cache' = getCachedParam member_has f p cache.
Proof.
  intros Hfname Hparam. unfold saveParamCache.
  destruct (cache !! fname) as [params|] eqn:Hcache; [|rewrite Hfname];
    (eexists; split; [reflexivity|]; split;
     [ unfold getCachedParam; rewrite lookup_insert_eq;
       now rewrite (assign_lookup _ _ _ Hparam)
     | intros f p Hother; unfold getCachedParam;
       destruct (String.eqb_spec f fname) as [->|Hf];
       [ destruct Hother as [Hf|[Hp Hin]]; [contradiction|];
         rewrite lookup_insert_eq, Hcache, (assign_other _ _ _ _ Hp)
       | rewrite lookup_insert_ne by congruence; reflexivity ] ]).
  - reflexivity.
  - rewrite lookup_empty, Hin, Hfname. reflexivity.
Qed.

Lemma param_cache_round_trip_witness :
  exists cache',
    saveParamCache "add" "a" "41" ∅ = Some cache'
    /\ getCachedParam named_members "add" "a" cache' = Some "41"
    /\ forall f p,
         f <> "add" \/ (p <> "a" /\ inherited p = false) ->
         getCachedParam named_members f p cache' = getCachedParam named_members f p ∅.
Proof.
  apply (param_cache_round_trip named_members "add" "a" "41" ∅); [reflexivity | discriminate].
Defined.

End PanelScriptProofs.
